(** * PageViewerBot: behavioural simulation engine

    A shallow embedding of [web_automation_demo.py] and the properties its
    specification states about persona generation, pointer-path synthesis,
    page analysis, element scoring and selection, input handling, post-click
    handling and session cleanup; further properties of these functions, of
    scrolling, waiting, pointer interaction and performance monitoring, and
    of the script [main.py].

    Conventions of the embedding.
    - Python [float] values are rationals ([Q]).  The scores of elements,
      whose last bit decides their order, are computed in binary64: every
      operation of the scorer rounds to the nearest double ([Float64]), and
      doubles are compared as the rationals they denote.  Elsewhere
      (durations, coordinates, the weights of the selection) arithmetic is
      exact and equality of numbers is [Qeq] ([==]).
    - Python [int] is [Z]; a [str] is a [string] of ASCII characters.
    - A call that may raise returns a [Py.result]; [try]/[except] is
      [Py.try_except].
    - The [random] module is a tape of draws of [random.random()], threaded
      explicitly through every function that consumes randomness.
    - The browser driver is external: what it answers for an element is a
      field of the element handle, what it is asked to do is an event of a
      trace.  A call that the source makes outside any [try] is an event
      followed by its outcome, which may be an exception. *)

From Stdlib Require Import QArith Qround Qabs Qpower ZArith List String Ascii Bool Lia Lqa.
From Stdlib Require Import Permutation Sorted DecimalString.
Import ListNotations.

Open Scope Q_scope.

(** ** Python exceptions and results *)

Module Py.

Inductive exn : Type :=
| StaleElementReferenceException
| NoAlertPresentException
| WebDriverException
| ValueError
| IndexError
| ZeroDivisionError.

Inductive result (A : Type) : Type :=
| Ok (a : A)
| Raise (e : exn).

Arguments Ok {A} a.
Arguments Raise {A} e.

Definition bind {A B : Type} (c : result A) (k : A -> result B) : result B :=
  match c with
  | Ok a => k a
  | Raise e => Raise e
  end.

(** [try: body except Exception as e: handler e] *)
Definition try_except {A : Type} (body : result A) (handler : exn -> result A)
  : result A :=
  match body with
  | Ok a => Ok a
  | Raise e => handler e
  end.

End Py.

Import Py.

Declare Scope py_scope.
Delimit Scope py_scope with py.
Notation "x <- c ;; k" := (Py.bind c (fun x => k))
  (at level 61, c at next level, right associativity) : py_scope.

(** ** The [random] module *)

Module Random.

(** A random source: the infinite tape of values [random.random()] will
    return, and the number of values consumed so far. *)
Record rng : Type := mkRng { tape : nat -> Q; pos : nat }.

(** [random.random()] returns a float in [0, 1). *)
Definition valid (g : rng) : Prop :=
  forall i : nat, 0 <= tape g i /\ tape g i < 1.

Definition random (g : rng) : Q * rng :=
  (tape g (pos g), mkRng (tape g) (S (pos g))).

(** [random.uniform(a, b)] is [a + (b - a) * random()]. *)
Definition uniform (a b : Q) (g : rng) : Q * rng :=
  let (u, g') := random g in (a + (b - a) * u, g').

(** [Random._randbelow(n)] read off one draw: floor(u * n). *)
Definition randbelow (n : Z) (g : rng) : Z * rng :=
  let (u, g') := random g in (Qfloor (u * inject_Z n), g').

Definition constant (u : Q) : rng := mkRng (fun _ => u) 0.

End Random.

Import Random.

(** ** Behaviour patterns and personas *)

Inductive BehaviorPattern : Type :=
| CASUAL | FOCUSED | EXPLORER | SCANNER | RESEARCHER.

Record UserBehavior : Type := mkUserBehavior {
  pattern : BehaviorPattern;
  reading_speed : Q;    (* words per minute *)
  typing_speed : Q;     (* characters per second *)
  mouse_precision : Q;
  attention_span : Q;   (* seconds *)
  curiosity_level : Q
}.

(** One entry of the [patterns] dict of [generate_persona]. *)
Record persona_config : Type := mkConfig {
  cfg_reading_speed : Q;
  cfg_typing_speed : Q;
  cfg_mouse_precision : Q;
  cfg_attention_span : Q;
  cfg_curiosity_level : Q
}.

(** The five [random.uniform] calls of one dict entry, in source order. *)
Definition draw_config (rs ts mp att cur : Q * Q) (g : rng) : persona_config * rng :=
  let (v1, g1) := uniform (fst rs) (snd rs) g in
  let (v2, g2) := uniform (fst ts) (snd ts) g1 in
  let (v3, g3) := uniform (fst mp) (snd mp) g2 in
  let (v4, g4) := uniform (fst att) (snd att) g3 in
  let (v5, g5) := uniform (fst cur) (snd cur) g4 in
  (mkConfig v1 v2 v3 v4 v5, g5).

(** [UserBehavior.generate_persona]: the dict literal is evaluated in full
    (all twenty-five draws, in source order) before the entry of [pattern] is
    looked up. *)
Definition generate_persona (p : BehaviorPattern) (g : rng) : UserBehavior * rng :=
  let (casual, g1) :=
    draw_config (200, 250) (2, 4) (0.6, 0.8) (10, 30) (0.3, 0.5) g in
  let (focused, g2) :=
    draw_config (300, 400) (4, 7) (0.8, 0.95) (30, 60) (0.1, 0.3) g1 in
  let (explorer, g3) :=
    draw_config (250, 350) (3, 5) (0.5, 0.7) (5, 15) (0.7, 0.9) g2 in
  let (scanner, g4) :=
    draw_config (400, 500) (5, 8) (0.6, 0.8) (3, 10) (0.4, 0.6) g3 in
  let (researcher, g5) :=
    draw_config (150, 200) (3, 5) (0.7, 0.9) (60, 120) (0.6, 0.8) g4 in
  let patterns (k : BehaviorPattern) : persona_config :=
    match k with
    | CASUAL => casual
    | FOCUSED => focused
    | EXPLORER => explorer
    | SCANNER => scanner
    | RESEARCHER => researcher
    end in
  let config := patterns p in
  (mkUserBehavior p
     (cfg_reading_speed config) (cfg_typing_speed config)
     (cfg_mouse_precision config) (cfg_attention_span config)
     (cfg_curiosity_level config),
   g5).

(** The numeric fields of a persona. *)
Inductive persona_field : Type :=
| ReadingSpeed | TypingSpeed | MousePrecision | AttentionSpan | CuriosityLevel.

Definition field_value (f : persona_field) (b : UserBehavior) : Q :=
  match f with
  | ReadingSpeed => reading_speed b
  | TypingSpeed => typing_speed b
  | MousePrecision => mouse_precision b
  | AttentionSpan => attention_span b
  | CuriosityLevel => curiosity_level b
  end.

(** The documented closed interval of each field, per pattern (lower bound,
    upper bound). *)
Definition documented_interval (p : BehaviorPattern) (f : persona_field) : Q * Q :=
  match p, f with
  | CASUAL, ReadingSpeed => (200, 250)
  | CASUAL, TypingSpeed => (2, 4)
  | CASUAL, MousePrecision => (0.6, 0.8)
  | CASUAL, AttentionSpan => (10, 30)
  | CASUAL, CuriosityLevel => (0.3, 0.5)
  | FOCUSED, ReadingSpeed => (300, 400)
  | FOCUSED, TypingSpeed => (4, 7)
  | FOCUSED, MousePrecision => (0.8, 0.95)
  | FOCUSED, AttentionSpan => (30, 60)
  | FOCUSED, CuriosityLevel => (0.1, 0.3)
  | EXPLORER, ReadingSpeed => (250, 350)
  | EXPLORER, TypingSpeed => (3, 5)
  | EXPLORER, MousePrecision => (0.5, 0.7)
  | EXPLORER, AttentionSpan => (5, 15)
  | EXPLORER, CuriosityLevel => (0.7, 0.9)
  | SCANNER, ReadingSpeed => (400, 500)
  | SCANNER, TypingSpeed => (5, 8)
  | SCANNER, MousePrecision => (0.6, 0.8)
  | SCANNER, AttentionSpan => (3, 10)
  | SCANNER, CuriosityLevel => (0.4, 0.6)
  | RESEARCHER, ReadingSpeed => (150, 200)
  | RESEARCHER, TypingSpeed => (3, 5)
  | RESEARCHER, MousePrecision => (0.7, 0.9)
  | RESEARCHER, AttentionSpan => (60, 120)
  | RESEARCHER, CuriosityLevel => (0.6, 0.8)
  end.

Definition within (iv : Q * Q) (v : Q) : Prop := fst iv <= v /\ v <= snd iv.

(** ** Pointer-path synthesis *)

Definition point : Type := (Q * Q)%type.

Definition point_eq (p q : point) : Prop := fst p == fst q /\ snd p == snd q.

Fixpoint mapM {A B : Type} (f : A -> result B) (l : list A) : result (list B) :=
  match l with
  | [] => Ok []
  | a :: l' =>
      (b <- f a ;; bs <- mapM f l' ;; Ok (b :: bs))%py
  end.

(** [np.linspace(0, 1, num)]: a negative [num] raises [ValueError]; otherwise
    sample [i] is [i * step] with [step = 1 / (num - 1)] when [num - 1 > 0],
    and [i * 1] (that is, the single sample 0) when [num = 1].  numpy then
    overwrites the last sample with the stop value, which exact arithmetic
    already gives. *)
Definition linspace01 (num : Z) : result (list Q) :=
  if (num <? 0)%Z then Raise ValueError
  else
    let div := (num - 1)%Z in
    let step := if (0 <? div)%Z then 1 / inject_Z div else 1 in
    Ok (map (fun i : nat => inject_Z (Z.of_nat i) * step) (seq 0 (Z.to_nat num))).

(** The samples of [np.linspace(0, 1, num)] for at least two samples. *)
Definition linspace_samples (num : Z) : list Q :=
  map (fun i : nat => inject_Z (Z.of_nat i) * (1 / inject_Z (num - 1)))
      (seq 0 (Z.to_nat num)).

(** [control_points[i]] *)
Definition getitem {A : Type} (l : list A) (i : nat) : result A :=
  match nth_error l i with
  | Some a => Ok a
  | None => Raise IndexError
  end.

(** One coordinate of the cubic Bezier formula of the loop body. *)
Definition bezier_coord (s c0 c1 e t : Q) : Q :=
  (1 - t) ^ 3 * s + 3 * (1 - t) ^ 2 * t * c0 + 3 * (1 - t) * t ^ 2 * c1 + t ^ 3 * e.

(** The loop body of [bezier_curve] for one value of [t]. *)
Definition bezier_point (start end_ : point) (control_points : list point) (t : Q)
  : result point :=
  (c0 <- getitem control_points 0 ;;
   c1 <- getitem control_points 1 ;;
   Ok (bezier_coord (fst start) (fst c0) (fst c1) (fst end_) t,
       bezier_coord (snd start) (snd c0) (snd c1) (snd end_) t))%py.

(** The control points drawn when none are passed. *)
Definition random_control_points (start end_ : point) (g : rng) : list point * rng :=
  let mid_x := (fst start + fst end_) / 2 in
  let mid_y := (snd start + snd end_) / 2 in
  let (offset_x, g1) := uniform (-100) 100 g in
  let (offset_y, g2) := uniform (-100) 100 g1 in
  ([(mid_x + offset_x, mid_y + offset_y);
    (mid_x - offset_x / 2, mid_y - offset_y / 2)], g2).

(** [MouseMovement.bezier_curve] *)
Definition bezier_curve (start end_ : point) (control_points : option (list point))
  (num_points : Z) (g : rng) : result (list point) * rng :=
  let (cps, g') :=
    match control_points with
    | None => random_control_points start end_ g
    | Some cps => (cps, g)
    end in
  ((ts <- linspace01 num_points ;; mapM (bezier_point start end_ cps) ts)%py, g').



(** ** Strings *)

Module Str.

(** [str.lower()] on one ASCII character. *)
Definition lower_ascii (c : ascii) : ascii :=
  let n := nat_of_ascii c in
  if ((65 <=? n) && (n <=? 90))%nat then ascii_of_nat (n + 32) else c.

(** [s.lower()] *)
Fixpoint lower (s : string) : string :=
  match s with
  | EmptyString => EmptyString
  | String c s' => String (lower_ascii c) (lower s')
  end.

(** [sub in s] *)
Fixpoint contains (sub s : string) : bool :=
  prefix sub s ||
  match s with
  | EmptyString => false
  | String _ s' => contains sub s'
  end.

(** [sub] occurs in [s]. *)
Definition Substring (sub s : string) : Prop :=
  exists pre post : string, s = (pre ++ sub ++ post)%string.

(** [word] occurs in [s] up to the case of letters. *)
Definition SubstringIgnoringCase (word s : string) : Prop :=
  exists pre mid post : string,
    s = (pre ++ mid ++ post)%string /\ lower mid = lower word.

End Str.

(** ** The browser driver's view of a page *)

(** What the driver answers about one DOM node.  Every query may raise
    (a detached node raises [StaleElementReferenceException]). *)
Record DomNode : Type := mkDomNode {
  node_id : nat;
  is_displayed : result bool;
  is_enabled : result bool;
  size : result (Q * Q);                         (* width, height *)
  location : result (Q * Q);                     (* x, y *)
  tag_name : result string;
  text : result string;
  get_attribute : string -> result (option string);
  in_viewport : result bool;                     (* the bounding-box script *)
  cleared : result unit;                         (* [clear()] *)
  keys_sent : nat -> result unit                 (* the k-th [send_keys(...)] *)
}.

(** A [WebElement]: a Python object (identified by [id(element)]) holding a
    reference to a DOM node. *)
Record WebElement : Type := mkWebElement {
  py_id : nat;
  dom : DomNode
}.

(** ** Element scoring *)

Definition Qlt_bool (x y : Q) : bool := negb (Qle_bool y x).

(** IEEE 754 binary64 arithmetic on the rationals that doubles denote: the
    exact result of an operation is rounded to the nearest double, ties to
    even.  Subnormal numbers are included (least exponent -1074).  Results
    beyond the largest double, infinities and NaN are not modelled; no value
    computed below is larger than a few units. *)
Module Float64.

(** [floor (log2 x)] for [x > 0]. *)
Definition ilog2 (x : Q) : Z :=
  let k := (Z.log2 (Qnum x) - Z.log2 (Zpos (Qden x)))%Z in
  if Qle_bool (2 ^ k) x then k else (k - 1)%Z.

(** The integer nearest to [y >= 0], the even one of two equally near. *)
Definition nearest_even (y : Q) : Z :=
  let f := Qfloor y in
  let r := y - inject_Z f in
  if Qlt_bool r (1 # 2) then f
  else if Qlt_bool (1 # 2) r then (f + 1)%Z
  else if Z.even f then f else (f + 1)%Z.

(** The double nearest to [x]: 53 significant bits. *)
Definition round (x : Q) : Q :=
  if Qeq_bool x 0 then 0
  else
    let a := Qabs x in
    let e := Z.max (ilog2 a - 52) (-1074) in
    let v := Qred (inject_Z (nearest_even (a / 2 ^ e)) * 2 ^ e) in
    if Qlt_bool x 0 then - v else v.

(** A decimal literal of the program text, such as [0.3]. *)
Definition double (literal : Q) : Q := round literal.

Definition add (a b : Q) : Q := round (a + b).
Definition sub (a b : Q) : Q := round (a - b).
Definition mul (a b : Q) : Q := round (a * b).

End Float64.

(** [random.uniform(a, b)] on doubles: [a + (b - a) * random()]. *)
Definition uniform_float (a b : Q) (g : rng) : Q * rng :=
  let (u, g') := random g in
  (Float64.add a (Float64.mul (Float64.sub b a) u), g').

Definition high_priority_words : list string :=
  ["submit"; "search"; "login"; "next"; "continue"; "accept"]%string.

(** [x or ''] for an optional string. *)
Definition or_empty (x : option string) : string :=
  match x with
  | Some s => s
  | None => EmptyString
  end.

(** The body of the scoring loop up to, and excluding, the random term.
    [score] starts as the double [0.0]; every [score += x] is an addition of
    doubles. *)
Definition score_subtotal (element : WebElement) : result Q :=
  (let score := 0 in
   location <- location (dom element) ;;
   let score :=
     if Qlt_bool (snd location) 800
     then Float64.add score (Float64.double 0.3) else score in
   size <- size (dom element) ;;
   let score :=
     if Qlt_bool 100 (fst size) && Qlt_bool 30 (snd size)
     then Float64.add score (Float64.double 0.2) else score in
   tag <- tag_name (dom element) ;;
   let tag_name := Str.lower tag in
   let score :=
     if String.eqb tag_name "button" then Float64.add score (Float64.double 0.3)
     else if String.eqb tag_name "a" then Float64.add score (Float64.double 0.25)
     else if String.eqb tag_name "input" then Float64.add score (Float64.double 0.2)
     else score in
   txt <- text (dom element) ;;
   let text := Str.lower txt in
   let score :=
     if existsb (fun word => Str.contains word text) high_priority_words
     then Float64.add score (Float64.double 0.4) else score in
   cls <- get_attribute (dom element) "class" ;;
   let class_name := or_empty cls in
   let score :=
     if Str.contains "primary" class_name || Str.contains "main" class_name
     then Float64.add score (Float64.double 0.2) else score in
   Ok score)%py.

(** One iteration of the scoring loop: the sub-total, then
    [score += random.uniform(0, curiosity_level * 0.3)].  No draw is consumed
    when reading the element raises. *)
Definition score_element (behavior : UserBehavior) (element : WebElement) (g : rng)
  : result Q * rng :=
  match score_subtotal element with
  | Ok score =>
      let (r, g') :=
        uniform_float 0 (Float64.mul (curiosity_level behavior) (Float64.double 0.3)) g in
      (Ok (Float64.add score r), g')
  | Raise e => (Raise e, g)
  end.

(** The loop of [_score_elements]: an element whose scoring raises is
    skipped ([except ...: continue]). *)
Fixpoint score_loop (behavior : UserBehavior) (elements : list WebElement) (g : rng)
  : list (WebElement * Q) * rng :=
  match elements with
  | [] => ([], g)
  | element :: rest =>
      match score_element behavior element g with
      | (Ok score, g') =>
          let (scored, g'') := score_loop behavior rest g' in
          ((element, score) :: scored, g'')
      | (Raise _, g') => score_loop behavior rest g'
      end
  end.

(** [scored.sort(key=lambda x: x[1], reverse=True)].  Python's sort is
    stable, also with [reverse=True]; a stable sort is determined by its
    input, and is written here as an insertion sort. *)
Fixpoint insert_desc {A : Type} (x : A * Q) (l : list (A * Q)) : list (A * Q) :=
  match l with
  | [] => [x]
  | y :: l' =>
      if Qlt_bool (snd x) (snd y) then y :: insert_desc x l' else x :: y :: l'
  end.

Definition sort_desc {A : Type} (l : list (A * Q)) : list (A * Q) :=
  fold_right insert_desc [] l.

(** [AdvancedWebAutomation._score_elements] *)
Definition _score_elements (behavior : UserBehavior) (elements : list WebElement)
  (g : rng) : list (WebElement * Q) * rng :=
  let (scored, g') := score_loop behavior elements g in
  (sort_desc scored, g').

(** The scoring rule in the words of the specification.  Nothing below
    refers to the functions of the scoring loop. *)

(** Two characters that are the same letter up to case. *)
Definition same_letter (a b : ascii) : Prop :=
  a = b \/
  exists n : nat,
    (65 <= n <= 90)%nat /\
    ((a = ascii_of_nat n /\ b = ascii_of_nat (n + 32)) \/
     (b = ascii_of_nat n /\ a = ascii_of_nat (n + 32))).

(** Two texts that are equal up to the case of letters. *)
Inductive same_text : string -> string -> Prop :=
| same_text_nil : same_text EmptyString EmptyString
| same_text_cons (a b : ascii) (s t : string) :
    same_letter a b -> same_text s t -> same_text (String a s) (String b t).

(** [word] occurs in [s], case-insensitively. *)
Definition contains_ignoring_case (word s : string) : Prop :=
  exists pre mid post : string, s = (pre ++ mid ++ post)%string /\ same_text mid word.

(** [bonus P a q]: the term [q] is [a] when [P] holds and 0 otherwise. *)
Definition bonus (P : Prop) (a q : Q) : Prop := (P -> q = a) /\ (~ P -> q = 0).

Definition is_tag (name tag : string) : Prop := same_text tag name.

(** What is known of a candidate element; [class_attribute] is [None] when
    the element has no class attribute. *)
Record candidate : Type := mkCandidate {
  vertical_position : Q;
  width : Q;
  height : Q;
  tag : string;
  visible_text : string;
  class_attribute : option string
}.

(** The sum of the five terms, added as doubles in the order in which the
    specification lists them, starting from 0. *)
Definition subtotal_spec (c : candidate) (q : Q) : Prop :=
  exists p s t x k : Q,
    bonus (vertical_position c < 800) (Float64.double 0.3) p /\
    bonus (width c > 100 /\ height c > 30) (Float64.double 0.2) s /\
    (is_tag "button" (tag c) -> t = Float64.double 0.3) /\
    (is_tag "a" (tag c) -> t = Float64.double 0.25) /\
    (is_tag "input" (tag c) -> t = Float64.double 0.2) /\
    (~ is_tag "button" (tag c) -> ~ is_tag "a" (tag c) ->
     ~ is_tag "input" (tag c) -> t = 0) /\
    bonus (exists word,
             In word ["submit"; "search"; "login"; "next"; "continue"; "accept"]%string /\
             contains_ignoring_case word (visible_text c))
          (Float64.double 0.4) x /\
    bonus (exists cls, class_attribute c = Some cls /\
                       (Str.Substring "primary" cls \/ Str.Substring "main" cls))
          (Float64.double 0.2) k /\
    q = fold_left Float64.add [p; s; t; x; k] 0.

(** What the driver reports about an element, as a candidate. *)
Definition observed (element : WebElement) (c : candidate) : Prop :=
  exists x,
    location (dom element) = Ok (x, vertical_position c) /\
    size (dom element) = Ok (width c, height c) /\
    tag_name (dom element) = Ok (tag c) /\
    text (dom element) = Ok (visible_text c) /\
    get_attribute (dom element) "class" = Ok (class_attribute c).

(** All five reads of the scoring loop succeed on the element. *)
Definition readable (element : WebElement) : bool :=
  match location (dom element), size (dom element), tag_name (dom element),
        text (dom element), get_attribute (dom element) "class" with
  | Ok _, Ok _, Ok _, Ok _, Ok _ => true
  | _, _, _, _, _ => false
  end.

(** The random term of the score of the [i]-th element scored:
    [random.uniform(0, curiosity_level * 0.3)] on draw number [pos g + i]. *)
Definition random_term (behavior : UserBehavior) (g : rng) (i : nat) : Q :=
  fst (uniform_float 0 (Float64.mul (curiosity_level behavior) (Float64.double 0.3))
                     (mkRng (tape g) (pos g + i))).

(** Entries of a scored list that carry the score [v]. *)
Definition with_score {A : Type} (v : Q) (l : list (A * Q)) : list (A * Q) :=
  filter (fun es => Qeq_bool (snd es) v) l.

Definition sorted_desc {A : Type} (l : list (A * Q)) : Prop :=
  StronglySorted (fun a b : A * Q => snd b <= snd a) l.

(** ** Element selection *)

(** [l[:k]]: a negative [k] counts from the end. *)
Definition slice_to {A : Type} (l : list A) (k : Z) : list A :=
  if (k <? 0)%Z
  then firstn (Z.to_nat (Z.max (Z.of_nat (List.length l) + k) 0)) l
  else firstn (Z.to_nat k) l.

(** [l[k:]] *)
Definition slice_from {A : Type} (l : list A) (k : Z) : list A :=
  if (k <? 0)%Z
  then skipn (Z.to_nat (Z.max (Z.of_nat (List.length l) + k) 0)) l
  else skipn (Z.to_nat k) l.

(** [sum(weights)], in exact arithmetic.  On scores none of which is
    negative (the lists the statements about the weighted policy consider)
    the sum of doubles is zero exactly when the exact sum is: both are zero
    only when every score is. *)
Definition sum (l : list Q) : Q := fold_left Qplus l 0.

(** [pool[j] = x] *)
Fixpoint set_nth {A : Type} (j : nat) (x : A) (pool : list A) : list A :=
  match pool, j with
  | [], _ => []
  | _ :: rest, O => x :: rest
  | y :: rest, S j' => y :: set_nth j' x rest
  end.

(** The selection loop of [random.sample] over a pool: draw a position, take
    the element there, move the last live element into its place. *)
Fixpoint sample_pool {A : Type} (pool : list A) (k : nat) (g : rng) : list A * rng :=
  match k with
  | O => ([], g)
  | S k' =>
      let n := List.length pool in
      let (j, g') := randbelow (Z.of_nat n) g in
      let j := Z.to_nat j in
      match nth_error pool j, nth_error pool (n - 1) with
      | Some x, Some z =>
          let (picks, g'') := sample_pool (firstn (n - 1) (set_nth j z pool)) k' g' in
          (x :: picks, g'')
      | _, _ => ([], g')
      end
  end.

(** [random.sample(population, k)]: [ValueError] unless [0 <= k <= n]. *)
Definition random_sample {A : Type} (population : list A) (k : Z) (g : rng)
  : result (list A) * rng :=
  if ((k <? 0) || (Z.of_nat (List.length population) <? k))%Z
  then (Raise ValueError, g)
  else let (picks, g') := sample_pool population (Z.to_nat k) g in (Ok picks, g').

Module Numpy.

(** [np.cumsum(p)] *)
Fixpoint cumsum_from (acc : Q) (p : list Q) : list Q :=
  match p with
  | [] => []
  | w :: p' => (acc + w) :: cumsum_from (acc + w) p'
  end.

(** [cdf.searchsorted(x, side='right')]: the first index whose entry exceeds
    [x]. *)
Fixpoint searchsorted_right (cdf : list Q) (x : Q) : nat :=
  match cdf with
  | [] => O
  | c :: cdf' => if Qlt_bool x c then O else S (searchsorted_right cdf' x)
  end.

(** [p[found] = 0] *)
Definition zero_at (found : list nat) (p : list Q) : list Q :=
  map (fun iw : nat * Q =>
         if existsb (Nat.eqb (fst iw)) found then 0 else snd iw)
      (combine (seq 0 (List.length p)) p).

(** First occurrences, in order of appearance. *)
Fixpoint unique_in_order (seen new : list nat) : list nat :=
  match new with
  | [] => []
  | i :: new' =>
      if existsb (Nat.eqb i) seen then unique_in_order seen new'
      else i :: unique_in_order (i :: seen) new'
  end.

Fixpoint draws (m : nat) (g : rng) : list Q * rng :=
  match m with
  | O => ([], g)
  | S m' =>
      let (x, g') := random g in
      let (xs, g'') := draws m' g' in (x :: xs, g'')
  end.

(** The loop [while n_uniq < size] of sampling without replacement: every
    round draws one uniform per missing index and keeps the new distinct
    indices.  [rounds] bounds the number of rounds; every round with a
    positive weight left finds at least one index, so [size] rounds are
    enough. *)
Fixpoint choice_loop (rounds size : nat) (p : list Q) (found : list nat) (g : rng)
  : list nat * rng :=
  match rounds with
  | O => (found, g)
  | S rounds' =>
      if (size <=? List.length found)%nat then (found, g)
      else
        let (x, g') := draws (size - List.length found) g in
        let p' := zero_at found p in
        let cdf := cumsum_from 0 p' in
        let total := last cdf 0 in
        let cdf := map (fun c => c / total) cdf in
        let new := unique_in_order [] (map (searchsorted_right cdf) x) in
        choice_loop rounds' size p (found ++ new) g'
  end.

Definition count_nonzero (p : list Q) : nat :=
  List.length (filter (fun w => Qlt_bool 0 w) p).

(** [np.random.choice(a, size=size, replace=False, p=p)] for an integer [a]:
    the argument checks, in the order numpy makes them (each raises
    [ValueError]), then the sampling loop.  numpy has a generator of its
    own; its draws are read from the same tape here. *)
Definition random_choice (a : nat) (size : Z) (p : list Q) (g : rng)
  : result (list nat) * rng :=
  if ((a =? 0)%nat && negb (size =? 0)%Z) then (Raise ValueError, g)
  else if negb (List.length p =? a)%nat then (Raise ValueError, g)
  else if existsb (fun w => Qlt_bool w 0) p then (Raise ValueError, g)
  else if negb (Qeq_bool (sum p) 1) then (Raise ValueError, g)
  else if (Z.of_nat a <? size)%Z then (Raise ValueError, g)
  else if (size <? 0)%Z then (Raise ValueError, g)
  else if (Z.of_nat (count_nonzero p) <? size)%Z then (Raise ValueError, g)
  else
    let (idx, g') := choice_loop (Z.to_nat size) (Z.to_nat size) p [] g in
    (Ok idx, g').

End Numpy.

(** [AdvancedWebAutomation._select_elements_by_behavior] *)
Definition _select_elements_by_behavior (behavior : UserBehavior)
  (scored_elements : list (WebElement * Q)) (max_count : Z) (g : rng)
  : result (list (WebElement * Q)) * rng :=
  let len := Z.of_nat (List.length scored_elements) in
  match pattern behavior with
  | FOCUSED =>
      (Ok (slice_to (filter (fun e => Qlt_bool 0.6 (snd e)) scored_elements) max_count), g)
  | EXPLORER =>
      let high_score := slice_to scored_elements (max_count / 2) in
      let rest := slice_from scored_elements (max_count / 2) in
      match random_sample rest
              (Z.min (max_count / 2) (Z.of_nat (List.length rest))) g with
      | (Ok random_picks, g') => (Ok (high_score ++ random_picks), g')
      | (Raise e, g') => (Raise e, g')
      end
  | SCANNER =>
      (Ok (slice_to scored_elements (Z.min 3 max_count)), g)
  | CASUAL | RESEARCHER =>
      if (len <=? max_count)%Z then (Ok scored_elements, g)
      else
        let weights := map snd scored_elements in
        let total_weight := sum weights in
        if Qeq_bool total_weight 0
        then random_sample scored_elements (Z.min max_count len) g
        else
          let probabilities := map (fun w => w / total_weight) weights in
          match Numpy.random_choice (List.length scored_elements)
                  (Z.min max_count len) probabilities g with
          | (Ok indices, g') => (mapM (getitem scored_elements) indices, g')
          | (Raise e, g') => (Raise e, g')
          end
  end.

(** [out] is obtained from [l] by deleting entries. *)
Inductive sublist {A : Type} : list A -> list A -> Prop :=
| sublist_nil : sublist [] []
| sublist_skip (x : A) (out l : list A) : sublist out l -> sublist out (x :: l)
| sublist_keep (x : A) (out l : list A) : sublist out l -> sublist (x :: out) (x :: l).

(** ** A synthetic page *)

(** A node that is attached, displayed, enabled and inside the viewport. *)
Definition visible_node (id : nat) (tag text : string) (attrs : string -> option string)
  (x y w h : Q) : DomNode :=
  mkDomNode id (Ok true) (Ok true) (Ok (w, h)) (Ok (x, y)) (Ok tag) (Ok text)
            (fun name => Ok (attrs name)) (Ok true) (Ok tt) (fun _ => Ok tt).

(** A node that has been detached from the page: every query raises. *)
Definition stale_node (id : nat) : DomNode :=
  mkDomNode id
    (Raise StaleElementReferenceException) (Raise StaleElementReferenceException)
    (Raise StaleElementReferenceException) (Raise StaleElementReferenceException)
    (Raise StaleElementReferenceException) (Raise StaleElementReferenceException)
    (fun _ => Raise StaleElementReferenceException)
    (Raise StaleElementReferenceException)
    (Raise StaleElementReferenceException)
    (fun _ => Raise StaleElementReferenceException).

(** A large button above the fold: [<button class='btn primary'>Submit</button>] *)
Definition submit_button : DomNode :=
  visible_node 1 "button" "Submit"
    (fun name => if String.eqb name "class" then Some "btn primary"%string else None)
    40 120 160 48.

(** A small plain [div] below the fold, with a click handler. *)
Definition footer_div (id : nat) : DomNode :=
  visible_node id "div" "more"
    (fun name => if String.eqb name "onclick" then Some "go()"%string else None)
    10 900 20 10.

Definition casual_persona : UserBehavior := mkUserBehavior CASUAL 225 3 0.7 20 0.4.
Definition focused_persona : UserBehavior := mkUserBehavior FOCUSED 350 5 0.9 45 0.2.

(** ** Page analysis *)

(** The selector catalog of [find_interactive_elements]. *)
Definition selectors : list string :=
  ["button:not([disabled])";
   "a[href]:not([disabled])";
   "input:not([disabled]):not([type='hidden'])";
   "select:not([disabled])";
   "textarea:not([disabled])";
   "[role='button']:not([disabled])";
   "[role='link']:not([disabled])";
   "[role='menuitem']:not([disabled])";
   "[role='tab']:not([disabled])";
   "[class*='btn']:not([disabled])";
   "[class*='button']:not([disabled])";
   "[class*='link']:not([disabled])";
   "[class*='clickable']:not([disabled])";
   "[data-action]:not([disabled])";
   "[data-click]:not([disabled])";
   "[data-href]:not([disabled])";
   "[onclick]:not([disabled])"]%string.

(** The [try] block of [_is_element_interactive].  [not a or not b] asks for
    [b] only when [a] holds. *)
Definition interactivity_checks (element : WebElement) : result bool :=
  (displayed <- is_displayed (dom element) ;;
   hidden_or_disabled <-
     (if negb displayed then Ok true
      else (enabled <- is_enabled (dom element) ;; Ok (negb enabled))) ;;
   if hidden_or_disabled : bool then Ok false
   else
     size <- size (dom element) ;;
     if Qlt_bool (fst size) 5 || Qlt_bool (snd size) 5 then Ok false
     else
       in_viewport <- in_viewport (dom element) ;;
       Ok in_viewport)%py.

(** [PageAnalyzer._is_element_interactive] *)
Definition _is_element_interactive (element : WebElement) : result bool :=
  try_except (interactivity_checks element)
    (fun e =>
       match e with
       | StaleElementReferenceException => Ok false
       | _ => Ok false   (* logged at debug level *)
       end).

(** What the browser finds for a CSS selector: the matching nodes, or an
    exception. *)
Definition page : Type := string -> result (list DomNode).

(** The Python objects [find_elements] returns: one new [WebElement] per
    match on every call, the driver keeps no table of the objects it handed
    out.  [next_id] is the identity the next new object gets. *)
Fixpoint wrap (next_id : nat) (nodes : list DomNode) : list WebElement :=
  match nodes with
  | [] => []
  | n :: rest => mkWebElement next_id n :: wrap (S next_id) rest
  end.

Definition find_elements (find : page) (selector : string) (next_id : nat)
  : result (list WebElement) * nat :=
  match find selector with
  | Ok nodes => (Ok (wrap next_id nodes), (next_id + List.length nodes)%nat)
  | Raise e => (Raise e, next_id)
  end.

(** The first loop: [elements.extend(found)] per selector; a selector whose
    query raises is logged and skipped. *)
Fixpoint collect_elements (find : page) (sels : list string) (next_id : nat)
  : list WebElement * nat :=
  match sels with
  | [] => ([], next_id)
  | selector :: rest =>
      match find_elements find selector next_id with
      | (Ok found, next_id') =>
          let (more, next_id'') := collect_elements find rest next_id' in
          (found ++ more, next_id'')
      | (Raise _, next_id') => collect_elements find rest next_id'
      end
  end.

(** The second loop: [seen] is the set of [id(element)] values met so far. *)
Fixpoint unique_interactive (elements : list WebElement) (seen : list nat)
  : result (list WebElement) :=
  match elements with
  | [] => Ok []
  | element :: rest =>
      let element_id := py_id element in
      if existsb (Nat.eqb element_id) seen then unique_interactive rest seen
      else
        let seen := element_id :: seen in
        (keep <- _is_element_interactive element ;;
         unique_elements <- unique_interactive rest seen ;;
         Ok (if keep : bool then element :: unique_elements else unique_elements))%py
  end.

(** [PageAnalyzer.find_interactive_elements] *)
Definition find_interactive_elements (find : page) (next_id : nat)
  : result (list WebElement) * nat :=
  let (elements, next_id') := collect_elements find selectors next_id in
  (unique_interactive elements [], next_id').

(** [keep] is true exactly on the elements the interactivity test accepts. *)
Definition interactive (element : WebElement) : bool :=
  match _is_element_interactive element with
  | Ok b => b
  | Raise _ => false
  end.

(** A page whose only node, the submit button, matches two selectors of the
    catalog: by its tag and by its class. *)
Definition one_button_page : page :=
  fun selector =>
    if String.eqb selector "button:not([disabled])" then Ok [submit_button]
    else if String.eqb selector "[class*='btn']:not([disabled])" then Ok [submit_button]
    else Ok [].

(** A page on which some queries fail and some matches are detached. *)
Definition flaky_page : page :=
  fun selector =>
    if String.eqb selector "button:not([disabled])" then Ok [stale_node 4; submit_button]
    else if String.eqb selector "select:not([disabled])"
         then Raise StaleElementReferenceException
    else Ok [].

(** ** Commands, logging and pauses *)

(** What a run asks of the driver, the logger and the clock, in order. *)
Inductive action : Type :=
| Sleep (seconds : Q)
| LogInfo (msg : string)
| LogDebug (msg : string)
| ElementClear (element : nat)
| SendKeys (element : nat) (keys : string)
| SendBackspace (element : nat)
| AlertAccept
| Back
| Quit.

(** Commands sent to the browser driver. *)
Definition is_driver_operation (a : action) : bool :=
  match a with
  | ElementClear _ | SendKeys _ _ | SendBackspace _ | AlertAccept | Back | Quit => true
  | Sleep _ | LogInfo _ | LogDebug _ => false
  end.

(** Commands that type into, or clear, a field. *)
Definition is_text_entry (a : action) : bool :=
  match a with
  | ElementClear _ | SendKeys _ _ | SendBackspace _ => true
  | _ => false
  end.

(** The post-click handler reporting, or undoing, a navigation. *)
Definition is_navigation_report (a : action) : bool :=
  match a with
  | Back => true
  | LogInfo msg => prefix "Navigated" msg
  | _ => false
  end.

(** Statements that draw random numbers, issue commands and may raise: a
    state of random source and trace, kept when an exception is raised. *)
Module Run.

Record state : Type := mkState { rand : rng; trace : list action }.

Definition M (A : Type) : Type := state -> result A * state.

Definition ret {A : Type} (a : A) : M A := fun s => (Ok a, s).

Definition bind {A B : Type} (m : M A) (k : A -> M B) : M B :=
  fun s =>
    match m s with
    | (Ok a, s') => k a s'
    | (Raise e, s') => (Raise e, s')
    end.

Definition raise {A : Type} (e : exn) : M A := fun s => (Raise e, s).

Definition lift {A : Type} (r : result A) : M A := fun s => (r, s).

Definition emit (a : action) : M unit :=
  fun s => (Ok tt, mkState (rand s) (trace s ++ [a])).

Definition draw {A : Type} (f : rng -> A * rng) : M A :=
  fun s => let (a, g') := f (rand s) in (Ok a, mkState g' (trace s)).

(** [try: m except Exception as e: handler e] *)
Definition try_catch {A : Type} (m : M A) (handler : exn -> M A) : M A :=
  fun s =>
    match m s with
    | (Ok a, s') => (Ok a, s')
    | (Raise e, s') => handler e s'
    end.

Definition start (g : rng) : state := mkState g [].

End Run.

Declare Scope run_scope.
Delimit Scope run_scope with run.
Notation "x <- c ;; k" := (Run.bind c (fun x => k))
  (at level 61, c at next level, right associativity) : run_scope.
Notation "c ;;; k" := (Run.bind c (fun _ => k))
  (at level 61, right associativity) : run_scope.

(** [x or default] for an optional string: [None] and the empty string are
    both falsy. *)
Definition py_or (x : option string) (default : string) : string :=
  match x with
  | Some EmptyString => default
  | Some s => s
  | None => default
  end.

(** [str(n)] *)
Definition str (n : Z) : string := NilZero.string_of_int (Z.to_int n).

(** [random.choice(seq)] *)
Definition choice {A : Type} (seq : list A) : Run.M A :=
  (j <- Run.draw (randbelow (Z.of_nat (List.length seq))) ;;
   Run.lift (getitem seq (Z.to_nat j)))%run.

(** [random.randint(a, b)] *)
Definition randint (a b : Z) : Run.M Z :=
  (j <- Run.draw (randbelow (b - a + 1)) ;; Run.ret (a + j)%Z)%run.

(** The characters of a string, each as a string. *)
Fixpoint chars (s : string) : list string :=
  match s with
  | EmptyString => []
  | String c s' => String c EmptyString :: chars s'
  end.

(** [''.join(random.choices(population, k=k))] *)
Fixpoint choices_joined (population : list string) (k : nat) : Run.M string :=
  match k with
  | O => Run.ret EmptyString
  | S k' =>
      (c <- choice population ;;
       rest <- choices_joined population k' ;;
       Run.ret (c ++ rest)%string)%run
  end.

(** ** The input handler *)

Section InputHandler.

Variable behavior : UserBehavior.

(** [AdvancedWebAutomation._generate_realistic_text] *)
Definition _generate_realistic_text (element : WebElement) : Run.M string :=
  (placeholder <- Run.lift (get_attribute (dom element) "placeholder") ;;
   let placeholder := py_or placeholder "" in
   name <- Run.lift (get_attribute (dom element) "name") ;;
   let name := py_or name "" in
   element_id <- Run.lift (get_attribute (dom element) "id") ;;
   let element_id := py_or element_id "" in
   let mentions (word : string) : bool :=
     Str.contains word (Str.lower placeholder) || Str.contains word (Str.lower name) in
   if mentions "name"%string
   then choice ["John Smith"; "Jane Doe"; "Alice Johnson"]%string
   else if mentions "email"%string
   then (n <- randint 100 999 ;; Run.ret ("user" ++ str n ++ "@example.com")%string)
   else if mentions "phone"%string
   then (a <- randint 100 999 ;;
         b <- randint 1000 9999 ;;
         Run.ret ("555-" ++ str a ++ "-" ++ str b)%string)
   else if mentions "search"%string
   then choice ["test query"; "sample search"; "demo"]%string
   else (n <- randint 1 100 ;; Run.ret ("Test input " ++ str n)%string))%run.

(** The [for char in text] loop of [_type_like_human]; [k] is the number of
    [send_keys] calls made on the element so far.  A call that raises ends
    the loop with its exception. *)
Fixpoint type_chars (element : WebElement) (text : string) (k : nat) : Run.M unit :=
  match text with
  | EmptyString => Run.ret tt
  | String char rest =>
      (Run.emit (SendKeys (py_id element) (String char EmptyString)) ;;;
       Run.lift (keys_sent (dom element) k) ;;;
       base_delay <-
         (if Qeq_bool (typing_speed behavior) 0
          then Run.raise ZeroDivisionError
          else Run.ret (1 / typing_speed behavior)) ;;
       u <- Run.draw (uniform 0.5 1.5) ;;
       let delay := base_delay * u in
       r <- Run.draw random ;;
       delay <-
         (if Qlt_bool r 0.1
          then (extra <- Run.draw (uniform 0.2 0.5) ;; Run.ret (delay + extra))
          else Run.ret delay) ;;
       Run.emit (Sleep delay) ;;;
       type_chars element rest (S k))%run
  end.

(** [AdvancedWebAutomation._type_like_human]: [clear()] and every
    [send_keys(...)] are calls to the driver, outside any [try]. *)
Definition _type_like_human (element : WebElement) (text : string) : Run.M unit :=
  (Run.emit (ElementClear (py_id element)) ;;;
   Run.lift (cleared (dom element)) ;;;
   type_chars element text 0 ;;;
   r <- Run.draw random ;;
   if Qlt_bool r 0.1 && (5 <? String.length text)%nat
   then
     (typo <- choice (chars "abcdefghijklmnopqrstuvwxyz") ;;
      Run.emit (SendKeys (py_id element) typo) ;;;
      Run.lift (keys_sent (dom element) (String.length text)) ;;;
      d <- Run.draw (uniform 0.3 0.7) ;;
      Run.emit (Sleep d) ;;;
      Run.emit (SendBackspace (py_id element)) ;;;
      Run.lift (keys_sent (dom element) (S (String.length text))) ;;;
      d <- Run.draw (uniform 0.1 0.3) ;;
      Run.emit (Sleep d))
   else Run.ret tt)%run.

(** [AdvancedWebAutomation._handle_input] *)
Definition _handle_input (element : WebElement) : Run.M unit :=
  (ty <- Run.lift (get_attribute (dom element) "type") ;;
   let input_type := py_or ty "text" in
   if String.eqb input_type "text"
   then (text <- _generate_realistic_text element ;; _type_like_human element text)
   else if String.eqb input_type "email"
   then (n <- randint 1000 9999 ;;
         _type_like_human element ("test" ++ str n ++ "@example.com")%string)
   else if String.eqb input_type "password"
   then (digits <- choices_joined (chars "123456789") 4 ;;
         _type_like_human element ("Test" ++ digits ++ "!")%string)
   else if String.eqb input_type "search"
   then (term <- choice ["python"; "machine learning"; "web development";
                         "data science"]%string ;;
         _type_like_human element term)
   else Run.ret tt)%run.

End InputHandler.

(** An [input] node with the given value of its [type] attribute. *)
Definition input_node (id : nat) (ty : option string) : DomNode :=
  visible_node id "input" ""
    (fun name => if String.eqb name "type" then ty else None)
    40 200 200 32.

(** ** Post-click handling *)

(** What the browser answers during one call of [_handle_post_click]:
    [alert_text] is [driver.switch_to.alert] followed by [alert.text] (it
    raises when no dialog is open), [current_url k] is the [k]-th evaluation
    of [driver.current_url] in the call. *)
Record Browser : Type := mkBrowser {
  alert_text : result string;
  alert_accept : result unit;
  current_url : nat -> result string
}.

(** [AdvancedWebAutomation._handle_post_click] *)
Definition _handle_post_click (browser : Browser) : Run.M unit :=
  Run.try_catch
    (d <- Run.draw (uniform 0.5 1.5) ;;
     Run.emit (Sleep d) ;;;
     Run.try_catch
       (alert <- Run.lift (alert_text browser) ;;
        Run.emit (LogInfo ("Alert detected: " ++ alert)) ;;;
        d <- Run.draw (uniform 1 2) ;;
        Run.emit (Sleep d) ;;;
        Run.emit AlertAccept ;;;
        Run.lift (alert_accept browser))
       (fun _ => Run.ret tt) ;;;
     url <- Run.lift (current_url browser 0) ;;
     url_again <- Run.lift (current_url browser 1) ;;
     if negb (String.eqb url url_again)
     then
       (Run.emit (LogInfo ("Navigated to: " ++ url)) ;;;
        r <- Run.draw random ;;
        if Qlt_bool r 0.3
        then
          (d <- Run.draw (uniform 2 5) ;;
           Run.emit (Sleep d) ;;;
           Run.emit Back ;;;
           Run.emit (LogInfo "Navigated back"))
        else Run.ret tt)
     else Run.ret tt)%run
    (fun _ => Run.emit (LogDebug "Post-click handling error")).

(** A browser with no dialog open whose address is the same at every read,
    and one whose address changes between the two reads. *)
Definition steady_browser : Browser :=
  mkBrowser (Raise NoAlertPresentException) (Ok tt)
            (fun _ => Ok "https://example.test/form"%string).

Definition moving_browser : Browser :=
  mkBrowser (Raise NoAlertPresentException) (Ok tt)
            (fun k => match k with
                      | O => Ok "https://example.test/form"%string
                      | S _ => Ok "https://example.test/done"%string
                      end).

(** ** Session cleanup *)

(** The fields of the session [cleanup] reads.  [driver] is [self.driver]:
    [None] before the browser is set up, the driver object afterwards. *)
Record Session : Type := mkSession {
  driver : option nat;
  enable_monitoring : bool;
  session_id : string;
  session_behavior : UserBehavior;
  performance_metrics : list (string * Q)
}.

(** [AdvancedWebAutomation.cleanup].  [quit] is what [self.driver.quit()]
    does on this call: return, or raise.  No field of the session is
    assigned.  The logged session data is abridged to the session id. *)
Definition cleanup (quit : result unit) (s : Session)
  : result unit * Session * list action :=
  match driver s with
  | Some _ =>
      let exported :=
        if enable_monitoring s
        then [LogInfo ("Session data: " ++ session_id s)]
        else [] in
      match quit with
      | Ok _ =>
          (Ok tt, s,
           exported ++ [Quit; LogInfo ("Session " ++ session_id s ++ " ended")])
      | Raise e => (Raise e, s, exported ++ [Quit])
      end
  | None => (Ok tt, s, [])
  end.

Definition running_session : Session :=
  mkSession (Some 1%nat) true "3f2a9c0d1b7e4a55" casual_persona [].

(** ** The scenario of the specification *)

(** A large above-fold button labelled Submit and a tiny hidden link. *)
Definition plain_submit_button : DomNode :=
  visible_node 1 "button" "Submit" (fun _ => None) 40 120 160 48.

Definition hidden_link : DomNode :=
  mkDomNode 2 (Ok false) (Ok true) (Ok (1, 1)) (Ok (0, 0)) (Ok "a"%string)
            (Ok EmptyString) (fun _ => Ok None) (Ok true) (Ok tt) (fun _ => Ok tt).

Definition scenario_page : page :=
  fun selector =>
    if String.eqb selector "button:not([disabled])" then Ok [plain_submit_button]
    else if String.eqb selector "a[href]:not([disabled])" then Ok [hidden_link]
    else Ok [].

(** A caller-supplied Casual persona at the lower end of the documented
    curiosity range (0 to 1). *)
Definition incurious_persona : UserBehavior := mkUserBehavior CASUAL 225 3 0.7 20 0.

(** ** Further vocabulary for the properties *)

(** What a text field holds after the commands sent to it. *)
Fixpoint remove_last (s : string) : string :=
  match s with
  | EmptyString => EmptyString
  | String c EmptyString => EmptyString
  | String c s' => String c (remove_last s')
  end.

Definition apply_key (content : string) (a : action) : string :=
  match a with
  | ElementClear _ => EmptyString
  | SendKeys _ keys => (content ++ keys)%string
  | SendBackspace _ => remove_last content
  | _ => content
  end.

Definition field_after (content : string) (acts : list action) : string :=
  fold_left apply_key acts content.

(** Bookkeeping over a trace: characters sent, backspaces sent, time slept. *)
Definition keystrokes (acts : list action) : nat :=
  List.length (filter (fun a => match a with SendKeys _ _ => true | _ => false end) acts).

Definition backspaces (acts : list action) : nat :=
  List.length (filter (fun a => match a with SendBackspace _ => true | _ => false end) acts).

Fixpoint total_sleep (acts : list action) : Q :=
  match acts with
  | [] => 0
  | Sleep d :: rest => d + total_sleep rest
  | _ :: rest => total_sleep rest
  end.

(** What the handler may type for a declared kind. *)
Definition typed_for_kind (kind content : string) : Prop :=
  (kind = "email"%string /\
   exists n : Z, (1000 <= n <= 9999)%Z /\
                 content = ("test" ++ str n ++ "@example.com")%string) \/
  (kind = "password"%string /\
   exists digits : list string,
     List.length digits = 4%nat /\
     Forall (fun d => In d (chars "123456789")) digits /\
     content = ("Test" ++ fold_right String.append EmptyString digits ++ "!")%string) \/
  (kind = "search"%string /\
   In content ["python"; "machine learning"; "web development"; "data science"]%string).

(** [word] occurs, up to case, in the placeholder or in the name. *)
Definition attribute_mentions (word : string) (placeholder name : option string) : bool :=
  Str.contains word (Str.lower (py_or placeholder ""))
  || Str.contains word (Str.lower (py_or name "")).

(** The shapes of generated text, by what placeholder and name mention, in
    the order the code tests them. *)
Definition generated_text_shape (placeholder name : option string) (text : string) : Prop :=
  if attribute_mentions "name" placeholder name
  then In text ["John Smith"; "Jane Doe"; "Alice Johnson"]%string
  else if attribute_mentions "email" placeholder name
  then exists k : Z, (100 <= k <= 999)%Z /\ text = ("user" ++ str k ++ "@example.com")%string
  else if attribute_mentions "phone" placeholder name
  then exists a b : Z, (100 <= a <= 999)%Z /\ (1000 <= b <= 9999)%Z /\
                       text = ("555-" ++ str a ++ "-" ++ str b)%string
  else if attribute_mentions "search" placeholder name
  then In text ["test query"; "sample search"; "demo"]%string
  else exists k : Z, (1 <= k <= 100)%Z /\ text = ("Test input " ++ str k)%string.

(** ** Browser profiles *)

Record BrowserProfile : Type := mkBrowserProfile {
  user_agent : string;
  viewport : Z * Z;
  timezone : string;
  language : string;
  platform : string;
  vendor : string;
  plugins : list string;
  webgl_vendor : string;
  webgl_renderer : string;
  hardware_concurrency : Z;
  device_memory : Z
}.

(** One entry of the [profiles] list of [generate_random_profile]. *)
Record profile_data : Type := mkProfileData {
  pd_user_agent : string;
  pd_viewport : Z * Z;
  pd_platform : string;
  pd_vendor : string;
  pd_webgl_vendor : string;
  pd_webgl_renderer : string
}.

Definition profiles : list profile_data :=
  [mkProfileData
     "Mozilla/5.0 (Windows NT 10.0; Win64; x64) AppleWebKit/537.36 (KHTML, like Gecko) Chrome/120.0.0.0 Safari/537.36"
     (1920, 1080)%Z "Win32" "Google Inc." "Intel Inc." "Intel(R) UHD Graphics 630";
   mkProfileData
     "Mozilla/5.0 (Macintosh; Intel Mac OS X 10_15_7) AppleWebKit/537.36 (KHTML, like Gecko) Chrome/120.0.0.0 Safari/537.36"
     (1440, 900)%Z "MacIntel" "Google Inc." "Intel Inc." "Intel Iris Pro OpenGL Engine";
   mkProfileData
     "Mozilla/5.0 (X11; Linux x86_64) AppleWebKit/537.36 (KHTML, like Gecko) Chrome/120.0.0.0 Safari/537.36"
     (1920, 1080)%Z "Linux x86_64" "Google Inc." "Mesa/X.org"
     "llvmpipe (LLVM 12.0.0, 256 bits)"]%string.

(** [BrowserProfile.generate_random_profile]: the five [random.choice]
    calls, in the order the keyword arguments are evaluated. *)
Definition generate_random_profile : Run.M BrowserProfile :=
  (data <- choice profiles ;;
   tz <- choice ["America/New_York"; "America/Chicago"; "America/Los_Angeles";
                 "Europe/London"]%string ;;
   lang <- choice ["en-US"; "en-GB"; "en"]%string ;;
   cores <- choice [4; 8; 16]%Z ;;
   memory <- choice [4; 8; 16; 32]%Z ;;
   Run.ret (mkBrowserProfile
              (pd_user_agent data) (pd_viewport data) tz lang
              (pd_platform data) (pd_vendor data)
              ["Chrome PDF Plugin"; "Chrome PDF Viewer"; "Native Client"]%string
              (pd_webgl_vendor data) (pd_webgl_renderer data) cores memory))%run.

(** ** Driving the browser: scrolling, pointer, window *)

(** Commands to the driver besides those of the input and post-click
    handlers, which are carried over with [Act]. *)
Inductive event : Type :=
| Act (a : action)
| ScrollBy (dy : Z)
| SetWindowSize (w h : Z)
| ScrollIntoView (element : nat)
| MoveByOffset (dx dy : Q)
| Click (element : nat)
| LogWarning (msg : string)
| LogError (msg : string)
| StartChrome (user_agent : string)
| Navigate (url : string)
| MaximizeWindow
| FindElementByLinkText (link_text : string)
| QueueMoveToElement (element : nat) (dx dy : Z)
| PerformActions
| Print (msg : string)
| PrintError (msg : string) (e : exn).

Module Sim.

Record state : Type := mkState { rand : rng; trace : list event }.

Definition M (A : Type) : Type := state -> result A * state.

Definition ret {A : Type} (a : A) : M A := fun s => (Ok a, s).

Definition bind {A B : Type} (m : M A) (k : A -> M B) : M B :=
  fun s =>
    match m s with
    | (Ok a, s') => k a s'
    | (Raise e, s') => (Raise e, s')
    end.

Definition raise {A : Type} (e : exn) : M A := fun s => (Raise e, s).

Definition lift {A : Type} (r : result A) : M A := fun s => (r, s).

Definition emit (e : event) : M unit :=
  fun s => (Ok tt, mkState (rand s) (trace s ++ [e])).

Definition draw {A : Type} (f : rng -> A * rng) : M A :=
  fun s => let (a, g') := f (rand s) in (Ok a, mkState g' (trace s)).

Definition try_catch {A : Type} (m : M A) (handler : exn -> M A) : M A :=
  fun s =>
    match m s with
    | (Ok a, s') => (Ok a, s')
    | (Raise e, s') => handler e s'
    end.

(** A handler of the earlier kind run inside: its commands are appended to
    the trace, its draws taken from the same source. *)
Definition of_run {A : Type} (m : Run.M A) : M A :=
  fun s =>
    let (r, s') := m (Run.mkState (rand s) []) in
    (r, mkState (Run.rand s') (trace s ++ map Act (Run.trace s'))).

Definition sleep (seconds : Q) : M unit := emit (Act (Sleep seconds)).

(** A function of the random source that may raise. *)
Definition draw_result {A : Type} (f : rng -> result A * rng) : M A :=
  fun s => let (r, g') := f (rand s) in (r, mkState g' (trace s)).

Definition start (g : rng) : state := mkState g [].

End Sim.

Declare Scope sim_scope.
Delimit Scope sim_scope with sim.
Notation "x <- c ;; k" := (Sim.bind c (fun x => k))
  (at level 61, c at next level, right associativity) : sim_scope.
Notation "c ;;; k" := (Sim.bind c (fun _ => k))
  (at level 61, right associativity) : sim_scope.

(** [AntiDetection.randomize_viewport]; [resized] is the outcome of
    [driver.set_window_size]. *)
Definition randomize_viewport (resized : result unit) : Sim.M unit :=
  (size <- Sim.of_run (choice [(1920, 1080); (1440, 900); (1536, 864);
                               (1366, 768); (1280, 720); (1600, 900)]%Z) ;;
   let (width, height) := size : Z * Z in
   dw <- Sim.of_run (randint (-10) 10) ;;
   let width := (width + dw)%Z in
   dh <- Sim.of_run (randint (-10) 10) ;;
   let height := (height + dh)%Z in
   Sim.emit (SetWindowSize width height) ;;;
   Sim.lift resized ;;;
   Sim.emit (Act (LogInfo "Viewport randomized")))%sim.

(** The [while current_position < page_height] loop of [_rapid_scroll].
    [fuel] bounds the number of iterations; the result tells whether the
    loop ran to its end ([true]) or the bound was reached ([false]).
    [scrolled k] is the outcome of scroll script number [k]. *)
Fixpoint rapid_scroll_loop (scrolled : nat -> result unit) (k fuel : nat)
  (page_height current_position : Z) : Sim.M bool :=
  if (current_position <? page_height)%Z
  then
    match fuel with
    | O => Sim.ret false
    | S fuel' =>
        (scroll_amount <- Sim.of_run (randint 300 600) ;;
         Sim.emit (ScrollBy scroll_amount) ;;;
         Sim.lift (scrolled k) ;;;
         let current_position := (current_position + scroll_amount)%Z in
         d <- Sim.draw (uniform 0.1 0.3) ;;
         Sim.sleep d ;;;
         rapid_scroll_loop scrolled (S k) fuel' page_height current_position)%sim
    end
  else Sim.ret true.

(** [AdvancedWebAutomation._rapid_scroll]; [scroll_height] is the answer to
    the [document.body.scrollHeight] script. *)
Definition _rapid_scroll (scrolled : nat -> result unit) (fuel : nat)
  (scroll_height : result Z) : Sim.M bool :=
  (page_height <- Sim.lift scroll_height ;;
   rapid_scroll_loop scrolled 0 fuel page_height 0)%sim.

(** The body of the [for _ in range(scrolls)] loop of [_normal_scroll],
    from iteration [i] to [scrolls - 1]; [scrolled i] is the outcome of the
    scroll script of iteration [i]. *)
Fixpoint normal_scroll_loop (scrolled : nat -> result unit) (remaining : nat) (i : Z)
  : Sim.M unit :=
  match remaining with
  | O => Sim.ret tt
  | S remaining' =>
      (amount <- Sim.of_run (randint 100 400) ;;
       direction <-
         (if (2 <? i)%Z then Sim.of_run (choice ["down"; "up"]%string)
          else Sim.ret "down"%string) ;;
       (if String.eqb direction "down"
        then Sim.emit (ScrollBy amount)
        else Sim.emit (ScrollBy (- amount))) ;;;
       Sim.lift (scrolled (Z.to_nat i)) ;;;
       d <- Sim.draw (uniform 0.5 2) ;;
       Sim.sleep d ;;;
       normal_scroll_loop scrolled remaining' (i + 1))%sim
  end.

(** [AdvancedWebAutomation._normal_scroll] *)
Definition _normal_scroll (scrolled : nat -> result unit) : Sim.M unit :=
  (scrolls <- Sim.of_run (randint 3 7) ;;
   normal_scroll_loop scrolled (Z.to_nat scrolls) 0)%sim.

(** [AdvancedWebAutomation._intelligent_wait].  [ready] is the outcome of
    the ten-second wait for [document.readyState == "complete"] (a timeout
    raises); [framework_checks] are the answers to the three framework
    probes, each in a [try] whose [except] passes. *)
Definition _intelligent_wait (behavior : UserBehavior) (ready : result unit)
  (framework_checks : list (result bool)) : Sim.M unit :=
  (Sim.lift ready ;;;
   fold_right
     (fun check rest =>
        Sim.try_catch (Sim.bind (Sim.lift check) (fun _ => Sim.ret tt))
                      (fun _ => Sim.ret tt) ;;; rest)
     (Sim.ret tt) framework_checks ;;;
   match pattern behavior with
   | RESEARCHER => (d <- Sim.draw (uniform 2 4) ;; Sim.sleep d)
   | SCANNER => (d <- Sim.draw (uniform 0.5 1) ;; Sim.sleep d)
   | _ => (d <- Sim.draw (uniform 1 2) ;; Sim.sleep d)
   end)%sim.

(** Scroll commands of a trace, and the pauses in it. *)
Fixpoint scrolls_of (tr : list event) : list Z :=
  match tr with
  | [] => []
  | ScrollBy dy :: rest => dy :: scrolls_of rest
  | _ :: rest => scrolls_of rest
  end.

Fixpoint pauses_of (tr : list event) : list Q :=
  match tr with
  | [] => []
  | Act (Sleep d) :: rest => d :: pauses_of rest
  | _ :: rest => pauses_of rest
  end.

Definition Zsum (l : list Z) : Z := fold_right Z.add 0%Z l.

(** The extra pause after a page load, by pattern (lower, upper bound in
    seconds). *)
Definition wait_interval (p : BehaviorPattern) : Q * Q :=
  match p with
  | RESEARCHER => (2, 4)
  | SCANNER => (0.5, 1)
  | _ => (1, 2)
  end.

(** ** Interacting with one element *)

(** What the driver answers during one call of [_interact_with_element]:
    the scroll script, the element's position once scrolled into view, the
    two scripts reading [window.mouseX] and [window.mouseY], the [k]-th
    [move_by_offset(...).perform()], and [element.click()]. *)
Record Pointer : Type := mkPointer {
  scroll_into_view : result unit;
  location_once_scrolled_into_view : result (Q * Q);
  mouse_x : result Q;
  mouse_y : result Q;
  perform_move : nat -> result unit;
  click : result unit
}.

(** [element.text[:30] if element.text else fallback] *)
Definition label (element : WebElement) (fallback : string) : result string :=
  (txt <- text (dom element) ;;
   Ok (match txt with
       | EmptyString => fallback
       | _ => substring 0 30 txt
       end))%py.

(** The loop [for x, y in mouse_path]; [k] counts the moves performed so
    far, [current] is the position the code believes the pointer is at. *)
Fixpoint move_along (pointer : Pointer) (k : nat) (mouse_path : list point)
  (current : point) : Sim.M point :=
  match mouse_path with
  | [] => Sim.ret current
  | (x, y) :: rest =>
      (Sim.emit (MoveByOffset (x - fst current) (y - snd current)) ;;;
       Sim.lift (perform_move pointer k) ;;;
       d <- Sim.draw (uniform 0.001 0.01) ;;
       Sim.sleep d ;;;
       move_along pointer (S k) rest (x, y))%sim
  end.

(** The target point: the centre for a precise persona, a random point of
    the element otherwise. *)
Definition target_point (behavior : UserBehavior) (location size : Q * Q)
  : Sim.M point :=
  (if Qlt_bool 0.8 (mouse_precision behavior)
   then Sim.ret (fst location + fst size / 2, snd location + snd size / 2)
   else
     (dx <- Sim.draw (uniform (fst size * 0.2) (fst size * 0.8)) ;;
      dy <- Sim.draw (uniform (snd size * 0.2) (snd size * 0.8)) ;;
      Sim.ret (fst location + dx, snd location + dy)))%sim.

(** From the scroll into view to the hover pause. *)
Definition approach (behavior : UserBehavior) (pointer : Pointer)
  (element : WebElement) : Sim.M unit :=
  (Sim.emit (ScrollIntoView (py_id element)) ;;;
   Sim.lift (scroll_into_view pointer) ;;;
   d <- Sim.draw (uniform 0.5 1) ;;
   Sim.sleep d ;;;
   location <- Sim.lift (location_once_scrolled_into_view pointer) ;;
   size <- Sim.lift (size (dom element)) ;;
   target <- target_point behavior location size ;;
   current_x <- Sim.lift (mouse_x pointer) ;;
   current_y <- Sim.lift (mouse_y pointer) ;;
   num_points <- Sim.of_run (randint 20 50) ;;
   mouse_path <- Sim.draw_result
                   (bezier_curve (current_x, current_y) target None num_points) ;;
   move_along pointer 0 mouse_path (current_x, current_y) ;;;
   r <- Sim.draw random ;;
   if Qlt_bool r 0.3
   then (d <- Sim.draw (uniform 0.2 0.8) ;; Sim.sleep d)
   else Sim.ret tt)%sim.

(** The click decision and what follows it. *)
Definition click_or_hover (behavior : UserBehavior) (pointer : Pointer)
  (browser : Browser) (element : WebElement) (score : Q) : Sim.M unit :=
  (let click_probability := score * curiosity_level behavior in
   r <- Sim.draw random ;;
   if Qlt_bool r click_probability
   then
     (tag <- Sim.lift (tag_name (dom element)) ;;
      let tag_name := Str.lower tag in
      (if String.eqb tag_name "input"
       then
         (Sim.emit (Click (py_id element)) ;;;
          Sim.lift (click pointer) ;;;
          Sim.of_run (_handle_input behavior element))
       else
         (Sim.emit (Click (py_id element)) ;;;
          Sim.lift (click pointer) ;;;
          lbl <- Sim.lift (label element tag_name) ;;
          Sim.emit (Act (LogInfo ("Clicked element: " ++ lbl))))) ;;;
      Sim.of_run (_handle_post_click browser))
   else
     (lbl <- Sim.lift (label element "element") ;;
      Sim.emit (Act (LogDebug ("Hovered but didn't click: " ++ lbl)))))%sim.

(** [AdvancedWebAutomation._interact_with_element] *)
Definition _interact_with_element (behavior : UserBehavior) (pointer : Pointer)
  (browser : Browser) (element : WebElement) (score : Q) : Sim.M unit :=
  Sim.try_catch
    (approach behavior pointer element ;;;
     click_or_hover behavior pointer browser element score)%sim
    (fun _ => Sim.emit (LogError "Failed to interact with element")).


Definition is_click_or_entry (e : event) : bool :=
  match e with
  | Click _ => true
  | Act a => is_text_entry a
  | _ => false
  end.


(** A driver that answers every query of an interaction. *)
Definition steady_pointer : Pointer :=
  mkPointer (Ok tt) (Ok (40, 120)) (Ok 0) (Ok 0) (fun _ => Ok tt) (Ok tt).

(** A statement that adds neither a click nor text entry to the trace, and
    leaves the tape of the random source as it is, whether it returns or
    raises. *)
Definition no_click (tr : list event) : Prop :=
  forallb (fun e => negb (is_click_or_entry e)) tr = true.

Definition quiet {A : Type} (m : Sim.M A) : Prop :=
  forall s : Sim.state,
    exists new : list event,
      Sim.trace (snd (m s)) = Sim.trace s ++ new /\
      tape (Sim.rand (snd (m s))) = tape (Sim.rand s) /\
      no_click new.

(** ** A batch of interactions *)

(** The loop [for element, score in selected] of [interact_intelligently]:
    an interaction that raises is logged and the loop goes on.
    [pointer_of] and [browser_of] give the driver's answers during the
    interaction with each element. *)
Fixpoint interact_all (behavior : UserBehavior)
  (pointer_of : WebElement -> Pointer) (browser_of : WebElement -> Browser)
  (selected : list (WebElement * Q)) : Sim.M unit :=
  match selected with
  | [] => Sim.ret tt
  | (element, score) :: rest =>
      (Sim.try_catch
         (_interact_with_element behavior (pointer_of element) (browser_of element)
                                 element score)
         (fun _ => Sim.emit (LogError "Interaction failed")) ;;;
       interact_all behavior pointer_of browser_of rest)%sim
  end.

(** The body of the [with] block of [interact_intelligently]. *)
Definition interact_body (behavior : UserBehavior) (find : page) (next_id : nat)
  (pointer_of : WebElement -> Pointer) (browser_of : WebElement -> Browser)
  (max_interactions : Z) : Sim.M unit :=
  (elements <- Sim.lift (fst (find_interactive_elements find next_id)) ;;
   match elements with
   | [] => Sim.emit (LogWarning "No interactive elements found")
   | _ =>
       Sim.emit (Act (LogInfo ("Found " ++ str (Z.of_nat (List.length elements))
                               ++ " interactive elements"))) ;;;
       scored_elements <- Sim.draw (_score_elements behavior elements) ;;
       selected <- Sim.draw_result
                     (_select_elements_by_behavior behavior scored_elements
                                                   max_interactions) ;;
       interact_all behavior pointer_of browser_of selected
   end)%sim.

(** One entry of [performance_metrics]. *)
Record Metric : Type := mkMetric { duration : Q; memory_delta : Z }.

(** [performance_metrics]: a dict from action names to metrics, in insertion
    order. *)
Definition metrics : Type := list (string * Metric).

Fixpoint dict_get (d : metrics) (key : string) : option Metric :=
  match d with
  | [] => None
  | (k, v) :: rest => if String.eqb k key then Some v else dict_get rest key
  end.

(** [d[key] = value] *)
Fixpoint dict_set (d : metrics) (key : string) (value : Metric) : metrics :=
  match d with
  | [] => [(key, value)]
  | (k, v) :: rest =>
      if String.eqb k key then (k, value) :: rest else (k, v) :: dict_set rest key value
  end.

(** The readings [performance_monitor] takes: [time.time()] before and after
    the block, and the answers of the heap-size script. *)
Record Readings : Type := mkReadings {
  start_time : Q;
  end_time : Q;
  start_memory : result Z;
  end_memory : result Z
}.

(** [AdvancedWebAutomation.performance_monitor] around a block [body]: the
    code after [yield] runs when the block ends normally, an exception of the
    block passes through.  The metrics after the block are returned with the
    block's value. *)
Definition performance_monitor {A : Type} (monitoring : bool) (readings : Readings)
  (action_name : string) (body : Sim.M A) (recorded : metrics)
  : Sim.M (A * metrics) :=
  (start <- (if monitoring then Sim.lift (start_memory readings) else Sim.ret 0%Z) ;;
   a <- body ;;
   if monitoring
   then
     (stop <- Sim.lift (end_memory readings) ;;
      let recorded :=
        dict_set recorded action_name
                 (mkMetric (end_time readings - start_time readings) (stop - start)) in
      Sim.emit (Act (LogDebug ("Performance - " ++ action_name))) ;;;
      Sim.ret (a, recorded))
   else Sim.ret (a, recorded))%sim.

(** [AdvancedWebAutomation.interact_intelligently] *)
Definition interact_intelligently (monitoring : bool) (readings : Readings)
  (behavior : UserBehavior) (find : page) (next_id : nat)
  (pointer_of : WebElement -> Pointer) (browser_of : WebElement -> Browser)
  (max_interactions : Z) (recorded : metrics) : Sim.M (unit * metrics) :=
  performance_monitor monitoring readings "intelligent_interaction"
    (interact_body behavior find next_id pointer_of browser_of max_interactions)
    recorded.

(** Elements scrolled into view, in order. *)
Fixpoint views_of (tr : list event) : list nat :=
  match tr with
  | [] => []
  | ScrollIntoView id :: rest => id :: views_of rest
  | _ :: rest => views_of rest
  end.

(** Running [m] scrolls exactly the elements [ids] into view, in this
    order, whether it returns or raises. *)
Definition adds_views {A : Type} (m : Sim.M A) (ids : list nat) : Prop :=
  forall s : Sim.state,
    views_of (Sim.trace (snd (m s))) = views_of (Sim.trace s) ++ ids.

Definition total {A : Type} (m : Sim.M A) : Prop :=
  forall s : Sim.state, exists a, fst (m s) = Ok a.

(** A page without anything to interact with. *)
Definition empty_page : page := fun _ => Ok [].

(** Index [j] is in range for [p] and carries a positive weight. *)
Definition positive_index (p : list Q) (j : nat) : Prop :=
  (j < List.length p)%nat /\ 0 < nth j p 0.

(** ** The python.org visitor ([main.py]) *)

(** [x[i], x[j] = x[j], x[i]] *)
Definition swap {A : Type} (x : list A) (i j : nat) : list A :=
  match nth_error x i, nth_error x j with
  | Some a, Some b => set_nth j a (set_nth i b x)
  | _, _ => x
  end.

(** The loop of [random.shuffle(x)]: [for i in reversed(range(1, len(x)))]
    swaps [x[i]] with [x[randbelow(i + 1)]].  Both positions are in range
    for draws in [0, 1). *)
Fixpoint shuffle_loop {A : Type} (i : nat) (x : list A) (g : rng) : list A * rng :=
  match i with
  | O => (x, g)
  | S i' =>
      let (j, g') := randbelow (Z.of_nat (S i' + 1)) g in
      shuffle_loop i' (swap x (S i') (Z.to_nat j)) g'
  end.

Definition shuffle {A : Type} (x : list A) (g : rng) : list A * rng :=
  shuffle_loop (List.length x - 1) x g.

Definition user_agents : list string :=
  ["Mozilla/5.0 (Windows NT 10.0; Win64; x64) AppleWebKit/537.36 Chrome/122.0.0.0 Safari/537.36";
   "Mozilla/5.0 (Macintosh; Intel Mac OS X 10_15_7) AppleWebKit/605.1.15 Version/15.1 Safari/605.1.15";
   "Mozilla/5.0 (X11; Linux x86_64) AppleWebKit/537.36 Chrome/120.0.0.0 Safari/537.36"]%string.

Definition pages_to_visit : list string :=
  ["Downloads"; "Documentation"; "Community"; "Success Stories"; "News"]%string.

(** What the driver answers during one visit: to [find_element], to
    [perform()], to [link.click()] and to [driver.back()]. *)
Record Visit : Type := mkVisit {
  link_found : result nat;
  move_performed : result unit;
  link_clicked : result unit;
  went_back : result unit
}.

(** [visit_link_by_text]: the whole body is inside [try], and
    [except Exception] prints the failure. *)
Definition visit_link_by_text (answers : Visit) (link_text : string) : Sim.M unit :=
  Sim.try_catch
    (Sim.emit (FindElementByLinkText link_text) ;;;
     link <- Sim.lift (link_found answers) ;;
     offset_x <- Sim.of_run (randint (-10) 10) ;;
     offset_y <- Sim.of_run (randint (-10) 10) ;;
     Sim.emit (QueueMoveToElement link offset_x offset_y) ;;;
     Sim.emit PerformActions ;;;
     Sim.lift (move_performed answers) ;;;
     d <- Sim.draw (uniform 1 2) ;;
     Sim.sleep d ;;;
     Sim.emit (Click link) ;;;
     Sim.lift (link_clicked answers) ;;;
     Sim.emit (Print ("Visited " ++ link_text)) ;;;
     d <- Sim.draw (uniform 2 5) ;;
     Sim.sleep d ;;;
     Sim.emit (Act Back) ;;;
     Sim.lift (went_back answers) ;;;
     d <- Sim.draw (uniform 2 4) ;;
     Sim.sleep d)%sim
    (fun e => Sim.emit (PrintError ("Could not visit " ++ link_text ++ ": ") e)).

(** The loop [for page in pages_to_visit[:n]]; [site k page] are the
    driver's answers during visit number [k], which is to [page]. *)
Fixpoint visit_all (site : nat -> string -> Visit) (k : nat) (pages : list string)
  : Sim.M unit :=
  match pages with
  | [] => Sim.ret tt
  | page :: rest =>
      (visit_link_by_text (site k page) page ;;; visit_all site (S k) rest)%sim
  end.

(** The loop [for _ in range(n)] of the scroll simulation; [scrolled k] is
    the outcome of scroll script number [k]. *)
Fixpoint scroll_chunks (scrolled : nat -> result unit) (k remaining : nat)
  : Sim.M unit :=
  match remaining with
  | O => Sim.ret tt
  | S remaining' =>
      (scroll_amount <- Sim.of_run (randint 300 800) ;;
       Sim.emit (ScrollBy scroll_amount) ;;;
       Sim.lift (scrolled k) ;;;
       d <- Sim.draw (uniform 1 2) ;;
       Sim.sleep d ;;;
       scroll_chunks scrolled (S k) remaining')%sim
  end.

(** What the driver answers outside the visits: starting Chrome, loading
    the home page, maximizing the window, quitting. *)
Record Startup : Type := mkStartup {
  chrome_started : result unit;
  page_loaded : result unit;
  window_maximized : result unit;
  driver_quit : result unit
}.

(** The script [main.py], from the choice of the user agent to
    [driver.quit()]. *)
Definition main (startup : Startup) (site : nat -> string -> Visit)
  (scrolled : nat -> result unit) : Sim.M unit :=
  (user_agent <- Sim.of_run (choice user_agents) ;;
   Sim.emit (StartChrome user_agent) ;;;
   Sim.lift (chrome_started startup) ;;;
   Sim.emit (Navigate "https://www.python.org") ;;;
   Sim.lift (page_loaded startup) ;;;
   Sim.emit MaximizeWindow ;;;
   Sim.lift (window_maximized startup) ;;;
   d <- Sim.draw (uniform 2 4) ;;
   Sim.sleep d ;;;
   pages <- Sim.draw (shuffle pages_to_visit) ;;
   n <- Sim.of_run (randint 2 5) ;;
   visit_all site 0 (slice_to pages n) ;;;
   scrolls <- Sim.of_run (randint 2 4) ;;
   scroll_chunks scrolled 0 (Z.to_nat scrolls) ;;;
   Sim.emit (Act Quit) ;;;
   Sim.lift (driver_quit startup))%sim.

(** Link texts looked up in a trace, in order; whether a trace quits the
    driver. *)
Fixpoint sought (tr : list event) : list string :=
  match tr with
  | [] => []
  | FindElementByLinkText link_text :: rest => link_text :: sought rest
  | _ :: rest => sought rest
  end.

Definition is_quit (e : event) : bool :=
  match e with
  | Act Quit => true
  | _ => false
  end.

(** The link was found, the pointer moved and the click went through. *)
Definition clicked (answers : Visit) : Prop :=
  (exists link, link_found answers = Ok link) /\
  move_performed answers = Ok tt /\
  link_clicked answers = Ok tt.

(** A driver that answers every call of the script, and a site on which
    every link is found and can be clicked. *)
Definition responsive_startup : Startup := mkStartup (Ok tt) (Ok tt) (Ok tt) (Ok tt).

Definition responsive_site : nat -> string -> Visit :=
  fun _ _ => mkVisit (Ok 1%nat) (Ok tt) (Ok tt) (Ok tt).

(** * Properties *)

(** ** Facts about the random source *)

Lemma uniform_range (a b : Q) (g : rng) :
  a <= b -> valid g -> a <= fst (uniform a b g) /\ fst (uniform a b g) <= b.
Proof.
  intros Hab Hg. unfold uniform, random. cbn [fst].
  destruct (Hg (pos g)) as [H0 H1].
  split; nra.
Qed.

(** A draw of [uniform], written with the tape entry it consumes. *)
Lemma tape_draw_range (a b : Q) (g : rng) (k : nat) :
  a <= b -> valid g ->
  a <= a + (b - a) * tape g k /\ a + (b - a) * tape g k <= b.
Proof.
  intros Hab Hg. destruct (Hg k) as [H0 H1]. split; nra.
Qed.

(** C3. For every behaviour pattern and every outcome of the random source,
    the persona built by [generate_persona] carries the requested pattern and
    each of its five numeric fields lies in the closed interval documented
    for that pattern. *)
Theorem generate_persona_within_intervals
  (p : BehaviorPattern) (g : rng) (f : persona_field) :
  valid g ->
  pattern (fst (generate_persona p g)) = p /\
  within (documented_interval p f) (field_value f (fst (generate_persona p g))).
Proof.
  intros Hg. split; [reflexivity|].
  unfold within.
  destruct p, f; cbn;
    apply tape_draw_range; try assumption; unfold Qle; cbn; lia.
Qed.

Lemma generate_persona_within_intervals_witness :
  valid (constant 0.5) /\
  within (documented_interval FOCUSED MousePrecision)
         (field_value MousePrecision (fst (generate_persona FOCUSED (constant 0.5)))).
Proof.
  assert (Hv : valid (constant 0.5)).
  { intros i. cbn. split; unfold Qle, Qlt; cbn; lia. }
  split; [exact Hv|].
  exact (proj2 (generate_persona_within_intervals FOCUSED (constant 0.5) MousePrecision Hv)).
Defined.

(** ** Pointer-path synthesis *)

Lemma bezier_coord_unfold (s c0 c1 e t : Q) :
  bezier_coord s c0 c1 e t ==
  ((1 - t) * (1 - t) * (1 - t)) * s + (3 * ((1 - t) * (1 - t)) * t) * c0 +
  (3 * (1 - t) * (t * t)) * c1 + (t * t * t) * e.
Proof. unfold bezier_coord. ring. Qed.

Lemma bezier_coord_0 (s c0 c1 e t : Q) :
  t == 0 -> bezier_coord s c0 c1 e t == s.
Proof. intros H. rewrite bezier_coord_unfold, H. ring. Qed.


Lemma bernstein_weights (t : Q) :
  0 <= t -> t <= 1 ->
  0 <= (1 - t) * (1 - t) * (1 - t) /\
  0 <= 3 * ((1 - t) * (1 - t)) * t /\
  0 <= 3 * (1 - t) * (t * t) /\
  0 <= t * t * t /\
  (1 - t) * (1 - t) * (1 - t) + 3 * ((1 - t) * (1 - t)) * t +
  3 * (1 - t) * (t * t) + t * t * t == 1.
Proof.
  intros H0 H1.
  assert (Hu : 0 <= 1 - t) by lra.
  assert (Huu : 0 <= (1 - t) * (1 - t)) by (apply Qmult_le_0_compat; assumption).
  assert (Htt : 0 <= t * t) by (apply Qmult_le_0_compat; assumption).
  repeat split.
  - apply Qmult_le_0_compat; assumption.
  - apply Qmult_le_0_compat; [|assumption].
    apply Qmult_le_0_compat; [lra|assumption].
  - apply Qmult_le_0_compat; [|assumption].
    apply Qmult_le_0_compat; [lra|assumption].
  - apply Qmult_le_0_compat; assumption.
  - ring.
Qed.

Lemma bezier_point_two (start end_ c0 c1 : point) (t : Q) :
  bezier_point start end_ [c0; c1] t =
  Ok (bezier_coord (fst start) (fst c0) (fst c1) (fst end_) t,
      bezier_coord (snd start) (snd c0) (snd c1) (snd end_) t).
Proof. reflexivity. Qed.


Lemma mapM_bezier_two (start end_ c0 c1 : point) (ts : list Q) :
  mapM (bezier_point start end_ [c0; c1]) ts =
  Ok (map (fun t => (bezier_coord (fst start) (fst c0) (fst c1) (fst end_) t,
                     bezier_coord (snd start) (snd c0) (snd c1) (snd end_) t)) ts).
Proof.
  induction ts as [|t ts IH]; [reflexivity|].
  cbn [mapM map]. rewrite bezier_point_two. cbn [Py.bind]. rewrite IH. reflexivity.
Qed.

Lemma linspace01_ge2 (num : Z) :
  (2 <= num)%Z -> linspace01 num = Ok (linspace_samples num).
Proof.
  intros H. unfold linspace01, linspace_samples.
  destruct (Z.ltb_spec num 0); [lia|].
  destruct (Z.ltb_spec 0 (num - 1)); [reflexivity|lia].
Qed.

Lemma linspace_samples_length (num : Z) :
  List.length (linspace_samples num) = Z.to_nat num.
Proof. unfold linspace_samples. now rewrite length_map, length_seq. Qed.

Lemma linspace_samples_nth (num : Z) (i : nat) :
  (i < Z.to_nat num)%nat ->
  nth i (linspace_samples num) 0 = inject_Z (Z.of_nat i) * (1 / inject_Z (num - 1)).
Proof.
  intros H. unfold linspace_samples.
  set (f := fun i : nat => inject_Z (Z.of_nat i) * (1 / inject_Z (num - 1))).
  rewrite (nth_indep _ 0 (f 0%nat)) by now rewrite length_map, length_seq.
  rewrite (map_nth f), seq_nth by assumption. reflexivity.
Qed.

Lemma linspace_sample_range (num : Z) (i : nat) :
  (2 <= num)%Z -> (i < Z.to_nat num)%nat ->
  0 <= inject_Z (Z.of_nat i) * (1 / inject_Z (num - 1)) /\
  inject_Z (Z.of_nat i) * (1 / inject_Z (num - 1)) <= 1.
Proof.
  intros Hn Hi.
  assert (Hd : 0 < inject_Z (num - 1)).
  { change 0 with (inject_Z 0). rewrite <- Zlt_Qlt. lia. }
  assert (Hi0 : 0 <= inject_Z (Z.of_nat i)).
  { change 0 with (inject_Z 0). rewrite <- Zle_Qle. lia. }
  assert (Hi1 : inject_Z (Z.of_nat i) <= inject_Z (num - 1)).
  { rewrite <- Zle_Qle. lia. }
  assert (E : inject_Z (Z.of_nat i) * (1 / inject_Z (num - 1)) ==
              inject_Z (Z.of_nat i) / inject_Z (num - 1)) by (field; lra).
  rewrite E. split.
  - apply Qle_shift_div_l; [assumption|]. lra.
  - apply Qle_shift_div_r; [assumption|]. lra.
Qed.








(** With one sample the path is the start point alone. *)
Lemma bezier_curve_single_point (start end_ : point) (g : rng) :
  exists p : point,
    fst (bezier_curve start end_ None 1 g) = Ok [p] /\ point_eq p start.
Proof.
  eexists. split; [reflexivity|].
  split; cbn [fst snd]; apply bezier_coord_0; reflexivity.
Qed.

(** A negative point count makes [np.linspace] raise. *)
Lemma bezier_curve_negative (start end_ : point) (n : Z) (g : rng) :
  (n < 0)%Z -> fst (bezier_curve start end_ None n g) = Raise ValueError.
Proof.
  intros H. unfold bezier_curve, random_control_points. cbn.
  unfold linspace01. destruct (Z.ltb_spec n 0); [reflexivity|lia].
Qed.

(** For every non-negative count the number of points is the count. *)
Lemma bezier_curve_length (start end_ : point) (n : Z) (g : rng) :
  (0 <= n)%Z ->
  exists pts, fst (bezier_curve start end_ None n g) = Ok pts /\
              Z.of_nat (List.length pts) = n.
Proof.
  intros H. unfold bezier_curve, random_control_points. cbn.
  unfold linspace01. destruct (Z.ltb_spec n 0); [lia|]. cbn [Py.bind].
  rewrite mapM_bezier_two. eexists. split; [reflexivity|].
  rewrite !length_map, length_seq. lia.
Qed.

(** ** Strings *)

Lemma prefix_iff (a s : string) :
  prefix a s = true <-> exists post : string, s = (a ++ post)%string.
Proof.
  revert s. induction a as [|c a IH]; intros s.
  - split; [intros _; now exists s|intros _; now destruct s].
  - destruct s as [|d s]; cbn.
    + split; [discriminate|]. intros [post H]. discriminate.
    + destruct (Ascii.ascii_dec c d) as [->|Hcd].
      * rewrite IH. split; intros [post H]; exists post.
        -- now rewrite H.
        -- now injection H.
      * split; [discriminate|]. intros [post H]. injection H as H1 H2.
        now elim Hcd.
Qed.

Lemma contains_iff (a s : string) :
  Str.contains a s = true <-> Str.Substring a s.
Proof.
  unfold Str.Substring. induction s as [|d s IH]; cbn [Str.contains].
  - rewrite orb_false_r, prefix_iff. split.
    + intros [post H]. now exists EmptyString, post.
    + intros (pre & post & H). destruct pre; [now exists post|discriminate].
  - rewrite orb_true_iff, prefix_iff, IH. split.
    + intros [[post H]|(pre & post & H)].
      * now exists EmptyString, post.
      * exists (String d pre), post. cbn. now rewrite H.
    + intros (pre & post & H). destruct pre as [|c pre].
      * left. now exists post.
      * right. cbn in H. injection H as _ H. now exists pre, post.
Qed.

Lemma lower_app (a b : string) :
  Str.lower (a ++ b) = (Str.lower a ++ Str.lower b)%string.
Proof. induction a as [|c a IH]; cbn; [reflexivity|now rewrite IH]. Qed.

Lemma lower_split (s a b : string) :
  Str.lower s = (a ++ b)%string ->
  exists a' b' : string,
    s = (a' ++ b')%string /\ Str.lower a' = a /\ Str.lower b' = b.
Proof.
  revert s. induction a as [|c a IH]; intros s H.
  - exists EmptyString, s. now cbn in *.
  - destruct s as [|d s]; [discriminate|]. cbn in H. injection H as Hc H.
    destruct (IH s H) as (a' & b' & -> & Ha & Hb).
    exists (String d a'), b'. cbn. now rewrite Hc, Ha.
Qed.

(** Searching a lower-case word in the lowered text is searching the word in
    the text up to case. *)
Lemma contains_lower_iff (word s : string) :
  Str.lower word = word ->
  Str.contains word (Str.lower s) = true <-> Str.SubstringIgnoringCase word s.
Proof.
  intros Hw. rewrite contains_iff. unfold Str.Substring, Str.SubstringIgnoringCase.
  split.
  - intros (pre & post & H).
    apply lower_split in H. destruct H as (pre' & rest & -> & Hpre & H).
    apply lower_split in H. destruct H as (mid & post' & -> & Hmid & Hpost).
    exists pre', mid, post'. split; [reflexivity|]. now rewrite Hw.
  - intros (pre & mid & post & -> & H).
    exists (Str.lower pre), (Str.lower post).
    rewrite !lower_app, H, Hw. reflexivity.
Qed.

Lemma high_priority_words_lower (word : string) :
  In word high_priority_words -> Str.lower word = word.
Proof.
  cbn. intros H.
  repeat (destruct H as [<-|H]; [reflexivity|]). contradiction.
Qed.

(** *** Letters up to case *)

Lemma lower_ascii_upper (n : nat) :
  (65 <= n <= 90)%nat -> Str.lower_ascii (ascii_of_nat n) = ascii_of_nat (n + 32).
Proof.
  intros H. unfold Str.lower_ascii. rewrite nat_ascii_embedding by lia.
  destruct (Nat.leb_spec 65 n); [|lia]. destruct (Nat.leb_spec n 90); [|lia].
  reflexivity.
Qed.

Lemma lower_ascii_fixed (n : nat) :
  (97 <= n <= 122)%nat -> Str.lower_ascii (ascii_of_nat n) = ascii_of_nat n.
Proof.
  intros H. unfold Str.lower_ascii. rewrite nat_ascii_embedding by lia.
  destruct (Nat.leb_spec n 90); [lia|]. now rewrite andb_false_r.
Qed.

(** Two characters are the same letter up to case exactly when [lower]
    sends them to the same character. *)
Lemma same_letter_lower (a b : ascii) :
  same_letter a b <-> Str.lower_ascii a = Str.lower_ascii b.
Proof.
  split.
  - intros [->|(n & Hn & [[-> ->]|[-> ->]])]; [reflexivity| |];
      rewrite (lower_ascii_upper n), (lower_ascii_fixed (n + 32)) by lia; reflexivity.
  - unfold Str.lower_ascii, same_letter.
    pose proof (nat_ascii_bounded a) as Ha. pose proof (nat_ascii_bounded b) as Hb.
    pose proof (ascii_nat_embedding a) as Ea. pose proof (ascii_nat_embedding b) as Eb.
    set (na := nat_of_ascii a) in *. set (nb := nat_of_ascii b) in *.
    destruct ((65 <=? na) && (na <=? 90))%nat eqn:Ua;
      destruct ((65 <=? nb) && (nb <=? 90))%nat eqn:Ub; intros H.
    + left. apply (f_equal nat_of_ascii) in H.
      apply andb_true_iff in Ua, Ub. destruct Ua as [U1 U2], Ub as [U3 U4].
      apply Nat.leb_le in U1, U2, U3, U4.
      rewrite !nat_ascii_embedding in H by lia.
      assert (na = nb) by lia. congruence.
    + right. exists na. apply andb_true_iff in Ua. destruct Ua as [U1 U2].
      apply Nat.leb_le in U1, U2. split; [lia|]. left. now split.
    + right. exists nb. apply andb_true_iff in Ub. destruct Ub as [U1 U2].
      apply Nat.leb_le in U1, U2. split; [lia|]. right. now split.
    + now left.
Qed.

Lemma same_text_lower (s t : string) :
  same_text s t <-> Str.lower s = Str.lower t.
Proof.
  split.
  - induction 1 as [|a b s t Hab _ IH]; cbn; [reflexivity|].
    apply same_letter_lower in Hab. now rewrite Hab, IH.
  - revert t. induction s as [|a s IH]; intros [|b t] H; try discriminate.
    + constructor.
    + cbn in H. injection H as Hab H. constructor.
      * now apply same_letter_lower.
      * now apply IH.
Qed.

Lemma contains_ignoring_case_iff (word s : string) :
  contains_ignoring_case word s <-> Str.SubstringIgnoringCase word s.
Proof.
  unfold contains_ignoring_case, Str.SubstringIgnoringCase.
  split; intros (pre & mid & post & E & H); exists pre, mid, post;
    (split; [exact E|]); now apply same_text_lower.
Qed.

Lemma is_tag_iff (name tag : string) :
  Str.lower name = name ->
  String.eqb (Str.lower tag) name = true <-> is_tag name tag.
Proof.
  intros Hn. unfold is_tag. rewrite same_text_lower, Hn. apply String.eqb_eq.
Qed.

(** ** Element scoring *)

Lemma Qlt_bool_iff (x y : Q) : Qlt_bool x y = true <-> x < y.
Proof.
  unfold Qlt_bool. rewrite negb_true_iff, <- not_true_iff_false, Qle_bool_iff.
  split; [apply Qnot_le_lt|apply Qlt_not_le].
Qed.

Lemma bonus_of_bool (P : Prop) (b : bool) (a : Q) :
  (b = true <-> P) -> bonus P a (if b then a else 0).
Proof.
  intros H. split; intros HP.
  - apply H in HP. now rewrite HP.
  - destruct b; [|reflexivity]. elim HP. now apply H.
Qed.

Lemma priority_word_iff (s : string) :
  existsb (fun word => Str.contains word (Str.lower s)) high_priority_words = true <->
  exists word,
    In word ["submit"; "search"; "login"; "next"; "continue"; "accept"]%string /\
    contains_ignoring_case word s.
Proof.
  change ["submit"; "search"; "login"; "next"; "continue"; "accept"]%string
    with high_priority_words.
  rewrite existsb_exists. split; intros (w & Hin & H); exists w; split; try assumption.
  - apply contains_ignoring_case_iff.
    now apply contains_lower_iff; [apply high_priority_words_lower|].
  - apply contains_ignoring_case_iff in H.
    now apply contains_lower_iff; [apply high_priority_words_lower|].
Qed.

Lemma class_bonus_iff (cls : option string) :
  Str.contains "primary" (or_empty cls) || Str.contains "main" (or_empty cls) = true <->
  exists c, cls = Some c /\ (Str.Substring "primary" c \/ Str.Substring "main" c).
Proof.
  destruct cls as [c|]; cbn [or_empty].
  - rewrite orb_true_iff, !contains_iff. split.
    + intros H. now exists c.
    + intros (c' & E & H). now injection E as ->.
  - split; [discriminate|]. intros (c & E & _). discriminate.
Qed.

(** The sub-total the code computes is the sum the specification gives. *)
Lemma score_subtotal_spec (element : WebElement) (c : candidate) :
  observed element c ->
  exists q : Q, score_subtotal element = Ok q /\ subtotal_spec c q.
Proof.
  intros (x & Hloc & Hsize & Htag & Htext & Hcls).
  unfold score_subtotal. rewrite Hloc, Hsize, Htag, Htext, Hcls. cbn [Py.bind fst snd].
  pose proof (is_tag_iff "button" (tag c) eq_refl) as T1.
  pose proof (is_tag_iff "a" (tag c) eq_refl) as T2.
  pose proof (is_tag_iff "input" (tag c) eq_refl) as T3.
  pose proof (priority_word_iff (visible_text c)) as B4.
  pose proof (class_bonus_iff (class_attribute c)) as B5.
  assert (B1 : Qlt_bool (vertical_position c) 800 = true <-> vertical_position c < 800)
    by apply Qlt_bool_iff.
  assert (B2 : Qlt_bool 100 (width c) && Qlt_bool 30 (height c) = true <->
               width c > 100 /\ height c > 30)
    by (rewrite andb_true_iff, !Qlt_bool_iff; reflexivity).
  set (b1 := Qlt_bool (vertical_position c) 800) in *.
  set (b2 := Qlt_bool 100 (width c) && Qlt_bool 30 (height c)) in *.
  set (t1 := String.eqb (Str.lower (tag c)) "button") in *.
  set (t2 := String.eqb (Str.lower (tag c)) "a") in *.
  set (t3 := String.eqb (Str.lower (tag c)) "input") in *.
  set (b4 := existsb _ high_priority_words) in *.
  set (b5 := Str.contains "primary" _ || Str.contains "main" _) in *.
  assert (T12 : t1 = true -> t2 = true -> False).
  { unfold t1, t2. rewrite !String.eqb_eq. intros -> H. discriminate. }
  assert (T13 : t1 = true -> t3 = true -> False).
  { unfold t1, t3. rewrite !String.eqb_eq. intros -> H. discriminate. }
  assert (T23 : t2 = true -> t3 = true -> False).
  { unfold t2, t3. rewrite !String.eqb_eq. intros -> H. discriminate. }
  eexists. split; [reflexivity|].
  exists (if b1 then Float64.double 0.3 else 0), (if b2 then Float64.double 0.2 else 0),
    (if t1 then Float64.double 0.3
     else if t2 then Float64.double 0.25
     else if t3 then Float64.double 0.2 else 0),
    (if b4 then Float64.double 0.4 else 0), (if b5 then Float64.double 0.2 else 0).
  split; [now apply bonus_of_bool|].
  split; [now apply bonus_of_bool|].
  split.
  { intros H. apply T1 in H. now rewrite H. }
  split.
  { intros H. apply T2 in H. destruct t1; [now elim T12|]. now rewrite H. }
  split.
  { intros H. apply T3 in H. destruct t1; [now elim T13|].
    destruct t2; [now elim T23|]. now rewrite H. }
  split.
  { intros H1 H2 H3.
    destruct t1; [elim H1; now apply T1|].
    destruct t2; [elim H2; now apply T2|].
    destruct t3; [elim H3; now apply T3|]. reflexivity. }
  split; [now apply bonus_of_bool|].
  split; [now apply bonus_of_bool|].
  clearbody b1 b2 t1 t2 t3 b4 b5.
  clear. destruct b1, b2, t1, t2, t3, b4, b5; vm_compute; reflexivity.
Qed.

Lemma bonus_unique (P : Prop) (b : bool) (a p p' : Q) :
  (b = true <-> P) -> bonus P a p -> bonus P a p' -> p = p'.
Proof.
  intros Hb [H1 H2] [H1' H2']. destruct b.
  - assert (HP : P) by now apply Hb. now rewrite (H1 HP), (H1' HP).
  - assert (HP : ~ P) by (intros HP; apply Hb in HP; discriminate).
    now rewrite (H2 HP), (H2' HP).
Qed.

(** The rule of the specification determines the sub-total. *)
Lemma subtotal_spec_unique (c : candidate) (q q' : Q) :
  subtotal_spec c q -> subtotal_spec c q' -> q = q'.
Proof.
  intros (p & s & t & x & k & Hp & Hs & Ht1 & Ht2 & Ht3 & Ht0 & Hx & Hk & ->)
         (p' & s' & t' & x' & k' & Hp' & Hs' & Ht1' & Ht2' & Ht3' & Ht0' & Hx' & Hk' & ->).
  assert (p = p') as <-.
  { eapply bonus_unique; [apply Qlt_bool_iff|eassumption|eassumption]. }
  assert (s = s') as <-.
  { eapply (bonus_unique _ (Qlt_bool 100 (width c) && Qlt_bool 30 (height c)));
      [|eassumption|eassumption].
    rewrite andb_true_iff, !Qlt_bool_iff. reflexivity. }
  assert (x = x') as <-.
  { eapply bonus_unique; [apply priority_word_iff|eassumption|eassumption]. }
  assert (k = k') as <-.
  { eapply bonus_unique; [apply class_bonus_iff|eassumption|eassumption]. }
  assert (t = t') as <-; [|reflexivity].
  pose proof (is_tag_iff "button" (tag c) eq_refl) as T1.
  pose proof (is_tag_iff "a" (tag c) eq_refl) as T2.
  pose proof (is_tag_iff "input" (tag c) eq_refl) as T3.
  destruct (String.eqb (Str.lower (tag c)) "button").
  { assert (H : is_tag "button" (tag c)) by now apply T1.
    now rewrite (Ht1 H), (Ht1' H). }
  destruct (String.eqb (Str.lower (tag c)) "a").
  { assert (H : is_tag "a" (tag c)) by now apply T2.
    now rewrite (Ht2 H), (Ht2' H). }
  destruct (String.eqb (Str.lower (tag c)) "input").
  { assert (H : is_tag "input" (tag c)) by now apply T3.
    now rewrite (Ht3 H), (Ht3' H). }
  assert (N1 : ~ is_tag "button" (tag c)) by (intros H; apply T1 in H; discriminate).
  assert (N2 : ~ is_tag "a" (tag c)) by (intros H; apply T2 in H; discriminate).
  assert (N3 : ~ is_tag "input" (tag c)) by (intros H; apply T3 in H; discriminate).
  now rewrite (Ht0 N1 N2 N3), (Ht0' N1 N2 N3).
Qed.

Lemma score_subtotal_readable (element : WebElement) :
  readable element = true <-> exists q : Q, score_subtotal element = Ok q.
Proof.
  unfold readable, score_subtotal, Py.bind.
  destruct (location (dom element)); [|split; [discriminate|now intros [q H]]].
  destruct (size (dom element)); [|split; [discriminate|now intros [q H]]].
  destruct (tag_name (dom element)); [|split; [discriminate|now intros [q H]]].
  destruct (text (dom element)); [|split; [discriminate|now intros [q H]]].
  destruct (get_attribute (dom element) "class");
    [|split; [discriminate|now intros [q H]]].
  split; [intros _; eexists; reflexivity|reflexivity].
Qed.

(** An element that can be read has an observation. *)
Lemma readable_observed (element : WebElement) :
  readable element = true -> exists c, observed element c.
Proof.
  unfold readable, observed.
  destruct (location (dom element)) as [[x y]|]; [|discriminate].
  destruct (size (dom element)) as [[w h]|]; [|discriminate].
  destruct (tag_name (dom element)) as [tg|]; [|discriminate].
  destruct (text (dom element)) as [tx|]; [|discriminate].
  destruct (get_attribute (dom element) "class") as [cls|]; [|discriminate].
  intros _. exists (mkCandidate y w h tg tx cls), x. repeat split.
Qed.

(** *** The stable descending sort *)

Section Sorting.

Context {A : Type}.
Implicit Types (x y : A * Q) (l : list (A * Q)).

Lemma insert_desc_perm x l : Permutation (x :: l) (insert_desc x l).
Proof.
  induction l as [|y l IH]; cbn [insert_desc]; [reflexivity|].
  destruct (Qlt_bool (snd x) (snd y)); [|reflexivity].
  rewrite perm_swap. now apply perm_skip.
Qed.

Lemma sort_desc_perm l : Permutation l (sort_desc l).
Proof.
  induction l as [|x l IH]; cbn; [reflexivity|].
  rewrite <- insert_desc_perm. now apply perm_skip.
Qed.

Lemma insert_desc_sorted x l : sorted_desc l -> sorted_desc (insert_desc x l).
Proof.
  unfold sorted_desc.
  induction l as [|y l IH]; intros Hs; cbn [insert_desc].
  - constructor; constructor.
  - inversion Hs as [|? ? Hl Hy]; subst.
    destruct (Qlt_bool (snd x) (snd y)) eqn:E.
    + constructor; [now apply IH|].
      apply (Permutation_Forall (insert_desc_perm x l)).
      constructor; [|assumption].
      apply Qlt_bool_iff in E. now apply Qlt_le_weak.
    + assert (Hyx : snd y <= snd x).
      { apply Qnot_lt_le. intros H. apply Qlt_bool_iff in H. congruence. }
      constructor; [assumption|].
      constructor; [assumption|].
      eapply Forall_impl; [|exact Hy].
      intros z Hz. cbn in Hz. now apply Qle_trans with (snd y).
Qed.

Lemma sort_desc_sorted l : sorted_desc (sort_desc l).
Proof.
  induction l as [|x l IH]; cbn; [constructor|now apply insert_desc_sorted].
Qed.

Lemma with_score_insert (v : Q) x l :
  with_score v (insert_desc x l) = with_score v (x :: l).
Proof.
  unfold with_score.
  induction l as [|y l IH]; cbn [insert_desc]; [reflexivity|].
  destruct (Qlt_bool (snd x) (snd y)) eqn:E; [|reflexivity].
  cbn [filter] in *. rewrite IH.
  destruct (Qeq_bool (snd x) v) eqn:Ex, (Qeq_bool (snd y) v) eqn:Ey; try reflexivity.
  apply Qlt_bool_iff in E. apply Qeq_bool_iff in Ex, Ey.
  rewrite Ex, Ey in E. now apply Qlt_irrefl in E.
Qed.

(** Stability: entries of equal score keep their relative order. *)
Lemma sort_desc_stable (v : Q) l : with_score v (sort_desc l) = with_score v l.
Proof.
  induction l as [|x l IH]; [reflexivity|].
  cbn [sort_desc fold_right]. rewrite with_score_insert.
  unfold with_score in *. cbn [filter]. fold (sort_desc l). now rewrite IH.
Qed.

End Sorting.

(** *** The scoring loop *)

Lemma score_element_rng (behavior : UserBehavior) (element : WebElement) (g : rng) :
  tape (snd (score_element behavior element g)) = tape g /\
  (pos g <= pos (snd (score_element behavior element g)))%nat.
Proof.
  unfold score_element. destruct (score_subtotal element); cbn; split; auto.
Qed.

(** In discovery order: the elements that can be read, the [i]-th of them
    with its sub-total plus the random term on the [i]-th draw. *)
Lemma score_loop_entries (behavior : UserBehavior) (elements : list WebElement) :
  forall g : rng,
    map fst (fst (score_loop behavior elements g)) = filter readable elements /\
    (forall i e total,
        nth_error (fst (score_loop behavior elements g)) i = Some (e, total) ->
        exists q, score_subtotal e = Ok q /\
                  total = Float64.add q (random_term behavior g i)).
Proof.
  induction elements as [|e rest IH]; intros g; cbn [score_loop filter].
  - split; [reflexivity|]. intros [|i] e t H; discriminate.
  - unfold score_element.
    destruct (score_subtotal e) as [q|ex] eqn:Eq.
    + assert (readable e = true) as -> by (apply score_subtotal_readable; eauto).
      unfold uniform_float, random.
      destruct (IH (mkRng (tape g) (S (pos g)))) as [IH1 IH2].
      destruct (score_loop behavior rest _) as [scored g''].
      cbn [fst map] in *. split; [now rewrite IH1|].
      intros [|i] e' total H; cbn [nth_error] in H.
      * injection H as <- <-. exists q. split; [exact Eq|].
        unfold random_term, uniform_float, random. cbn [fst tape pos].
        now rewrite Nat.add_0_r.
      * destruct (IH2 i e' total H) as (q' & Hq' & ->).
        exists q'. split; [exact Hq'|].
        unfold random_term. cbn [tape pos]. now rewrite Nat.add_succ_r.
    + assert (readable e = false) as ->.
      { apply not_true_iff_false. intros R.
        apply score_subtotal_readable in R. destruct R as [q R]. congruence. }
      apply IH.
Qed.

Lemma Permutation_filter {A : Type} (f : A -> bool) (l l' : list A) :
  Permutation l l' -> Permutation (filter f l) (filter f l').
Proof.
  induction 1 as [|x l l' _ IH|x y l|l l' l'' _ IH1 _ IH2]; cbn.
  - constructor.
  - destruct (f x); [now constructor|assumption].
  - destruct (f x), (f y); try reflexivity. apply perm_swap.
  - now transitivity (filter f l').
Qed.

(** C1. [_score_elements] scores the elements that can be read.  The
    deterministic part of the score of each is the sum, in doubles and in the
    order listed, of the five terms of the specification: 0.3 when the
    vertical position is below 800; 0.2 when the width exceeds 100 and the
    height 30; 0.3, 0.25 or 0.2 for a button, an anchor or an input tag; 0.4
    when the visible text contains, case-insensitively, one of submit,
    search, login, next, continue, accept; 0.2 when the class attribute
    contains primary or main; these conditions determine the sub-total.
    The total of the [i]-th element scored is
    this sub-total plus the random term on the [i]-th draw.  The sub-total
    does not depend on the order of scoring: in two runs on rearrangements
    of the same elements, with any random sources, the same elements are
    returned, each with the same sub-total.  The returned list is the
    discovery-order list sorted descending by total, entries of equal total
    keeping their discovery order. *)
Theorem score_elements_spec (behavior : UserBehavior) (elements : list WebElement)
  (g : rng) :
  let scored := fst (_score_elements behavior elements g) in
  exists discovered : list (WebElement * Q),
    map fst discovered = filter readable elements /\
    (forall e, readable e = true -> exists c, observed e c) /\
    (forall c q q', subtotal_spec c q -> subtotal_spec c q' -> q = q') /\
    (forall i e total c,
        nth_error discovered i = Some (e, total) -> observed e c ->
        exists q, subtotal_spec c q /\
                  total = Float64.add q (random_term behavior g i)) /\
    (forall (elements' : list WebElement) (g' : rng),
        Permutation elements elements' ->
        let scored' := fst (_score_elements behavior elements' g') in
        Permutation (map fst scored) (map fst scored') /\
        forall e c total total',
          observed e c -> In (e, total) scored -> In (e, total') scored' ->
          exists q i j,
            subtotal_spec c q /\
            total = Float64.add q (random_term behavior g i) /\
            total' = Float64.add q (random_term behavior g' j)) /\
    Permutation discovered scored /\
    sorted_desc scored /\
    (forall v : Q, with_score v scored = with_score v discovered).
Proof.
  cbn zeta. unfold _score_elements.
  pose proof (score_loop_entries behavior elements g) as [Hfst He].
  destruct (score_loop behavior elements g) as [discovered g1].
  cbn [fst] in *. exists discovered.
  split; [exact Hfst|].
  split; [exact readable_observed|].
  split; [exact subtotal_spec_unique|].
  split.
  { intros i e total c Hi Hc.
    destruct (He i e total Hi) as (q & Hq & ->).
    destruct (score_subtotal_spec e c Hc) as (q' & Hq' & Hs).
    exists q. split; [congruence|reflexivity]. }
  split.
  { intros elements' g' Hperm.
    pose proof (score_loop_entries behavior elements' g') as [Hfst' He'].
    destruct (score_loop behavior elements' g') as [discovered' g2].
    cbn [fst] in *. split.
    - transitivity (map fst discovered).
      { apply Permutation_map. symmetry. apply sort_desc_perm. }
      transitivity (map fst discovered').
      { rewrite Hfst, Hfst'. now apply Permutation_filter. }
      apply Permutation_map, sort_desc_perm.
    - intros e c total total' Hc Hin Hin'.
      apply (Permutation_in _ (Permutation_sym (sort_desc_perm discovered))) in Hin.
      apply (Permutation_in _ (Permutation_sym (sort_desc_perm discovered'))) in Hin'.
      apply In_nth_error in Hin, Hin'.
      destruct Hin as [i Hi], Hin' as [j Hj].
      destruct (He i e total Hi) as (q & Hq & ->).
      destruct (He' j e total' Hj) as (q' & Hq' & ->).
      destruct (score_subtotal_spec e c Hc) as (q'' & Hq'' & Hs).
      exists q, i, j. split; [congruence|]. split; [reflexivity|congruence]. }
  split; [apply sort_desc_perm|].
  split; [apply sort_desc_sorted|].
  intros v. apply sort_desc_stable.
Qed.

(** The tie of the real-number sums 0.3 + 0.3 and 0.2 + 0.4 does not exist
    in doubles: a small button above the fold scores 0.6, a wide block below
    the fold whose text says Next scores 0.6000000000000001 and is sorted
    first, though discovered second. *)
Example score_elements_rounding :
  let a := mkWebElement 0 (visible_node 1 "button" "Go" (fun _ => None) 0 10 50 20) in
  let b := mkWebElement 1 (visible_node 2 "div" "Next" (fun _ => None) 0 900 200 40) in
  map fst (fst (_score_elements incurious_persona [a; b] (constant 0.5))) = [b; a] /\
  map snd (fst (_score_elements incurious_persona [a; b] (constant 0.5))) =
  [1351079888211149 # 2251799813685248; 5404319552844595 # 9007199254740992].
Proof. cbn zeta. split; vm_compute; reflexivity. Qed.

(** ** Element selection *)

Section Sublists.

Context {A : Type}.
Implicit Types (l out : list A).

Lemma sublist_filter (f : A -> bool) l : sublist (filter f l) l.
Proof.
  induction l as [|x l IH]; cbn; [constructor|].
  destruct (f x); constructor; assumption.
Qed.

Lemma sublist_nil_l l : sublist [] l.
Proof. induction l; constructor; assumption. Qed.

Lemma sublist_firstn (n : nat) l : sublist (firstn n l) l.
Proof.
  revert n. induction l as [|x l IH]; intros [|n]; cbn.
  - constructor.
  - constructor.
  - apply sublist_nil_l.
  - apply sublist_keep, IH.
Qed.

Lemma sublist_trans l1 l2 l3 : sublist l1 l2 -> sublist l2 l3 -> sublist l1 l3.
Proof.
  intros H12 H23. revert l1 H12.
  induction H23 as [|x l2 l3 H IH|x l2 l3 H IH]; intros l1 H12.
  - assumption.
  - constructor. now apply IH.
  - inversion H12; subst.
    + apply sublist_skip. now apply IH.
    + apply sublist_keep. now apply IH.
Qed.

Lemma sublist_In l1 l2 (x : A) : sublist l1 l2 -> In x l1 -> In x l2.
Proof.
  induction 1 as [|y l1 l2 H IH|y l1 l2 H IH]; cbn.
  - intros [].
  - intros Hx. right. now apply IH.
  - intros [->|Hx]; [now left|right; now apply IH].
Qed.

Lemma sublist_Forall (P : A -> Prop) l1 l2 :
  sublist l1 l2 -> Forall P l2 -> Forall P l1.
Proof.
  intros Hs Hf. apply Forall_forall. intros x Hx.
  rewrite Forall_forall in Hf. eauto using sublist_In.
Qed.

Lemma sublist_StronglySorted (R : A -> A -> Prop) l1 l2 :
  sublist l1 l2 -> StronglySorted R l2 -> StronglySorted R l1.
Proof.
  induction 1 as [|y l1 l2 H IH|y l1 l2 H IH]; intros Hs.
  - constructor.
  - inversion Hs; subst. now apply IH.
  - inversion Hs; subst. constructor; [now apply IH|].
    eauto using sublist_Forall.
Qed.

End Sublists.

Lemma slice_to_nonneg {A : Type} (l : list A) (k : Z) :
  (0 <= k)%Z -> slice_to l k = firstn (Z.to_nat k) l.
Proof. intros H. unfold slice_to. destruct (Z.ltb_spec k 0); [lia|reflexivity]. Qed.

(** C2 (amended). For every scored list and every [max_count >= 0],
    selection under the Focused pattern consumes no randomness and returns
    the entries of score above 0.6, in input order, cut after [max_count] of
    them: at most [max_count] entries, each of score above 0.6, a sublist of
    the input, all qualifying entries when there are at most [max_count] of
    them, and in descending score order when the input is. *)
Theorem select_focused (behavior : UserBehavior)
  (scored_elements : list (WebElement * Q)) (max_count : Z) (g : rng) :
  pattern behavior = FOCUSED -> (0 <= max_count)%Z ->
  exists out : list (WebElement * Q),
    _select_elements_by_behavior behavior scored_elements max_count g = (Ok out, g) /\
    out = firstn (Z.to_nat max_count)
                 (filter (fun e => Qlt_bool 0.6 (snd e)) scored_elements) /\
    (Z.of_nat (List.length out) <= max_count)%Z /\
    Forall (fun e => 0.6 < snd e) out /\
    sublist out scored_elements /\
    ((Z.of_nat (List.length
                  (filter (fun e => Qlt_bool 0.6 (snd e)) scored_elements))
      <= max_count)%Z ->
     forall e, In e scored_elements -> 0.6 < snd e -> In e out) /\
    (sorted_desc scored_elements -> sorted_desc out).
Proof.
  intros Hp Hk. unfold _select_elements_by_behavior. rewrite Hp.
  rewrite slice_to_nonneg by assumption.
  set (high := filter _ scored_elements).
  assert (Hsub : sublist (firstn (Z.to_nat max_count) high) scored_elements).
  { eapply sublist_trans; [apply sublist_firstn|apply sublist_filter]. }
  eexists. split; [reflexivity|]. split; [reflexivity|].
  split.
  { pose proof (firstn_le_length (Z.to_nat max_count) high). lia. }
  split.
  { apply (sublist_Forall _ _ high); [apply sublist_firstn|].
    apply Forall_forall. intros e He. apply filter_In in He.
    now apply Qlt_bool_iff. }
  split; [exact Hsub|].
  split.
  { intros Hlen e Hin He. rewrite firstn_all2 by lia.
    apply filter_In. split; [assumption|now apply Qlt_bool_iff]. }
  intros Hs. unfold sorted_desc in *. eapply sublist_StronglySorted; eassumption.
Qed.

Lemma select_focused_witness :
  pattern focused_persona = FOCUSED /\ (0 <= 5)%Z /\
  exists out : list (WebElement * Q),
    _select_elements_by_behavior focused_persona
      [(mkWebElement 100 submit_button, 1.2); (mkWebElement 101 (footer_div 2), 0.1)]
      5 (constant 0.5) = (Ok out, constant 0.5) /\
    out = [(mkWebElement 100 submit_button, 1.2)].
Proof.
  split; [reflexivity|]. split; [lia|].
  destruct (select_focused focused_persona
              [(mkWebElement 100 submit_button, 1.2);
               (mkWebElement 101 (footer_div 2), 0.1)]
              5 (constant 0.5) eq_refl ltac:(lia)) as (out & H & Hout & _).
  exists out. split; [exact H|exact Hout].
Defined.

(** C2, as stated, fails for a negative [max_count]: [l[:-1]] drops the last
    entry only, so the output is longer than [max_count]. *)
Lemma select_focused_negative_counterexample :
  exists out : list (WebElement * Q),
    fst (_select_elements_by_behavior focused_persona
           [(mkWebElement 100 submit_button, 1.2);
            (mkWebElement 101 submit_button, 0.9)]
           (-1) (constant 0.5)) = Ok out /\
    ~ (Z.of_nat (List.length out) <= -1)%Z.
Proof. eexists. split; [reflexivity|]. cbn. lia. Qed.

(** C5. Under the Casual and the Researcher pattern, a list longer than
    [max_count] in which fewer than [max_count] entries have a positive score
    makes [np.random.choice] raise: here one positive score out of three, two
    requested. *)
Theorem select_default_raises (e1 e2 e3 : WebElement) (rs ts mp att cur : Q) (g : rng) :
  _select_elements_by_behavior (mkUserBehavior CASUAL rs ts mp att cur)
    [(e1, 0.5); (e2, 0); (e3, 0)] 2 g = (Raise ValueError, g) /\
  _select_elements_by_behavior (mkUserBehavior RESEARCHER rs ts mp att cur)
    [(e1, 0.5); (e2, 0); (e3, 0)] 2 g = (Raise ValueError, g).
Proof. split; reflexivity. Qed.

(** *** When the default policy raises *)

Lemma fold_left_Qplus_le (l : list Q) (a : Q) :
  Forall (fun w => 0 <= w) l -> a <= fold_left Qplus l a.
Proof.
  revert a. induction l as [|w l IH]; intros a Hl; cbn.
  - apply Qle_refl.
  - inversion Hl; subst. apply Qle_trans with (a + w); [lra|now apply IH].
Qed.

Lemma sum_nonneg (l : list Q) : Forall (fun w => 0 <= w) l -> 0 <= sum l.
Proof. apply fold_left_Qplus_le. Qed.

Lemma positive_share (w total : Q) :
  0 < total -> Qlt_bool 0 (w / total) = Qlt_bool 0 w.
Proof.
  intros Ht. apply eq_true_iff_eq. rewrite !Qlt_bool_iff. split; intros H.
  - assert (E : w == (w / total) * total) by (field; lra).
    rewrite E. apply Qmult_lt_0_compat; assumption.
  - apply Qlt_shift_div_l; [assumption|lra].
Qed.

Lemma count_nonzero_shares (weights : list Q) (total : Q) :
  0 < total ->
  Numpy.count_nonzero (map (fun w => w / total) weights) = Numpy.count_nonzero weights.
Proof.
  intros Ht. unfold Numpy.count_nonzero.
  induction weights as [|w l IH]; cbn; [reflexivity|].
  rewrite positive_share by assumption.
  destruct (Qlt_bool 0 w); cbn; now rewrite IH.
Qed.

(** Every list of non-negative scores that is longer than [max_count], has
    a positive total and has fewer than [max_count] positive scores makes the
    default policy raise [ValueError]. *)
Lemma select_default_raises_few_positive (behavior : UserBehavior)
  (scored_elements : list (WebElement * Q)) (max_count : Z) (g : rng) :
  pattern behavior = CASUAL \/ pattern behavior = RESEARCHER ->
  Forall (fun w => 0 <= w) (map snd scored_elements) ->
  (max_count < Z.of_nat (List.length scored_elements))%Z ->
  ~ sum (map snd scored_elements) == 0 ->
  (Z.of_nat (Numpy.count_nonzero (map snd scored_elements)) < max_count)%Z ->
  _select_elements_by_behavior behavior scored_elements max_count g =
  (Raise ValueError, g).
Proof.
  intros Hp Hnn Hlen Hsum Hfew.
  assert (Htotal : 0 < sum (map snd scored_elements)).
  { pose proof (sum_nonneg _ Hnn) as H0.
    apply Qle_lteq in H0. destruct H0 as [H0|H0]; [assumption|].
    elim Hsum. now symmetry. }
  assert (Hbody :
    (if (Z.of_nat (List.length scored_elements) <=? max_count)%Z
     then (Ok scored_elements, g)
     else
       if Qeq_bool (sum (map snd scored_elements)) 0
       then random_sample scored_elements
              (Z.min max_count (Z.of_nat (List.length scored_elements))) g
       else
         match Numpy.random_choice (List.length scored_elements)
                 (Z.min max_count (Z.of_nat (List.length scored_elements)))
                 (map (fun w => w / sum (map snd scored_elements))
                      (map snd scored_elements)) g with
         | (Ok indices, g') => (mapM (getitem scored_elements) indices, g')
         | (Raise e, g') => (Raise e, g')
         end) = (Raise ValueError, g)).
  { destruct (Z.leb_spec (Z.of_nat (List.length scored_elements)) max_count); [lia|].
    destruct (Qeq_bool (sum (map snd scored_elements)) 0) eqn:E.
    { apply Qeq_bool_iff in E. now elim Hsum. }
    unfold Numpy.random_choice.
    rewrite count_nonzero_shares by assumption.
    rewrite Z.min_l by lia.
    repeat match goal with
           | |- context [if ?b then (Raise ValueError, g) else _] =>
               destruct b eqn:?; [reflexivity|]
           end.
    lia. }
  unfold _select_elements_by_behavior.
  destruct Hp as [-> | ->]; exact Hbody.
Qed.

(** The default policy returns the whole list when it is not longer than
    [max_count]. *)
Lemma select_default_short (behavior : UserBehavior)
  (scored_elements : list (WebElement * Q)) (max_count : Z) (g : rng) :
  pattern behavior = CASUAL \/ pattern behavior = RESEARCHER ->
  (Z.of_nat (List.length scored_elements) <= max_count)%Z ->
  _select_elements_by_behavior behavior scored_elements max_count g =
  (Ok scored_elements, g).
Proof.
  intros Hp Hl. unfold _select_elements_by_behavior.
  destruct (Z.leb_spec (Z.of_nat (List.length scored_elements)) max_count); [|lia].
  destruct Hp as [-> | ->]; reflexivity.
Qed.

(** A negative [max_count] makes the default policy raise as well. *)
Lemma select_default_negative (e1 : WebElement) (g : rng) :
  fst (_select_elements_by_behavior casual_persona [(e1, 0.5)] (-1) g) = Raise ValueError /\
  fst (_select_elements_by_behavior casual_persona [(e1, 0)] (-1) g) = Raise ValueError.
Proof. split; reflexivity. Qed.

(** ** Page analysis *)

Lemma is_element_interactive_total (element : WebElement) :
  exists b : bool, _is_element_interactive element = Ok b.
Proof.
  unfold _is_element_interactive, try_except.
  destruct (interactivity_checks element) as [b|e].
  - now exists b.
  - exists false. now destruct e.
Qed.

Lemma unique_interactive_total (elements : list WebElement) (seen : list nat) :
  exists l : list WebElement, unique_interactive elements seen = Ok l.
Proof.
  revert seen. induction elements as [|e rest IH]; intros seen; cbn.
  - now exists [].
  - destruct (existsb (Nat.eqb (py_id e)) seen); [apply IH|].
    destruct (is_element_interactive_total e) as [b ->].
    destruct (IH (py_id e :: seen)) as [l ->]. cbn. eauto.
Qed.

(** C7. An element whose interactivity checks raise a stale-reference
    exception is reported as not interactive; the interactivity test never
    raises; and [find_interactive_elements] returns a list for every page,
    whatever queries and checks raise along the way. *)
Theorem stale_element_is_not_interactive (element : WebElement) (find : page)
  (next_id : nat) :
  (interactivity_checks element = Raise StaleElementReferenceException ->
   _is_element_interactive element = Ok false) /\
  (exists b : bool, _is_element_interactive element = Ok b) /\
  (exists l : list WebElement,
      fst (find_interactive_elements find next_id) = Ok l).
Proof.
  split.
  { intros H. unfold _is_element_interactive. now rewrite H. }
  split; [apply is_element_interactive_total|].
  unfold find_interactive_elements.
  destruct (collect_elements find selectors next_id) as [elements n].
  cbn [fst]. apply unique_interactive_total.
Qed.

Lemma stale_element_is_not_interactive_witness :
  interactivity_checks (mkWebElement 7 (stale_node 4)) =
    Raise StaleElementReferenceException /\
  _is_element_interactive (mkWebElement 7 (stale_node 4)) = Ok false /\
  fst (find_interactive_elements flaky_page 0) = Ok [mkWebElement 1 submit_button].
Proof.
  split; [reflexivity|].
  split.
  - exact (proj1 (stale_element_is_not_interactive
                    (mkWebElement 7 (stale_node 4)) flaky_page 0) eq_refl).
  - reflexivity.
Defined.

(** *** Duplicates *)

Lemma wrap_ids (next_id : nat) (nodes : list DomNode) :
  map py_id (wrap next_id nodes) = seq next_id (List.length nodes).
Proof.
  revert next_id. induction nodes as [|n rest IH]; intros next_id; cbn;
    [reflexivity|now rewrite IH].
Qed.

(** The objects collected over all selectors carry consecutive identities:
    no two of them are the same object. *)
Lemma collect_elements_ids (find : page) (sels : list string) (next_id : nat) :
  map py_id (fst (collect_elements find sels next_id)) =
  seq next_id (snd (collect_elements find sels next_id) - next_id) /\
  (next_id <= snd (collect_elements find sels next_id))%nat.
Proof.
  revert next_id. induction sels as [|sel rest IH]; intros next_id; cbn.
  - rewrite Nat.sub_diag. split; [reflexivity|lia].
  - unfold find_elements. destruct (find sel) as [nodes|e].
    + specialize (IH (next_id + List.length nodes)%nat).
      destruct (collect_elements find rest _) as [more n]. cbn [fst snd] in *.
      destruct IH as [IH Hle]. split; [|lia].
      rewrite map_app, wrap_ids, IH.
      replace (n - next_id)%nat
        with (List.length nodes + (n - (next_id + List.length nodes)))%nat by lia.
      now rewrite seq_app.
    + apply IH.
Qed.

Lemma existsb_eqb_In (x : nat) (l : list nat) :
  existsb (Nat.eqb x) l = true <-> In x l.
Proof.
  rewrite existsb_exists. split.
  - intros (y & Hy & E). apply Nat.eqb_eq in E. now subst.
  - intros H. exists x. split; [assumption|apply Nat.eqb_refl].
Qed.

(** On objects that are pairwise distinct the [seen] test never fires: the
    second loop is the interactivity filter and nothing else. *)
Lemma unique_interactive_distinct (elements : list WebElement) (seen : list nat) :
  NoDup (map py_id elements) ->
  (forall e, In e elements -> ~ In (py_id e) seen) ->
  unique_interactive elements seen = Ok (filter interactive elements).
Proof.
  revert seen. induction elements as [|e rest IH]; intros seen Hnd Hseen; cbn;
    [reflexivity|].
  inversion Hnd as [|? ? Hnotin Hnd']; subst.
  destruct (existsb (Nat.eqb (py_id e)) seen) eqn:E.
  { apply existsb_eqb_In in E. elim (Hseen e); [now left|assumption]. }
  unfold interactive.
  destruct (is_element_interactive_total e) as [b ->].
  rewrite (IH (py_id e :: seen)); [destruct b; reflexivity|assumption|].
  intros e' He' [Heq|Hin].
  - apply Hnotin. rewrite Heq. now apply in_map.
  - apply (Hseen e'); [now right|assumption].
Qed.

(** For every page, the result is the list of all matches, selector by
    selector, that pass the interactivity test: first-seen order is kept and
    every entry is interactive, but a node matched by several selectors is
    kept once per match. *)
Lemma find_interactive_elements_is_filter (find : page) (next_id : nat) :
  fst (find_interactive_elements find next_id) =
  Ok (filter interactive (fst (collect_elements find selectors next_id))).
Proof.
  unfold find_interactive_elements.
  pose proof (collect_elements_ids find selectors next_id) as [Hids _].
  destruct (collect_elements find selectors next_id) as [elements n].
  cbn [fst snd] in *.
  apply unique_interactive_distinct; [|intros e _ []].
  rewrite Hids. apply seq_NoDup.
Qed.

(** C6. On a page whose single button matches two selectors of the catalog,
    [find_interactive_elements] returns two entries for the one DOM node:
    the duplicate test compares the identities of the Python objects, and
    the two matches are two objects. *)
Theorem find_interactive_elements_keeps_duplicates :
  exists w1 w2 : WebElement,
    fst (find_interactive_elements one_button_page 0) = Ok [w1; w2] /\
    node_id (dom w1) = node_id (dom w2) /\
    dom w1 = submit_button /\ dom w2 = submit_button /\
    py_id w1 <> py_id w2.
Proof.
  exists (mkWebElement 0 submit_button), (mkWebElement 1 submit_button).
  split; [reflexivity|]. cbn. repeat split; auto.
Qed.

(** ** The input handler *)

Lemma py_or_other (t default : string) :
  t <> EmptyString -> py_or (Some t) default = t.
Proof. intros H. destruct t; [now elim H|reflexivity]. Qed.

(** C10 (amended). For every input element whose [type] attribute is a
    non-empty string other than text, email, password and search, the input
    handler issues no command at all, draws no random number and does not
    raise; an absent and an empty [type] attribute are both handled as text;
    and whenever the handler adds anything to the trace, the kind it acted
    on is one of the four. *)
Theorem handle_input_other_types (behavior : UserBehavior) (element : WebElement)
  (t : string) (s : Run.state) :
  get_attribute (dom element) "type" = Ok (Some t) ->
  t <> EmptyString ->
  t <> "text"%string -> t <> "email"%string ->
  t <> "password"%string -> t <> "search"%string ->
  _handle_input behavior element s = (Ok tt, s) /\
  (forall element' : WebElement,
      get_attribute (dom element') "type" = Ok None \/
      get_attribute (dom element') "type" = Ok (Some EmptyString) ->
      _handle_input behavior element' s =
      Run.bind (_generate_realistic_text element')
               (_type_like_human behavior element') s) /\
  (forall element' : WebElement,
      Run.trace (snd (_handle_input behavior element' s)) <> Run.trace s ->
      exists ty : option string,
        get_attribute (dom element') "type" = Ok ty /\
        In (py_or ty "text") ["text"; "email"; "password"; "search"]%string).
Proof.
  intros Hty Hne H1 H2 H3 H4. split; [|split].
  - unfold _handle_input, Run.bind, Run.lift. rewrite Hty.
    rewrite py_or_other by assumption.
    apply String.eqb_neq in H1, H2, H3, H4.
    now rewrite H1, H2, H3, H4.
  - intros element' [H|H];
      unfold _handle_input, Run.bind, Run.lift; rewrite H; reflexivity.
  - intros element' Htrace.
    unfold _handle_input, Run.bind, Run.lift in Htrace.
    destruct (get_attribute (dom element') "type") as [ty|e];
      [|now elim Htrace].
    exists ty. split; [reflexivity|].
    destruct (String.eqb_spec (py_or ty "text") "text") as [->|_];
      [now left|].
    destruct (String.eqb_spec (py_or ty "text") "email") as [->|_];
      [right; now left|].
    destruct (String.eqb_spec (py_or ty "text") "password") as [->|_];
      [right; right; now left|].
    destruct (String.eqb_spec (py_or ty "text") "search") as [->|_];
      [right; right; right; now left|].
    now elim Htrace.
Qed.

Lemma handle_input_other_types_witness :
  _handle_input casual_persona (mkWebElement 9 (input_node 5 (Some "checkbox"%string)))
                (Run.start (constant 0.5))
  = (Ok tt, Run.start (constant 0.5)).
Proof.
  apply (handle_input_other_types casual_persona
           (mkWebElement 9 (input_node 5 (Some "checkbox"%string)))
           "checkbox"%string (Run.start (constant 0.5)));
    [reflexivity|discriminate..].
Defined.

(** C10, as stated, fails for an empty [type] attribute: it is none of the
    four kinds, yet [type or 'text'] makes it text and the field is cleared
    and typed into. *)
Lemma handle_input_empty_type_counterexample :
  let element := mkWebElement 9 (input_node 5 (Some EmptyString)) in
  get_attribute (dom element) "type" = Ok (Some EmptyString) /\
  existsb is_text_entry
    (Run.trace (snd (_handle_input casual_persona element (Run.start (constant 0.5)))))
  = true.
Proof. split; [reflexivity|]. vm_compute. reflexivity. Qed.

(** ** Post-click handling *)

(** C9. When the two evaluations of [driver.current_url] of the post-click
    handler give the same answer, the handler adds no navigation report to
    the trace (no "Navigated ..." log line, no [back()]) and returns
    normally: the comparison can never detect a change. *)
Theorem handle_post_click_never_detects (browser : Browser) (s : Run.state) :
  current_url browser 1 = current_url browser 0 ->
  exists new : list action,
    fst (_handle_post_click browser s) = Ok tt /\
    Run.trace (snd (_handle_post_click browser s)) = Run.trace s ++ new /\
    forallb (fun a => negb (is_navigation_report a)) new = true.
Proof.
  intros Hsame.
  unfold _handle_post_click, Run.try_catch, Run.bind, Run.lift, Run.draw,
    Run.emit, Run.ret.
  cbn. rewrite Hsame.
  destruct (alert_text browser) as [txt|e1]; cbn;
    [destruct (alert_accept browser) as [[]|e2]; cbn|];
    (destruct (current_url browser 0) as [url|e3]; cbn;
     [rewrite String.eqb_refl; cbn|]);
    eexists; (split; [reflexivity|]);
    (split; [rewrite <- ?app_assoc; reflexivity|reflexivity]).
Qed.

Lemma handle_post_click_never_detects_witness :
  current_url steady_browser 1 = current_url steady_browser 0 /\
  exists new : list action,
    fst (_handle_post_click steady_browser (Run.start (constant 0.2))) = Ok tt /\
    Run.trace (snd (_handle_post_click steady_browser (Run.start (constant 0.2))))
    = Run.trace (Run.start (constant 0.2)) ++ new /\
    forallb (fun a => negb (is_navigation_report a)) new = true.
Proof.
  split; [reflexivity|].
  apply (handle_post_click_never_detects steady_browser (Run.start (constant 0.2))).
  reflexivity.
Defined.

(** The branch is live in the model: answers that differ between the two
    reads are reported, and with a draw below 0.3 the handler goes back. *)
Lemma handle_post_click_reports_change :
  Run.trace (snd (_handle_post_click moving_browser (Run.start (constant 0.2)))) =
  [Sleep (0.5 + (1.5 - 0.5) * 0.2);
   LogInfo "Navigated to: https://example.test/form";
   Sleep (2 + (5 - 2) * 0.2); Back; LogInfo "Navigated back"].
Proof. reflexivity. Qed.

(** ** Session cleanup *)

(** C8 (amended). [cleanup] assigns no field of the session, so a second
    call does what the first did: with a driver object present it issues
    [quit()] again (after logging the session data again when monitoring is
    on) and raises exactly when that [quit()] raises; it issues nothing only
    when the session has no driver object.  The session state is the same
    after either call. *)
Theorem cleanup_twice (quit1 quit2 : result unit) (s : Session) :
  let '(r1, s1, t1) := cleanup quit1 s in
  let '(r2, s2, t2) := cleanup quit2 s1 in
  s1 = s /\ s2 = s /\
  (driver s = None -> r2 = Ok tt /\ t2 = []) /\
  (driver s <> None ->
     In Quit t2 /\ r2 = quit2 /\ (quit2 = quit1 -> t2 = t1)).
Proof.
  unfold cleanup.
  destruct (driver s) as [d|] eqn:Hd.
  - destruct quit1 as [[]|e1], quit2 as [[]|e2]; rewrite ?Hd;
      (split; [reflexivity|]); (split; [reflexivity|]);
      (split; [discriminate|]); intros _;
      (split; [apply in_or_app; right; now left|]);
      (split; [reflexivity|]); intros H;
      first [discriminate H | reflexivity | now injection H as ->].
  - destruct quit1 as [[]|e1]; rewrite ?Hd;
      (split; [reflexivity|]); (split; [reflexivity|]);
      (split; [intros _; split; reflexivity|]); intros H; now elim H.
Qed.

Lemma cleanup_twice_witness :
  let '(r1, s1, t1) := cleanup (Ok tt) running_session in
  let '(r2, s2, t2) := cleanup (Ok tt) s1 in
  s2 = running_session /\ r2 = Ok tt /\ t2 = t1 /\ In Quit t2.
Proof.
  pose proof (cleanup_twice (Ok tt) (Ok tt) running_session) as H.
  cbn in H |- *. destruct H as (_ & Hs & _ & H).
  destruct H as (Hin & Hr & Ht); [discriminate|].
  repeat split; auto.
Defined.

(** C8, as stated, fails: the second [cleanup] of a running session is not
    free of driver operations, it sends [quit()] to the driver again. *)
Lemma cleanup_twice_counterexample :
  let '(r1, s1, t1) := cleanup (Ok tt) running_session in
  let '(r2, s2, t2) := cleanup (Ok tt) s1 in
  existsb is_driver_operation t2 = true /\ t2 <> [].
Proof. cbn. split; [reflexivity|discriminate]. Qed.

(** ** Scenarios *)

(** The scenario of the specification: only the button is found, its
    deterministic sub-score is 0.3 + 0.2 + 0.3 + 0.4 added as doubles, and a
    Focused persona with a budget of five selects exactly that element. *)
Example submit_scenario :
  let button := mkWebElement 0 plain_submit_button in
  fst (find_interactive_elements scenario_page 0) = Ok [button] /\
  (exists q, score_subtotal button = Ok q /\
             q = fold_left Float64.add (map Float64.double [0.3; 0.2; 0.3; 0.4]) 0) /\
  (exists score,
      fst (_score_elements focused_persona [button] (constant 0.5)) = [(button, score)] /\
      fst (_select_elements_by_behavior focused_persona [(button, score)] 5 (constant 0.5))
      = Ok [(button, score)]).
Proof.
  cbn zeta. split; [reflexivity|].
  split; [eexists; split; vm_compute; reflexivity|].
  eexists. split; vm_compute; reflexivity.
Qed.

(** The failure of the default policy, end to end: a Casual persona of
    curiosity 0, the submit button and two plain footer blocks, a budget of
    two.  Scoring gives one positive score and two zero scores, and the
    selection raises. *)
Example score_then_select_raises :
  let elements := wrap 0 [submit_button; footer_div 2; footer_div 3] in
  let scored := fst (_score_elements incurious_persona elements (constant 0.5)) in
  map (fun es => Qeq_bool (snd es) 0) scored = [false; true; true] /\
  fst (_select_elements_by_behavior incurious_persona scored 2 (constant 0.5))
  = Raise ValueError.
Proof. cbn zeta. split; vm_compute; reflexivity. Qed.

(** * Further properties of the code *)

(** ** Interactivity *)

(** X1. An element is reported interactive exactly when it is displayed,
    enabled, at least five pixels wide and high, and inside the viewport,
    every one of these queries having answered; in every other case,
    whether a query answers otherwise or raises, the result is [False]. *)
Theorem is_element_interactive_true_iff (element : WebElement) :
  (_is_element_interactive element = Ok true <->
   is_displayed (dom element) = Ok true /\
   is_enabled (dom element) = Ok true /\
   (exists w h : Q, size (dom element) = Ok (w, h) /\ 5 <= w /\ 5 <= h) /\
   in_viewport (dom element) = Ok true) /\
  (_is_element_interactive element = Ok true \/
   _is_element_interactive element = Ok false).
Proof.
  split;
    [|destruct (is_element_interactive_total element) as [[|] E]; [now left|now right]].
  unfold _is_element_interactive, try_except, interactivity_checks, Py.bind.
  destruct (is_displayed (dom element)) as [[|]|e1];
    [|split; [discriminate|intros (H & _); discriminate]
     |split; [now destruct e1|intros (H & _); discriminate]].
  destruct (is_enabled (dom element)) as [[|]|e2]; cbn [negb];
    [|split; [discriminate|intros (_ & H & _); discriminate]
     |split; [now destruct e2|intros (_ & H & _); discriminate]].
  destruct (size (dom element)) as [[w h]|e3]; cbn [fst snd];
    [|split; [now destruct e3|intros (_ & _ & (w & h & H & _) & _); discriminate]].
  destruct (Qlt_bool w 5) eqn:Ew; cbn [orb].
  { split; [discriminate|]. intros (_ & _ & (w' & h' & H & Hw & _) & _).
    injection H as <- <-. apply Qlt_bool_iff in Ew. now apply Qlt_not_le in Ew. }
  destruct (Qlt_bool h 5) eqn:Eh.
  { split; [discriminate|]. intros (_ & _ & (w' & h' & H & _ & Hh) & _).
    injection H as <- <-. apply Qlt_bool_iff in Eh. now apply Qlt_not_le in Eh. }
  assert (Hw : 5 <= w).
  { apply Qnot_lt_le. intros H. apply Qlt_bool_iff in H. congruence. }
  assert (Hh : 5 <= h).
  { apply Qnot_lt_le. intros H. apply Qlt_bool_iff in H. congruence. }
  destruct (in_viewport (dom element)) as [[|]|e4].
  - split; [|reflexivity]. intros _. repeat split; try reflexivity.
    now exists w, h.
  - split; [discriminate|intros (_ & _ & _ & H); discriminate].
  - split; [now destruct e4|intros (_ & _ & _ & H); discriminate].
Qed.

(** ** Scoring: which elements are kept, and the range of scores *)

Lemma score_loop_rng (behavior : UserBehavior) (elements : list WebElement) (g : rng) :
  tape (snd (score_loop behavior elements g)) = tape g /\
  pos (snd (score_loop behavior elements g)) =
  (pos g + List.length (fst (score_loop behavior elements g)))%nat.
Proof.
  revert g. induction elements as [|e rest IH]; intros g; cbn.
  - split; [reflexivity|lia].
  - unfold score_element. destruct (score_subtotal e) as [q|ex]; cbn.
    + specialize (IH (mkRng (tape g) (S (pos g)))).
      destruct (score_loop behavior rest _) as [scored g'']. cbn in *.
      destruct IH as [-> ->]. split; [reflexivity|lia].
    + apply IH.
Qed.

(** X3. [_score_elements] keeps exactly the elements all of whose reads
    succeed (the others are dropped silently), each once, and consumes one
    random draw per element kept and none for a dropped one. *)
Theorem score_elements_keeps_readable (behavior : UserBehavior)
  (elements : list WebElement) (g : rng) :
  let scored := fst (_score_elements behavior elements g) in
  let g' := snd (_score_elements behavior elements g) in
  Permutation (map fst scored) (filter readable elements) /\
  List.length scored = List.length (filter readable elements) /\
  tape g' = tape g /\
  pos g' = (pos g + List.length (filter readable elements))%nat.
Proof.
  cbn zeta. unfold _score_elements.
  pose proof (score_loop_entries behavior elements g) as [Hfst _].
  pose proof (score_loop_rng behavior elements g) as [Ht Hp].
  destruct (score_loop behavior elements g) as [discovered g']. cbn [fst snd] in *.
  assert (Hlen : List.length discovered = List.length (filter readable elements)).
  { now rewrite <- Hfst, length_map. }
  split.
  { rewrite <- Hfst. apply Permutation_map. symmetry. apply sort_desc_perm. }
  split.
  { rewrite <- Hlen. symmetry. apply Permutation_length, sort_desc_perm. }
  split; [assumption|]. now rewrite Hp, Hlen.
Qed.

(** *** Rounding keeps the sign *)

Lemma nearest_even_nonneg (y : Q) : 0 <= y -> (0 <= Float64.nearest_even y)%Z.
Proof.
  intros Hy. unfold Float64.nearest_even.
  assert (H : (0 <= Qfloor y)%Z).
  { change 0%Z with (Qfloor 0). now apply Qfloor_resp_le. }
  destruct (Qlt_bool _ _); [assumption|].
  destruct (Qlt_bool _ _); [lia|].
  destruct (Z.even _); lia.
Qed.

Lemma round_nonneg (x : Q) : 0 <= x -> 0 <= Float64.round x.
Proof.
  intros Hx. unfold Float64.round.
  destruct (Qeq_bool x 0); [apply Qle_refl|].
  destruct (Qlt_bool x 0) eqn:E.
  { apply Qlt_bool_iff in E. exfalso. apply (Qlt_irrefl x).
    eapply Qlt_le_trans; eassumption. }
  rewrite Qred_correct.
  apply Qmult_le_0_compat; [|apply Qpower_0_le; discriminate].
  change 0 with (inject_Z 0). rewrite <- Zle_Qle.
  apply nearest_even_nonneg. unfold Qdiv.
  apply Qmult_le_0_compat; [apply Qabs_nonneg|].
  apply Qinv_le_0_compat, Qpower_0_le. discriminate.
Qed.

Lemma double_nonneg (q : Q) : 0 <= q -> 0 <= Float64.double q.
Proof. apply round_nonneg. Qed.

Lemma add_nonneg (a b : Q) : 0 <= a -> 0 <= b -> 0 <= Float64.add a b.
Proof.
  intros Ha Hb. apply round_nonneg.
  apply Qle_trans with (0 + 0); [apply Qle_refl|now apply Qplus_le_compat].
Qed.

Lemma mul_nonneg (a b : Q) : 0 <= a -> 0 <= b -> 0 <= Float64.mul a b.
Proof. intros Ha Hb. apply round_nonneg. now apply Qmult_le_0_compat. Qed.

Lemma random_term_nonneg (behavior : UserBehavior) (g : rng) (i : nat) :
  valid g -> 0 <= curiosity_level behavior -> 0 <= random_term behavior g i.
Proof.
  intros Hg Hc. unfold random_term, uniform_float, random. cbn [fst tape pos].
  apply add_nonneg; [apply Qle_refl|].
  apply mul_nonneg; [|apply Hg].
  apply round_nonneg.
  assert (H : 0 <= Float64.mul (curiosity_level behavior) (Float64.double 0.3)).
  { apply mul_nonneg; [assumption|]. apply double_nonneg. discriminate. }
  unfold Qminus. apply Qle_trans with (0 + - 0); [apply Qle_refl|].
  apply Qplus_le_compat; [assumption|apply Qle_refl].
Qed.

(** The sub-total is one of finitely many doubles; the largest is the sum
    of all five terms. *)
Lemma score_subtotal_range (element : WebElement) (q : Q) :
  score_subtotal element = Ok q ->
  0 <= q /\
  q <= fold_left Float64.add (map Float64.double [0.3; 0.2; 0.3; 0.4; 0.2]) 0.
Proof.
  unfold score_subtotal.
  destruct (location (dom element)) as [lo|]; [|discriminate].
  destruct (size (dom element)) as [sz|]; [|discriminate].
  destruct (tag_name (dom element)) as [tg|]; [|discriminate].
  destruct (text (dom element)) as [tx|]; [|discriminate].
  destruct (get_attribute (dom element) "class") as [cl|]; [|discriminate].
  cbn [Py.bind].
  set (b1 := Qlt_bool (snd lo) 800).
  set (b2 := Qlt_bool 100 (fst sz) && Qlt_bool 30 (snd sz)).
  set (t1 := String.eqb (Str.lower tg) "button").
  set (t2 := String.eqb (Str.lower tg) "a").
  set (t3 := String.eqb (Str.lower tg) "input").
  set (b4 := existsb _ high_priority_words).
  set (b5 := Str.contains "primary" (or_empty cl) || Str.contains "main" (or_empty cl)).
  clearbody b1 b2 t1 t2 t3 b4 b5.
  intros H. injection H as <-.
  destruct b1, b2, t1, t2, t3, b4, b5;
    (split; apply Qle_bool_iff; vm_compute; reflexivity).
Qed.

(** X4. With a random source that draws from [0, 1) and a non-negative
    curiosity level, no score [_score_elements] returns is negative: each is
    a sub-total between 0 and the double sum 0.3 + 0.2 + 0.3 + 0.4 + 0.2, plus
    a non-negative random term.  That largest sub-total is the one of a
    large primary Submit button above the fold, and it is
    1.4000000000000001, above 1.4. *)
Theorem score_elements_range (behavior : UserBehavior)
  (elements : list WebElement) (g : rng) :
  valid g -> 0 <= curiosity_level behavior ->
  let largest := fold_left Float64.add (map Float64.double [0.3; 0.2; 0.3; 0.4; 0.2]) 0 in
  Forall (fun es =>
            0 <= snd es /\
            exists q i, 0 <= q /\ q <= largest /\ 0 <= random_term behavior g i /\
                        snd es = Float64.add q (random_term behavior g i))
         (fst (_score_elements behavior elements g)) /\
  score_subtotal (mkWebElement 0 submit_button) = Ok largest /\
  1.4 < largest.
Proof.
  intros Hg Hc. cbn zeta. split; [|split; vm_compute; reflexivity].
  unfold _score_elements.
  pose proof (score_loop_entries behavior elements g) as [_ He].
  destruct (score_loop behavior elements g) as [discovered g']. cbn [fst] in *.
  apply (Permutation_Forall (sort_desc_perm discovered)).
  apply Forall_forall. intros [e total] Hin.
  apply In_nth_error in Hin. destruct Hin as [i Hi].
  destruct (He i e total Hi) as (q & Hq & ->).
  destruct (score_subtotal_range e q Hq) as [Hq0 Hq1].
  pose proof (random_term_nonneg behavior g i Hg Hc) as Hr.
  cbn [snd]. split; [now apply add_nonneg|].
  exists q, i. repeat split; assumption.
Qed.

Lemma score_elements_range_witness :
  let largest := fold_left Float64.add (map Float64.double [0.3; 0.2; 0.3; 0.4; 0.2]) 0 in
  Forall (fun es =>
            0 <= snd es /\
            exists q i, 0 <= q /\ q <= largest /\
                        0 <= random_term casual_persona (constant 0.5) i /\
                        snd es = Float64.add q (random_term casual_persona (constant 0.5) i))
         (fst (_score_elements casual_persona
                 (wrap 0 [submit_button; stale_node 4; footer_div 2]) (constant 0.5))) /\
  score_subtotal (mkWebElement 0 submit_button) = Ok largest /\
  1.4 < largest.
Proof.
  assert (Hv : valid (constant 0.5)).
  { intros i. cbn. split; unfold Qle, Qlt; cbn; lia. }
  assert (Hc : 0 <= curiosity_level casual_persona) by (unfold Qle; cbn; lia).
  exact (score_elements_range casual_persona _ (constant 0.5) Hv Hc).
Defined.

(** ** The random source, continued *)

Lemma valid_constant_half : valid (constant 0.5).
Proof. intros i. cbn. split; unfold Qle, Qlt; cbn; lia. Qed.

Lemma randbelow_range (n : Z) (g : rng) :
  valid g -> (0 < n)%Z -> (0 <= fst (randbelow n g) < n)%Z.
Proof.
  intros Hg Hn. unfold randbelow, random. cbn [fst].
  destruct (Hg (pos g)) as [H0 H1]. set (u := tape g (pos g)) in *.
  assert (Hn' : 0 < inject_Z n).
  { change 0 with (inject_Z 0). now rewrite <- Zlt_Qlt. }
  split.
  - change 0%Z with (Qfloor 0). apply Qfloor_resp_le.
    apply Qmult_le_0_compat; [assumption|now apply Qlt_le_weak].
  - rewrite Zlt_Qlt. apply Qle_lt_trans with (u * inject_Z n); [apply Qfloor_le|].
    rewrite <- (Qmult_1_l (inject_Z n)) at 2.
    apply Qmult_lt_compat_r; assumption.
Qed.

Lemma randbelow_tape (n : Z) (g : rng) : tape (snd (randbelow n g)) = tape g.
Proof. reflexivity. Qed.

(** ** [random.sample] takes distinct positions of the population *)

Lemma set_nth_app {A : Type} (a b : list A) (x y : A) :
  set_nth (List.length a) y (a ++ x :: b) = a ++ y :: b.
Proof. induction a as [|c a IH]; cbn; [reflexivity|now rewrite IH]. Qed.

Lemma pool_step {A : Type} (pool : list A) (j : nat) (x z : A) :
  nth_error pool j = Some x ->
  nth_error pool (List.length pool - 1) = Some z ->
  Permutation (x :: firstn (List.length pool - 1) (set_nth j z pool)) pool /\
  List.length (firstn (List.length pool - 1) (set_nth j z pool)) =
  (List.length pool - 1)%nat.
Proof.
  intros Hx Hz.
  apply nth_error_split in Hx. destruct Hx as (a & b & -> & <-).
  rewrite set_nth_app.
  destruct (exists_last (l := x :: b)) as (b' & w & Hb); [discriminate|].
  assert (Hw : w = z).
  { rewrite Hb in Hz. rewrite app_assoc in Hz.
    rewrite nth_error_app2 in Hz by (rewrite !length_app; cbn; lia).
    rewrite !length_app in Hz. cbn in Hz.
    replace (List.length a + List.length b' + 1 - 1 - (List.length a + List.length b'))%nat
      with 0%nat in Hz by lia.
    cbn in Hz. congruence. }
  subst w.
  assert (Hlen : List.length (a ++ x :: b) = S (List.length a + List.length b')).
  { rewrite length_app. cbn. apply (f_equal (@List.length A)) in Hb.
    rewrite length_app in Hb. cbn in Hb. lia. }
  rewrite Hlen. replace (S (List.length a + List.length b') - 1)%nat
    with (List.length a + List.length b')%nat by lia.
  destruct b' as [|y b'].
  - cbn in Hb. injection Hb as -> ->.
    rewrite Nat.add_0_r, firstn_app, Nat.sub_diag, firstn_all. cbn.
    rewrite app_nil_r. split; [apply Permutation_cons_append|reflexivity].
  - cbn in Hb. injection Hb as <- ->.
    rewrite firstn_app, firstn_all2 by lia.
    replace (List.length a + List.length (x :: b') - List.length a)%nat
      with (S (List.length b')) by (cbn; lia).
    cbn [firstn]. rewrite firstn_app, firstn_all, Nat.sub_diag. cbn [firstn].
    rewrite app_nil_r. split.
    + apply Permutation_trans with (x :: a ++ b' ++ [z]);
        [|apply Permutation_middle].
      apply perm_skip, Permutation_app_head, Permutation_cons_append.
    + rewrite length_app. cbn. lia.
Qed.

(** The picks of the selection loop, together with what is left, are the
    pool: every pick is an entry of the pool and no position is taken
    twice. *)
Lemma sample_pool_spec {A : Type} (k : nat) (pool : list A) (g : rng) :
  valid g -> (k <= List.length pool)%nat ->
  List.length (fst (sample_pool pool k g)) = k /\
  (exists rest, Permutation (fst (sample_pool pool k g) ++ rest) pool) /\
  tape (snd (sample_pool pool k g)) = tape g.
Proof.
  revert pool g. induction k as [|k IH]; intros pool g Hg Hk; cbn [sample_pool].
  - cbn. split; [reflexivity|]. split; [now exists pool|reflexivity].
  - pose proof (randbelow_range (Z.of_nat (List.length pool)) g Hg ltac:(lia)) as Hj.
    pose proof (randbelow_tape (Z.of_nat (List.length pool)) g) as Ht.
    destruct (randbelow (Z.of_nat (List.length pool)) g) as [j g']. cbn [fst snd] in *.
    destruct (nth_error pool (Z.to_nat j)) as [x|] eqn:Ex;
      [|apply nth_error_None in Ex; lia].
    destruct (nth_error pool (List.length pool - 1)) as [z|] eqn:Ez;
      [|apply nth_error_None in Ez; lia].
    destruct (pool_step pool (Z.to_nat j) x z Ex Ez) as [Hperm Hlen].
    assert (Hg' : valid g') by (intros i; rewrite Ht; apply Hg).
    specialize (IH (firstn (List.length pool - 1) (set_nth (Z.to_nat j) z pool)) g' Hg'
                   ltac:(lia)).
    destruct (sample_pool _ k g') as [picks g'']. cbn [fst snd] in *.
    destruct IH as (Hl & (rest & Hr) & Ht').
    split; [cbn; now rewrite Hl|].
    split; [|now rewrite Ht', Ht].
    exists rest. cbn. rewrite <- Hperm. now apply perm_skip.
Qed.

Lemma random_sample_spec {A : Type} (population : list A) (k : Z) (g : rng) :
  valid g -> (0 <= k <= Z.of_nat (List.length population))%Z ->
  exists picks : list A,
    fst (random_sample population k g) = Ok picks /\
    List.length picks = Z.to_nat k /\
    (exists rest, Permutation (picks ++ rest) population) /\
    tape (snd (random_sample population k g)) = tape g.
Proof.
  intros Hg Hk. unfold random_sample.
  destruct (Z.ltb_spec k 0); [lia|].
  destruct (Z.ltb_spec (Z.of_nat (List.length population)) k); [lia|]. cbn [orb].
  pose proof (sample_pool_spec (Z.to_nat k) population g Hg ltac:(lia)) as H1.
  destruct (sample_pool population (Z.to_nat k) g) as [picks g']. cbn [fst snd] in *.
  exists picks. destruct H1 as (Hl & Hr & Ht). auto.
Qed.

(** ** Selection under the other patterns *)

Lemma sorted_desc_app_le {A : Type} (l1 l2 : list (A * Q)) :
  sorted_desc (l1 ++ l2) ->
  forall a b, In a l1 -> In b l2 -> snd b <= snd a.
Proof.
  unfold sorted_desc. induction l1 as [|x l1 IH]; intros Hs a b Ha Hb; [destruct Ha|].
  cbn in Hs. inversion Hs as [|? ? Hs' Hx]; subst.
  destruct Ha as [<-|Ha].
  - rewrite Forall_forall in Hx. apply Hx, in_or_app. now right.
  - now apply IH.
Qed.

(** X5. Under the Scanner pattern with a budget [max_count >= 0], the
    selection is the first min(3, max_count) entries of the scored list (all
    of them if the list is shorter), no randomness is consumed, and on a list
    in descending score order nothing left out scores higher than anything
    selected. *)
Theorem select_scanner (behavior : UserBehavior)
  (scored_elements : list (WebElement * Q)) (max_count : Z) (g : rng) :
  pattern behavior = SCANNER -> (0 <= max_count)%Z ->
  exists out rest : list (WebElement * Q),
    _select_elements_by_behavior behavior scored_elements max_count g = (Ok out, g) /\
    scored_elements = out ++ rest /\
    Z.of_nat (List.length out) =
      Z.min (Z.min 3 max_count) (Z.of_nat (List.length scored_elements)) /\
    (sorted_desc scored_elements ->
     forall a b, In a out -> In b rest -> snd b <= snd a).
Proof.
  intros Hp Hk. unfold _select_elements_by_behavior. rewrite Hp.
  rewrite slice_to_nonneg by lia.
  exists (firstn (Z.to_nat (Z.min 3 max_count)) scored_elements),
         (skipn (Z.to_nat (Z.min 3 max_count)) scored_elements).
  split; [reflexivity|].
  split; [symmetry; apply firstn_skipn|].
  split; [rewrite length_firstn; lia|].
  intros Hs. apply sorted_desc_app_le. now rewrite firstn_skipn.
Qed.

Lemma select_scanner_witness :
  pattern (mkUserBehavior SCANNER 450 6 0.7 5 0.5) = SCANNER /\ (0 <= 5)%Z /\
  exists out rest : list (WebElement * Q),
    _select_elements_by_behavior (mkUserBehavior SCANNER 450 6 0.7 5 0.5)
      (map (fun n => (mkWebElement n submit_button, 1.2)) (seq 0 4))
      5 (constant 0.5) = (Ok out, constant 0.5) /\
    Z.of_nat (List.length out) = 3%Z.
Proof.
  split; [reflexivity|]. split; [lia|].
  destruct (select_scanner (mkUserBehavior SCANNER 450 6 0.7 5 0.5)
              (map (fun n => (mkWebElement n submit_button, 1.2)) (seq 0 4))
              5 (constant 0.5) eq_refl ltac:(lia)) as (out & rest & H & _ & Hl & _).
  exists out, rest. split; [exact H|exact Hl].
Defined.

Lemma slice_from_nonneg {A : Type} (l : list A) (k : Z) :
  (0 <= k)%Z -> slice_from l k = skipn (Z.to_nat k) l.
Proof. intros H. unfold slice_from. destruct (Z.ltb_spec k 0); [lia|reflexivity]. Qed.

(** X6. Under the Explorer pattern with a budget [max_count >= 0] and a
    random source drawing from [0, 1), the selection never raises; it is the
    top [max_count / 2] entries followed by entries sampled from the others,
    no entry of the input being taken twice; and it has min(2 * (max_count /
    2), length of the input) entries, so an odd budget is never used up. *)
Theorem select_explorer (behavior : UserBehavior)
  (scored_elements : list (WebElement * Q)) (max_count : Z) (g : rng) :
  pattern behavior = EXPLORER -> (0 <= max_count)%Z -> valid g ->
  exists picks dropped : list (WebElement * Q),
    fst (_select_elements_by_behavior behavior scored_elements max_count g) =
      Ok (firstn (Z.to_nat (max_count / 2)) scored_elements ++ picks) /\
    Permutation (picks ++ dropped) (skipn (Z.to_nat (max_count / 2)) scored_elements) /\
    Permutation ((firstn (Z.to_nat (max_count / 2)) scored_elements ++ picks) ++ dropped)
                scored_elements /\
    Z.of_nat (List.length (firstn (Z.to_nat (max_count / 2)) scored_elements ++ picks)) =
      Z.min (2 * (max_count / 2)) (Z.of_nat (List.length scored_elements)) /\
    (2 * (max_count / 2) <= max_count)%Z.
Proof.
  intros Hp Hk Hg. unfold _select_elements_by_behavior. rewrite Hp.
  assert (Hh : (0 <= max_count / 2)%Z) by (apply Z.div_pos; lia).
  rewrite slice_to_nonneg, slice_from_nonneg by assumption.
  set (h := Z.to_nat (max_count / 2)) in *.
  set (rest := skipn h scored_elements).
  assert (Hrest : List.length rest = (List.length scored_elements - h)%nat)
    by apply length_skipn.
  destruct (random_sample_spec rest
              (Z.min (max_count / 2) (Z.of_nat (List.length rest))) g Hg ltac:(lia))
    as (picks & Hs & Hl & (dropped & Hperm) & _).
  destruct (random_sample rest _ g) as [r g']. cbn [fst] in Hs. subst r.
  exists picks, dropped. cbn [fst].
  split; [reflexivity|]. split; [exact Hperm|].
  split.
  { rewrite <- app_assoc. rewrite Hperm. unfold rest. now rewrite firstn_skipn. }
  split.
  { rewrite length_app, length_firstn, Hl. fold h. lia. }
  pose proof (Z.mul_div_le max_count 2 ltac:(lia)). lia.
Qed.

Lemma select_explorer_witness :
  exists out : list (WebElement * Q),
    fst (_select_elements_by_behavior (mkUserBehavior EXPLORER 300 4 0.6 10 0.8)
           (map (fun n => (mkWebElement n submit_button, 1.2)) (seq 0 9))
           5 (constant 0.5)) = Ok out /\
    Z.of_nat (List.length out) = 4%Z.
Proof.
  destruct (select_explorer (mkUserBehavior EXPLORER 300 4 0.6 10 0.8)
              (map (fun n => (mkWebElement n submit_button, 1.2)) (seq 0 9))
              5 (constant 0.5) eq_refl ltac:(lia) valid_constant_half)
    as (picks & dropped & H & _ & _ & Hl & _).
  eexists. split; [exact H|exact Hl].
Defined.

Lemma fold_left_Qplus_acc (l : list Q) :
  forall a : Q, fold_left Qplus l a == a + fold_left Qplus l 0.
Proof.
  induction l as [|w l IH]; intros a; cbn; [lra|].
  rewrite (IH (a + w)), (IH (0 + w)). lra.
Qed.

Lemma sum_zero (l : list Q) : Forall (fun w => w == 0) l -> sum l == 0.
Proof.
  unfold sum. induction 1 as [|w l Hw _ IH]; cbn; [reflexivity|].
  rewrite fold_left_Qplus_acc, IH, Hw. reflexivity.
Qed.

(** X7. Under the Casual and the Researcher pattern, when the list is longer
    than the budget [max_count >= 0] and every score is 0 (so that the
    scores sum to 0.0), the selection never raises and is a sample of
    exactly [max_count] entries of the input, none taken twice. *)
Theorem select_default_zero_weight (behavior : UserBehavior)
  (scored_elements : list (WebElement * Q)) (max_count : Z) (g : rng) :
  pattern behavior = CASUAL \/ pattern behavior = RESEARCHER ->
  (0 <= max_count < Z.of_nat (List.length scored_elements))%Z ->
  Forall (fun w => w == 0) (map snd scored_elements) ->
  valid g ->
  exists out dropped : list (WebElement * Q),
    fst (_select_elements_by_behavior behavior scored_elements max_count g) = Ok out /\
    Z.of_nat (List.length out) = max_count /\
    Permutation (out ++ dropped) scored_elements.
Proof.
  intros Hp Hk Hzero Hg.
  pose proof (sum_zero _ Hzero) as Hsum.
  destruct (random_sample_spec scored_elements
              (Z.min max_count (Z.of_nat (List.length scored_elements))) g Hg ltac:(lia))
    as (picks & Hs & Hl & (dropped & Hperm) & _).
  exists picks, dropped.
  split; [|split; [lia|exact Hperm]].
  unfold _select_elements_by_behavior.
  destruct (Z.leb_spec (Z.of_nat (List.length scored_elements)) max_count); [lia|].
  apply Qeq_bool_iff in Hsum. rewrite Hsum.
  destruct Hp as [-> | ->]; exact Hs.
Qed.

Lemma select_default_zero_weight_witness :
  exists out dropped : list (WebElement * Q),
    fst (_select_elements_by_behavior casual_persona
           (map (fun n => (mkWebElement n (footer_div n), 0)) (seq 0 4))
           2 (constant 0.5)) = Ok out /\
    Z.of_nat (List.length out) = 2%Z /\
    Permutation (out ++ dropped)
                (map (fun n => (mkWebElement n (footer_div n), 0)) (seq 0 4)).
Proof.
  apply (select_default_zero_weight casual_persona
           (map (fun n => (mkWebElement n (footer_div n), 0)) (seq 0 4))
           2 (constant 0.5)).
  - now left.
  - cbn. lia.
  - repeat constructor; reflexivity.
  - exact valid_constant_half.
Defined.

(** ** Pointer paths, continued *)

Lemma linspace01_range (num : Z) :
  (0 <= num)%Z ->
  exists ts : list Q,
    linspace01 num = Ok ts /\
    List.length ts = Z.to_nat num /\
    Forall (fun t => 0 <= t /\ t <= 1) ts.
Proof.
  intros Hn. destruct (Z_lt_le_dec num 2) as [Hlt|Hge].
  - unfold linspace01. destruct (Z.ltb_spec num 0); [lia|].
    destruct (Z.ltb_spec 0 (num - 1)); [lia|].
    eexists. split; [reflexivity|].
    split; [now rewrite length_map, length_seq|].
    assert (Hc : Z.to_nat num = 0%nat \/ Z.to_nat num = 1%nat) by lia.
    destruct Hc as [-> | ->]; cbn; repeat constructor; unfold Qle; cbn; lia.
  - rewrite linspace01_ge2 by assumption.
    exists (linspace_samples num). split; [reflexivity|].
    split; [apply linspace_samples_length|].
    apply Forall_forall. intros t Ht.
    apply (In_nth _ _ 0) in Ht. destruct Ht as (i & Hi & <-).
    rewrite linspace_samples_length in Hi.
    rewrite linspace_samples_nth by assumption.
    now apply linspace_sample_range.
Qed.



(** X10. With fewer than two explicit control points, [bezier_curve] raises
    [IndexError] as soon as one point is asked for, and returns the empty
    path when none is. *)
Theorem bezier_curve_short_controls (start end_ : point) (cps : list point)
  (n : Z) (g : rng) :
  (List.length cps < 2)%nat ->
  ((1 <= n)%Z -> bezier_curve start end_ (Some cps) n g = (Raise IndexError, g)) /\
  (n = 0%Z -> bezier_curve start end_ (Some cps) n g = (Ok [], g)).
Proof.
  intros Hc. split.
  - intros Hn. unfold bezier_curve.
    destruct (linspace01_range n ltac:(lia)) as (ts & -> & Hl & _). cbn [Py.bind].
    destruct ts as [|t ts]; [cbn in Hl; lia|].
    destruct cps as [|c0 [|c1 cps]]; [reflexivity|reflexivity|cbn in Hc; lia].
  - intros ->. reflexivity.
Qed.

Lemma bezier_curve_short_controls_witness :
  bezier_curve (0, 0) (30, 40) (Some [(10, 0)]) 50 (constant 0.5)
  = (Raise IndexError, constant 0.5).
Proof.
  apply (proj1 (bezier_curve_short_controls (0, 0) (30, 40) [(10, 0)] 50
                  (constant 0.5) ltac:(cbn; lia))).
  lia.
Defined.

Lemma Qmult_le_l_nonneg (w a b : Q) : 0 <= w -> a <= b -> w * a <= w * b.
Proof. intros Hw Hab. rewrite !(Qmult_comm w). now apply Qmult_le_compat_r. Qed.

Lemma convex_combination_range (w0 w1 w2 w3 a b c d lo hi : Q) :
  0 <= w0 -> 0 <= w1 -> 0 <= w2 -> 0 <= w3 -> w0 + w1 + w2 + w3 == 1 ->
  lo <= a <= hi -> lo <= b <= hi -> lo <= c <= hi -> lo <= d <= hi ->
  lo <= w0 * a + w1 * b + w2 * c + w3 * d <= hi.
Proof.
  intros H0 H1 H2 H3 Hs [Ha Ha'] [Hb Hb'] [Hc Hc'] [Hd Hd'].
  assert (E : forall k, k == w0 * k + w1 * k + w2 * k + w3 * k).
  { intros k. transitivity ((w0 + w1 + w2 + w3) * k); [rewrite Hs; ring|ring]. }
  split.
  - apply Qle_trans with (w0 * lo + w1 * lo + w2 * lo + w3 * lo).
    + rewrite <- (E lo). apply Qle_refl.
    + repeat apply Qplus_le_compat; apply Qmult_le_l_nonneg; assumption.
  - apply Qle_trans with (w0 * hi + w1 * hi + w2 * hi + w3 * hi).
    + repeat apply Qplus_le_compat; apply Qmult_le_l_nonneg; assumption.
    + rewrite <- (E hi). apply Qle_refl.
Qed.

Lemma control_points_range (a b lo hi u : Q) :
  lo <= a <= hi -> lo <= b <= hi -> 0 <= u -> u < 1 ->
  lo - 100 <= (a + b) / 2 + (-100 + (100 - -100) * u) <= hi + 100 /\
  lo - 100 <= (a + b) / 2 - (-100 + (100 - -100) * u) / 2 <= hi + 100.
Proof.
  intros [Ha Ha'] [Hb Hb'] Hu0 Hu1.
  assert (E1 : (a + b) / 2 + (-100 + (100 - -100) * u)
               == (1 # 2) * a + (1 # 2) * b - 100 + 200 * u) by field.
  assert (E2 : (a + b) / 2 - (-100 + (100 - -100) * u) / 2
               == (1 # 2) * a + (1 # 2) * b + 50 - 100 * u) by field.
  rewrite E1, E2. repeat split; lra.
Qed.

(** X11. With control points drawn from a random source in [0, 1), the
    pointer path never leaves the bounding box of its two end points by more
    than 100 pixels in either axis: if both ends have their coordinates
    between [lo] and [hi], every point of the path has its coordinates
    between [lo - 100] and [hi + 100]. *)
Theorem bezier_curve_stays_near (start end_ : point) (n : Z) (g : rng)
  (xlo xhi ylo yhi : Q) :
  valid g -> (0 <= n)%Z ->
  xlo <= fst start <= xhi -> xlo <= fst end_ <= xhi ->
  ylo <= snd start <= yhi -> ylo <= snd end_ <= yhi ->
  exists pts : list point,
    fst (bezier_curve start end_ None n g) = Ok pts /\
    Z.of_nat (List.length pts) = n /\
    Forall (fun p => xlo - 100 <= fst p <= xhi + 100 /\
                     ylo - 100 <= snd p <= yhi + 100) pts.
Proof.
  intros Hg Hn [Hsx Hsx'] [Hex Hex'] [Hsy Hsy'] [Hey Hey'].
  unfold bezier_curve, random_control_points, uniform, random. cbn [fst snd].
  destruct (Hg (pos g)) as [Hu0 Hu1]. destruct (Hg (S (pos g))) as [Hv0 Hv1].
  set (u := tape g (pos g)) in *. set (v := tape g (S (pos g))) in *.
  destruct (linspace01_range n Hn) as (ts & -> & Hl & Hr). cbn [Py.bind].
  rewrite mapM_bezier_two. eexists. split; [reflexivity|].
  split; [rewrite length_map; lia|].
  apply Forall_forall. intros p Hp. apply in_map_iff in Hp.
  destruct Hp as (t & <- & Ht). rewrite Forall_forall in Hr.
  destruct (Hr t Ht) as [Ht0 Ht1].
  destruct (bernstein_weights t Ht0 Ht1) as (W0 & W1 & W2 & W3 & Hsum).
  cbn [fst snd tape pos]. fold v. rewrite !bezier_coord_unfold.
  destruct (control_points_range (fst start) (fst end_) xlo xhi u) as [Hx0 Hx1];
    [split; assumption..|assumption|assumption|].
  destruct (control_points_range (snd start) (snd end_) ylo yhi v) as [Hy0 Hy1];
    [split; assumption..|assumption|assumption|].
  split; apply convex_combination_range; try assumption; split; lra.
Qed.

Lemma bezier_curve_stays_near_witness :
  exists pts : list point,
    fst (bezier_curve (0, 0) (30, 40) None 25 (constant 0.5)) = Ok pts /\
    Z.of_nat (List.length pts) = 25%Z /\
    Forall (fun p => 0 - 100 <= fst p <= 30 + 100 /\
                     0 - 100 <= snd p <= 40 + 100) pts.
Proof.
  apply (bezier_curve_stays_near (0, 0) (30, 40) 25 (constant 0.5) 0 30 0 40);
    [exact valid_constant_half|lia|cbn; split; unfold Qle; cbn; lia..].
Defined.

(** ** Typing *)

Lemma string_app_assoc (a b c : string) : ((a ++ b) ++ c = a ++ b ++ c)%string.
Proof. induction a as [|x a IH]; cbn; [reflexivity|now rewrite IH]. Qed.

Lemma string_app_nil_r (a : string) : (a ++ "")%string = a.
Proof. induction a as [|x a IH]; cbn; [reflexivity|now rewrite IH]. Qed.

Lemma remove_last_snoc (a : string) (c : ascii) :
  remove_last (a ++ String c EmptyString) = a.
Proof.
  induction a as [|x a IH]; [reflexivity|].
  cbn [String.append remove_last]. rewrite IH.
  destruct a; reflexivity.
Qed.

Lemma field_after_app (c : string) (l l' : list action) :
  field_after c (l ++ l') = field_after (field_after c l) l'.
Proof. apply fold_left_app. Qed.

Lemma total_sleep_app (l l' : list action) :
  total_sleep (l ++ l') == total_sleep l + total_sleep l'.
Proof.
  induction l as [|a l IH]; cbn; [ring|].
  destruct a; try exact IH. rewrite IH. ring.
Qed.

Lemma keystrokes_app (l l' : list action) :
  keystrokes (l ++ l') = (keystrokes l + keystrokes l')%nat.
Proof. unfold keystrokes. now rewrite filter_app, length_app. Qed.

Lemma backspaces_app (l l' : list action) :
  backspaces (l ++ l') = (backspaces l + backspaces l')%nat.
Proof. unfold backspaces. now rewrite filter_app, length_app. Qed.

Lemma delay_lower_bound (ts u : Q) :
  0 < ts -> 0 <= u -> 0.5 / ts <= 1 / ts * (0.5 + (1.5 - 0.5) * u).
Proof.
  intros Hts Hu. pose proof (Qinv_lt_0_compat ts Hts) as Hk.
  unfold Qdiv. set (k := / ts) in *. nra.
Qed.

(** The typing loop, when every [send_keys] answers: at a positive typing
    speed it returns, sends the characters of the text in order and nothing
    else to the field, and sleeps at least half the nominal delay after each
    character. *)
Lemma type_chars_spec (behavior : UserBehavior) (element : WebElement) (text : string) :
  0 < typing_speed behavior ->
  (forall j, keys_sent (dom element) j = Ok tt) ->
  forall (k : nat) (s : Run.state), valid (Run.rand s) ->
  exists (new : list action) (s' : Run.state),
    type_chars behavior element text k s = (Ok tt, s') /\
    Run.trace s' = Run.trace s ++ new /\
    tape (Run.rand s') = tape (Run.rand s) /\
    (forall c, field_after c new = (c ++ text)%string) /\
    keystrokes new = String.length text /\
    backspaces new = 0%nat /\
    inject_Z (Z.of_nat (String.length text)) * (0.5 / typing_speed behavior)
      <= total_sleep new.
Proof.
  intros Hts Hkeys. induction text as [|ch text IH]; intros k s Hs.
  - exists [], s. cbn. rewrite app_nil_r.
    repeat split; try reflexivity.
    + intros c. now rewrite string_app_nil_r.
    + unfold Qle. cbn. lia.
  - cbn [type_chars]. rewrite (Hkeys k).
    unfold Run.bind, Run.emit, Run.lift, Run.draw, Run.ret, Run.raise, uniform, random.
    cbn [Run.rand Run.trace tape pos fst snd].
    assert (Hz : Qeq_bool (typing_speed behavior) 0 = false).
    { destruct (Qeq_bool (typing_speed behavior) 0) eqn:E; [|reflexivity].
      apply Qeq_bool_iff in E. rewrite E in Hts. now apply Qlt_irrefl in Hts. }
    rewrite Hz.
    destruct s as [[tp ps] tr]. cbn [Run.rand Run.trace tape pos] in *.
    destruct (Hs ps) as [Hu0 Hu1]. cbn [tape] in Hu0, Hu1. set (u := tp ps) in *.
    pose proof (delay_lower_bound (typing_speed behavior) u Hts Hu0) as Hbase.
    destruct (Qlt_bool (tp (S ps)) 0.1) eqn:Er.
    + destruct (Hs (S (S ps))) as [Hv0 Hv1]. cbn [tape] in Hv0, Hv1.
      destruct (IH (S k) (Run.mkState (mkRng tp (S (S (S ps))))
                      ((tr ++ [SendKeys (py_id element) (String ch "")]) ++
                       [Sleep (1 / typing_speed behavior * (0.5 + (1.5 - 0.5) * u)
                               + (0.2 + (0.5 - 0.2) * tp (S (S ps))))])) Hs)
        as (new & s' & Hrun & Htr & Htp & Hf & Hk & Hb & Ht).
      cbn [Run.rand Run.trace tape pos] in *.
      eexists (_ :: _ :: new), s'. rewrite Hrun.
      split; [reflexivity|].
      split; [rewrite Htr, <- !app_assoc; reflexivity|].
      split; [assumption|].
      split; [intros c; unfold field_after in Hf |- *; cbn [fold_left apply_key];
              rewrite Hf, string_app_assoc; reflexivity|].
      split; [unfold keystrokes in Hk |- *; cbn [filter List.length String.length];
              now rewrite Hk|].
      split; [assumption|].
      cbn [total_sleep String.length].
      rewrite Nat2Z.inj_succ, <- Z.add_1_r, inject_Z_plus.
      change (inject_Z 1) with 1. lra.
    + destruct (IH (S k) (Run.mkState (mkRng tp (S (S ps)))
                      ((tr ++ [SendKeys (py_id element) (String ch "")]) ++
                       [Sleep (1 / typing_speed behavior * (0.5 + (1.5 - 0.5) * u))]))
                   Hs)
        as (new & s' & Hrun & Htr & Htp & Hf & Hk & Hb & Ht).
      cbn [Run.rand Run.trace tape pos] in *.
      eexists (_ :: _ :: new), s'. rewrite Hrun.
      split; [reflexivity|].
      split; [rewrite Htr, <- !app_assoc; reflexivity|].
      split; [assumption|].
      split; [intros c; unfold field_after in Hf |- *; cbn [fold_left apply_key];
              rewrite Hf, string_app_assoc; reflexivity|].
      split; [unfold keystrokes in Hk |- *; cbn [filter List.length String.length];
              now rewrite Hk|].
      split; [assumption|].
      cbn [total_sleep String.length].
      rewrite Nat2Z.inj_succ, <- Z.add_1_r, inject_Z_plus.
      change (inject_Z 1) with 1. lra.
Qed.

Lemma getitem_Some {A : Type} (l : list A) (i : nat) :
  (i < List.length l)%nat -> exists x, getitem l i = Ok x /\ In x l.
Proof.
  intros Hi. unfold getitem.
  destruct (nth_error l i) as [x|] eqn:E; [|apply nth_error_None in E; lia].
  exists x. split; [reflexivity|]. eapply nth_error_In; eassumption.
Qed.

(** [random.choice] on a non-empty sequence returns one of its entries and
    issues no command. *)
Lemma choice_spec {A : Type} (seq : list A) (s : Run.state) :
  valid (Run.rand s) -> seq <> [] ->
  exists (x : A) (s' : Run.state),
    choice seq s = (Ok x, s') /\ In x seq /\
    Run.trace s' = Run.trace s /\
    tape (Run.rand s') = tape (Run.rand s) /\
    pos (Run.rand s') = S (pos (Run.rand s)).
Proof.
  intros Hs Hne. unfold choice, Run.bind, Run.draw, Run.lift.
  assert (Hlen : (0 < Z.of_nat (List.length seq))%Z).
  { destruct seq; [now elim Hne|cbn; lia]. }
  pose proof (randbelow_range _ _ Hs Hlen) as Hj.
  unfold randbelow, random in *. cbn [fst snd] in *.
  destruct (getitem_Some seq (Z.to_nat (Qfloor (tape (Run.rand s) (pos (Run.rand s))
                                               * inject_Z (Z.of_nat (List.length seq))))))
    as (x & Hx & Hin); [lia|].
  exists x. eexists. cbn [Run.rand Run.trace]. rewrite Hx.
  split; [reflexivity|]. split; [assumption|]. cbn. auto.
Qed.

(** [random.randint(a, b)] returns an integer between [a] and [b]
    inclusive. *)
Lemma randint_spec (a b : Z) (s : Run.state) :
  valid (Run.rand s) -> (a <= b)%Z ->
  exists (n : Z) (s' : Run.state),
    randint a b s = (Ok n, s') /\ (a <= n <= b)%Z /\
    Run.trace s' = Run.trace s /\
    tape (Run.rand s') = tape (Run.rand s) /\
    pos (Run.rand s') = S (pos (Run.rand s)).
Proof.
  intros Hs Hab. unfold randint, Run.bind, Run.draw, Run.ret.
  pose proof (randbelow_range (b - a + 1) _ Hs ltac:(lia)) as Hj.
  destruct (randbelow (b - a + 1) (Run.rand s)) as [j g'] eqn:E.
  unfold randbelow, random in E. injection E as Ej Eg. cbn [fst] in Hj.
  eexists. eexists. split; [reflexivity|].
  split; [lia|]. subst g'. cbn. auto.
Qed.

Lemma chars_single (s x : string) :
  In x (chars s) -> exists c : ascii, x = String c EmptyString.
Proof.
  induction s as [|c s IH]; cbn; [intros []|].
  intros [<-|H]; [now exists c|now apply IH].
Qed.

(** What [_type_like_human] sends and leaves in the field when [clear()]
    and every [send_keys(...)] answer. *)
Lemma type_like_human_spec (behavior : UserBehavior) (element : WebElement)
  (text : string) (s : Run.state) :
  0 < typing_speed behavior -> valid (Run.rand s) ->
  cleared (dom element) = Ok tt ->
  (forall j, keys_sent (dom element) j = Ok tt) ->
  exists (new : list action) (s' : Run.state),
    _type_like_human behavior element text s = (Ok tt, s') /\
    Run.trace s' = Run.trace s ++ ElementClear (py_id element) :: new /\
    tape (Run.rand s') = tape (Run.rand s) /\
    (forall c, field_after c (ElementClear (py_id element) :: new) = text) /\
    ((keystrokes new = String.length text /\ backspaces new = 0%nat) \/
     (keystrokes new = S (String.length text) /\ backspaces new = 1%nat /\
      (5 < String.length text)%nat)) /\
    inject_Z (Z.of_nat (String.length text)) * (0.5 / typing_speed behavior)
      <= total_sleep new.
Proof.
  intros Hts Hs Hclear Hkeys. unfold _type_like_human.
  rewrite Hclear, !Hkeys.
  unfold Run.bind at 1. unfold Run.emit at 1.
  unfold Run.bind at 1. unfold Run.lift at 1.
  unfold Run.bind at 1.
  destruct (type_chars_spec behavior element text Hts Hkeys 0%nat
              (Run.mkState (Run.rand s) (Run.trace s ++ [ElementClear (py_id element)]))
              Hs) as (new1 & s1 & Hrun & Htr & Htp & Hf & Hk & Hb & Ht).
  rewrite Hrun. cbn [Run.rand Run.trace] in *.
  assert (Hs1 : valid (Run.rand s1)) by (intros i; rewrite Htp; apply Hs).
  unfold Run.bind at 1. unfold Run.draw at 1. unfold random.
  destruct (Qlt_bool (tape (Run.rand s1) (pos (Run.rand s1))) 0.1
            && (5 <? String.length text)%nat) eqn:Etypo.
  - apply andb_true_iff in Etypo. destruct Etypo as [_ Hlong].
    apply Nat.ltb_lt in Hlong.
    set (s2 := Run.mkState (mkRng (tape (Run.rand s1)) (S (pos (Run.rand s1))))
                           (Run.trace s1)).
    assert (Hs2 : valid (Run.rand s2)) by exact Hs1.
    destruct (choice_spec (chars "abcdefghijklmnopqrstuvwxyz") s2 Hs2 ltac:(discriminate))
      as (typo & s3 & Hc & Hin & Htr3 & Htp3 & Hp3).
    destruct (chars_single _ _ Hin) as [ch ->].
    unfold Run.bind at 1. fold s2. rewrite Hc.
    unfold s2 in Htp3, Hp3, Htr3. cbn [Run.rand Run.trace tape pos] in Htp3, Hp3, Htr3.
    unfold Run.bind, Run.emit, Run.lift, Run.draw, uniform, random.
    cbn [Run.rand Run.trace fst snd tape pos].
    destruct (Hs1 (pos (Run.rand s3))) as [Hu0 _].
    destruct (Hs1 (S (pos (Run.rand s3)))) as [Hv0 _].
    rewrite <- Htp3 in Hu0, Hv0.
    eexists (new1 ++ [_; _; _; _]), _. split; [reflexivity|].
    split.
    { rewrite Htr3, Htr, <- !app_assoc. reflexivity. }
    split; [cbn; now rewrite Htp3, Htp|].
    split.
    { intros c. change (ElementClear (py_id element) :: new1 ++ ?l)
        with ([ElementClear (py_id element)] ++ new1 ++ l).
      rewrite !field_after_app.
      replace (field_after c [ElementClear (py_id element)]) with EmptyString
        by reflexivity.
      rewrite Hf. cbn [String.append field_after fold_left apply_key].
      apply remove_last_snoc. }
    split.
    { right. rewrite keystrokes_app, backspaces_app, Hk, Hb.
      split; [cbn; lia|]. split; [reflexivity|assumption]. }
    rewrite total_sleep_app. cbn [total_sleep].
    set (u := tape (Run.rand s3) (pos (Run.rand s3))) in *.
    set (v := tape (Run.rand s3) (S (pos (Run.rand s3)))) in *.
    lra.
  - unfold Run.ret. eexists new1, _. split; [reflexivity|].
    cbn [Run.rand Run.trace tape].
    split; [rewrite Htr, <- app_assoc; reflexivity|].
    split; [assumption|].
    split.
    { intros c. unfold field_after in *. cbn [fold_left apply_key]. apply Hf. }
    split; [left; split; assumption|assumption].
Qed.

(** A [clear()] that raises ends [_type_like_human] before any key. *)
Lemma type_like_human_clear_raises (behavior : UserBehavior) (element : WebElement)
  (text : string) (s : Run.state) (e : exn) :
  cleared (dom element) = Raise e ->
  _type_like_human behavior element text s =
  (Raise e, Run.mkState (Run.rand s) (Run.trace s ++ [ElementClear (py_id element)])).
Proof. intros H. unfold _type_like_human. rewrite H. reflexivity. Qed.




(** ** What the input handler types *)

Lemma choices_joined_spec (population : list string) (k : nat) (s : Run.state) :
  valid (Run.rand s) -> population <> [] ->
  exists (picks : list string) (s' : Run.state),
    choices_joined population k s = (Ok (fold_right String.append EmptyString picks), s') /\
    List.length picks = k /\ Forall (fun c => In c population) picks /\
    Run.trace s' = Run.trace s /\ tape (Run.rand s') = tape (Run.rand s).
Proof.
  intros Hs Hne. revert s Hs. induction k as [|k IH]; intros s Hs; cbn [choices_joined].
  - exists [], s. cbn. repeat split; constructor.
  - unfold Run.bind at 1.
    destruct (choice_spec population s Hs Hne) as (c & s1 & -> & Hin & Htr & Htp & _).
    assert (Hs1 : valid (Run.rand s1)) by (intros i; rewrite Htp; apply Hs).
    unfold Run.bind at 1.
    destruct (IH s1 Hs1) as (picks & s2 & -> & Hl & Hf & Htr2 & Htp2).
    unfold Run.ret. exists (c :: picks), s2.
    split; [reflexivity|].
    split; [cbn; now rewrite Hl|].
    split; [now constructor|].
    split; [now rewrite Htr2|now rewrite Htp2].
Qed.

(** X13. For an input whose [type] attribute is email, password or search,
    at a positive typing speed and with a random source in [0, 1): when
    [clear()] and every [send_keys(...)] answer, the handler returns and
    leaves the field holding, respectively, [test<n>@example.com] with [n]
    between 1000 and 9999; [Test], four digits none of which is 0, and [!];
    one of the four search terms.  The handler catches nothing: when
    [clear()] raises, it ends with that exception. *)
Theorem handle_input_typed_content (behavior : UserBehavior) (element : WebElement)
  (kind : string) (s : Run.state) :
  0 < typing_speed behavior -> valid (Run.rand s) ->
  get_attribute (dom element) "type" = Ok (Some kind) ->
  kind = "email"%string \/ kind = "password"%string \/ kind = "search"%string ->
  (cleared (dom element) = Ok tt ->
   (forall j, keys_sent (dom element) j = Ok tt) ->
   exists (content : string) (new : list action) (s' : Run.state),
     _handle_input behavior element s = (Ok tt, s') /\
     Run.trace s' = Run.trace s ++ new /\
     typed_for_kind kind content /\
     forall c, field_after c new = content) /\
  (forall e, cleared (dom element) = Raise e ->
     fst (_handle_input behavior element s) = Raise e).
Proof.
  intros Hts Hs Hty Hkind. split.
  - intros Hclear Hkeys.
    unfold _handle_input. unfold Run.bind at 1. unfold Run.lift at 1. rewrite Hty.
    destruct Hkind as [-> | [-> | ->]]; cbn [py_or String.eqb Ascii.eqb Bool.eqb].
    + unfold Run.bind at 1.
      destruct (randint_spec 1000 9999 s Hs ltac:(lia))
        as (n & s1 & -> & Hn & Htr & Htp & _).
      assert (Hs1 : valid (Run.rand s1)) by (intros i; rewrite Htp; apply Hs).
      destruct (type_like_human_spec behavior element
                  ("test" ++ str n ++ "@example.com") s1 Hts Hs1 Hclear Hkeys)
        as (new & s' & -> & Htr' & _ & Hf & _).
      eexists _, _, s'. split; [reflexivity|].
      split; [rewrite Htr', Htr; reflexivity|].
      split; [|exact Hf]. left. split; [reflexivity|]. now exists n.
    + unfold Run.bind at 1.
      destruct (choices_joined_spec (chars "123456789") 4 s Hs ltac:(discriminate))
        as (digits & s1 & -> & Hl & Hd & Htr & Htp).
      assert (Hs1 : valid (Run.rand s1)) by (intros i; rewrite Htp; apply Hs).
      destruct (type_like_human_spec behavior element
                  ("Test" ++ fold_right String.append EmptyString digits ++ "!")
                  s1 Hts Hs1 Hclear Hkeys)
        as (new & s' & -> & Htr' & _ & Hf & _).
      eexists _, _, s'. split; [reflexivity|].
      split; [rewrite Htr', Htr; reflexivity|].
      split; [|exact Hf]. right. left. split; [reflexivity|]. now exists digits.
    + unfold Run.bind at 1.
      destruct (choice_spec ["python"; "machine learning"; "web development";
                             "data science"]%string s Hs ltac:(discriminate))
        as (term & s1 & -> & Hin & Htr & Htp & _).
      assert (Hs1 : valid (Run.rand s1)) by (intros i; rewrite Htp; apply Hs).
      destruct (type_like_human_spec behavior element term s1 Hts Hs1 Hclear Hkeys)
        as (new & s' & -> & Htr' & _ & Hf & _).
      eexists _, _, s'. split; [reflexivity|].
      split; [rewrite Htr', Htr; reflexivity|].
      split; [|exact Hf]. right. right. split; [reflexivity|assumption].
  - intros e He.
    unfold _handle_input. unfold Run.bind at 1. unfold Run.lift at 1. rewrite Hty.
    destruct Hkind as [-> | [-> | ->]]; cbn [py_or String.eqb Ascii.eqb Bool.eqb].
    + unfold Run.bind at 1.
      destruct (randint_spec 1000 9999 s Hs ltac:(lia)) as (n & s1 & -> & _).
      now rewrite type_like_human_clear_raises with (e := e).
    + unfold Run.bind at 1.
      destruct (choices_joined_spec (chars "123456789") 4 s Hs ltac:(discriminate))
        as (digits & s1 & -> & _).
      now rewrite type_like_human_clear_raises with (e := e).
    + unfold Run.bind at 1.
      destruct (choice_spec ["python"; "machine learning"; "web development";
                             "data science"]%string s Hs ltac:(discriminate))
        as (term & s1 & -> & _).
      now rewrite type_like_human_clear_raises with (e := e).
Qed.

Lemma handle_input_typed_content_witness :
  exists (content : string) (new : list action) (s' : Run.state),
    _handle_input casual_persona (mkWebElement 9 (input_node 5 (Some "password"%string)))
                  (Run.start (constant 0.5)) = (Ok tt, s') /\
    Run.trace s' = Run.trace (Run.start (constant 0.5)) ++ new /\
    typed_for_kind "password" content /\
    forall c, field_after c new = content.
Proof.
  destruct (handle_input_typed_content casual_persona
              (mkWebElement 9 (input_node 5 (Some "password"%string))) "password"
              (Run.start (constant 0.5))) as [Hok _].
  - unfold Qlt. cbn. lia.
  - exact valid_constant_half.
  - reflexivity.
  - right. left. reflexivity.
  - exact (Hok eq_refl (fun _ => eq_refl)).
Defined.

(** X14. When the placeholder, name and id attributes can be read and the
    random source draws from [0, 1), the text generated for a text field
    is decided by the placeholder and the name alone, tested in the order
    name, email, phone, search: a full name, [user<k>@example.com] with [k] in
    100..999, [555-<a>-<b>], a search phrase, or [Test input <k>] with [k] in
    1..100.  The id is read but never consulted, and no command is issued. *)
Theorem generate_realistic_text_shape (element : WebElement)
  (placeholder name element_id : option string) (s : Run.state) :
  get_attribute (dom element) "placeholder" = Ok placeholder ->
  get_attribute (dom element) "name" = Ok name ->
  get_attribute (dom element) "id" = Ok element_id ->
  valid (Run.rand s) ->
  exists (text : string) (s' : Run.state),
    _generate_realistic_text element s = (Ok text, s') /\
    Run.trace s' = Run.trace s /\
    tape (Run.rand s') = tape (Run.rand s) /\
    generated_text_shape placeholder name text.
Proof.
  intros Hp Hn Hi Hs. unfold _generate_realistic_text.
  unfold Run.bind at 1. unfold Run.lift at 1. rewrite Hp.
  unfold Run.bind at 1. unfold Run.lift at 1. rewrite Hn.
  unfold Run.bind at 1. unfold Run.lift at 1. rewrite Hi.
  unfold generated_text_shape, attribute_mentions.
  destruct (Str.contains "name" (Str.lower (py_or placeholder ""))
            || Str.contains "name" (Str.lower (py_or name ""))).
  { destruct (choice_spec ["John Smith"; "Jane Doe"; "Alice Johnson"]%string s Hs
                ltac:(discriminate)) as (x & s1 & -> & Hin & Htr & Htp & _).
    now exists x, s1. }
  destruct (Str.contains "email" (Str.lower (py_or placeholder ""))
            || Str.contains "email" (Str.lower (py_or name ""))).
  { unfold Run.bind, Run.ret.
    destruct (randint_spec 100 999 s Hs ltac:(lia)) as (k & s1 & -> & Hk & Htr & Htp & _).
    eexists _, s1. repeat split; try assumption. now exists k. }
  destruct (Str.contains "phone" (Str.lower (py_or placeholder ""))
            || Str.contains "phone" (Str.lower (py_or name ""))).
  { unfold Run.bind at 1.
    destruct (randint_spec 100 999 s Hs ltac:(lia)) as (a & s1 & -> & Ha & Htr & Htp & _).
    assert (Hs1 : valid (Run.rand s1)) by (intros i; rewrite Htp; apply Hs).
    unfold Run.bind, Run.ret.
    destruct (randint_spec 1000 9999 s1 Hs1 ltac:(lia))
      as (b & s2 & -> & Hb & Htr2 & Htp2 & _).
    eexists _, s2. split; [reflexivity|].
    split; [now rewrite Htr2|]. split; [now rewrite Htp2|]. now exists a, b. }
  destruct (Str.contains "search" (Str.lower (py_or placeholder ""))
            || Str.contains "search" (Str.lower (py_or name ""))).
  { destruct (choice_spec ["test query"; "sample search"; "demo"]%string s Hs
                ltac:(discriminate)) as (x & s1 & -> & Hin & Htr & Htp & _).
    now exists x, s1. }
  unfold Run.bind, Run.ret.
  destruct (randint_spec 1 100 s Hs ltac:(lia)) as (k & s1 & -> & Hk & Htr & Htp & _).
  eexists _, s1. repeat split; try assumption. now exists k.
Qed.

Lemma generate_realistic_text_shape_witness :
  exists (text : string) (s' : Run.state),
    _generate_realistic_text
      (mkWebElement 3 (visible_node 8 "input" ""
         (fun a => if String.eqb a "name" then Some "UserName_Email"%string
                   else if String.eqb a "id" then Some "phone"%string else None)
         0 0 100 20))
      (Run.start (constant 0.5)) = (Ok text, s') /\
    In text ["John Smith"; "Jane Doe"; "Alice Johnson"]%string.
Proof.
  destruct (generate_realistic_text_shape
              (mkWebElement 3 (visible_node 8 "input" ""
                 (fun a => if String.eqb a "name" then Some "UserName_Email"%string
                           else if String.eqb a "id" then Some "phone"%string else None)
                 0 0 100 20))
              None (Some "UserName_Email"%string) (Some "phone"%string)
              (Run.start (constant 0.5)) eq_refl eq_refl eq_refl valid_constant_half)
    as (text & s' & H & _ & _ & Hshape).
  exists text, s'. split; [exact H|exact Hshape].
Defined.

(** ** Post-click handling never raises *)

(** X15. Whatever the browser answers (no dialog, a dialog whose acceptance
    fails, an address that cannot be read), [_handle_post_click] returns
    normally; it always starts with exactly one pause; and it sends the
    accept command exactly when a dialog's text could be read. *)
Theorem handle_post_click_total (browser : Browser) (s : Run.state) :
  exists (d : Q) (new : list action) (s' : Run.state),
    _handle_post_click browser s = (Ok tt, s') /\
    Run.trace s' = Run.trace s ++ Sleep d :: new /\
    d = 0.5 + (1.5 - 0.5) * tape (Run.rand s) (pos (Run.rand s)) /\
    tape (Run.rand s') = tape (Run.rand s) /\
    (existsb (fun a => match a with AlertAccept => true | _ => false end) new = true
     <-> exists txt, alert_text browser = Ok txt).
Proof.
  unfold _handle_post_click, Run.try_catch, Run.bind, Run.lift, Run.draw,
    Run.emit, Run.ret, uniform, random.
  cbn [Run.rand Run.trace fst snd tape pos].
  destruct (alert_text browser) as [txt|e1];
    [destruct (alert_accept browser) as [[]|e2]|];
    (destruct (current_url browser 0) as [url|e3];
     [destruct (current_url browser 1) as [url'|e4];
      [destruct (negb (String.eqb url url'));
       [destruct (Qlt_bool _ 0.3)|]|]|]);
    cbn [Run.rand Run.trace fst snd tape pos];
    (eexists _, _, _; split; [reflexivity|];
     split; [rewrite <- ?app_assoc; cbn [app]; reflexivity|];
     split; [reflexivity|]; split; [reflexivity|];
     split; [intros H; first [discriminate H | eexists; reflexivity]
            | intros [t Ht]; first [discriminate Ht | reflexivity]]).
Qed.

(** ** Browser profiles and the window *)

(** X16. With a random source in [0, 1), [generate_random_profile] never
    raises, and the profile it builds is coherent: user agent, viewport,
    platform, vendor and WebGL strings all come from one and the same entry of
    the catalog, the hardware concurrency is 4, 8 or 16, the device memory 4,
    8, 16 or 32, and the plugin list is the fixed one. *)
Theorem generate_random_profile_coherent (s : Run.state) :
  valid (Run.rand s) ->
  exists (p : BrowserProfile) (s' : Run.state),
    generate_random_profile s = (Ok p, s') /\
    (exists data, In data profiles /\
       user_agent p = pd_user_agent data /\ viewport p = pd_viewport data /\
       platform p = pd_platform data /\ vendor p = pd_vendor data /\
       webgl_vendor p = pd_webgl_vendor data /\
       webgl_renderer p = pd_webgl_renderer data) /\
    In (timezone p) ["America/New_York"; "America/Chicago"; "America/Los_Angeles";
                     "Europe/London"]%string /\
    In (language p) ["en-US"; "en-GB"; "en"]%string /\
    In (hardware_concurrency p) [4; 8; 16]%Z /\
    In (device_memory p) [4; 8; 16; 32]%Z /\
    plugins p = ["Chrome PDF Plugin"; "Chrome PDF Viewer"; "Native Client"]%string /\
    pos (Run.rand s') = (pos (Run.rand s) + 5)%nat.
Proof.
  intros Hs. unfold generate_random_profile.
  unfold Run.bind at 1.
  destruct (choice_spec profiles s Hs ltac:(discriminate))
    as (data & s1 & -> & Hd & _ & Htp1 & Hp1).
  assert (Hs1 : valid (Run.rand s1)) by (intros i; rewrite Htp1; apply Hs).
  unfold Run.bind at 1.
  destruct (choice_spec ["America/New_York"; "America/Chicago"; "America/Los_Angeles";
                         "Europe/London"]%string s1 Hs1 ltac:(discriminate))
    as (tz & s2 & -> & Htz & _ & Htp2 & Hp2).
  assert (Hs2 : valid (Run.rand s2)) by (intros i; rewrite Htp2; apply Hs1).
  unfold Run.bind at 1.
  destruct (choice_spec ["en-US"; "en-GB"; "en"]%string s2 Hs2 ltac:(discriminate))
    as (lang & s3 & -> & Hlang & _ & Htp3 & Hp3).
  assert (Hs3 : valid (Run.rand s3)) by (intros i; rewrite Htp3; apply Hs2).
  unfold Run.bind at 1.
  destruct (choice_spec [4; 8; 16]%Z s3 Hs3 ltac:(discriminate))
    as (cores & s4 & -> & Hcores & _ & Htp4 & Hp4).
  assert (Hs4 : valid (Run.rand s4)) by (intros i; rewrite Htp4; apply Hs3).
  unfold Run.bind at 1.
  destruct (choice_spec [4; 8; 16; 32]%Z s4 Hs4 ltac:(discriminate))
    as (memory & s5 & -> & Hmem & _ & Htp5 & Hp5).
  unfold Run.ret. eexists _, s5. split; [reflexivity|]. cbn.
  split; [exists data; repeat split; assumption|].
  repeat (split; [assumption|]). split; [reflexivity|]. lia.
Qed.

Lemma generate_random_profile_coherent_witness :
  exists (p : BrowserProfile) (s' : Run.state),
    generate_random_profile (Run.start (constant 0.5)) = (Ok p, s') /\
    In (hardware_concurrency p) [4; 8; 16]%Z.
Proof.
  destruct (generate_random_profile_coherent (Run.start (constant 0.5))
              valid_constant_half) as (p & s' & H & _ & _ & _ & Hc & _).
  now exists p, s'.
Defined.

(** *** Draws inside the driving code *)

Lemma sim_randint (a b : Z) (s : Sim.state) :
  valid (Sim.rand s) -> (a <= b)%Z ->
  exists (n : Z) (s' : Sim.state),
    Sim.of_run (randint a b) s = (Ok n, s') /\ (a <= n <= b)%Z /\
    Sim.trace s' = Sim.trace s /\ tape (Sim.rand s') = tape (Sim.rand s).
Proof.
  intros Hs Hab. unfold Sim.of_run.
  destruct (randint_spec a b (Run.mkState (Sim.rand s) []) Hs Hab)
    as (n & r' & -> & Hn & Htr & Htp & _).
  cbn [Run.rand Run.trace] in *.
  eexists n, _. split; [reflexivity|]. split; [assumption|].
  cbn. rewrite Htr. cbn. rewrite app_nil_r. auto.
Qed.

Lemma sim_choice {A : Type} (seq : list A) (s : Sim.state) :
  valid (Sim.rand s) -> seq <> [] ->
  exists (x : A) (s' : Sim.state),
    Sim.of_run (choice seq) s = (Ok x, s') /\ In x seq /\
    Sim.trace s' = Sim.trace s /\ tape (Sim.rand s') = tape (Sim.rand s).
Proof.
  intros Hs Hne. unfold Sim.of_run.
  destruct (choice_spec seq (Run.mkState (Sim.rand s) []) Hs Hne)
    as (x & r' & -> & Hx & Htr & Htp & _).
  cbn [Run.rand Run.trace] in *.
  eexists x, _. split; [reflexivity|]. split; [assumption|].
  cbn. rewrite Htr. cbn. rewrite app_nil_r. auto.
Qed.

(** Equations for running the statements of a block one at a time. *)
Lemma step_emit {B : Type} (e : event) (k : unit -> Sim.M B) (s : Sim.state) :
  Sim.bind (Sim.emit e) k s = k tt (Sim.mkState (Sim.rand s) (Sim.trace s ++ [e])).
Proof. reflexivity. Qed.

Lemma step_sleep {B : Type} (d : Q) (k : unit -> Sim.M B) (s : Sim.state) :
  Sim.bind (Sim.sleep d) k s =
  k tt (Sim.mkState (Sim.rand s) (Sim.trace s ++ [Act (Sleep d)])).
Proof. reflexivity. Qed.

Lemma step_lift_ok {A B : Type} (a : A) (k : A -> Sim.M B) (s : Sim.state) :
  Sim.bind (Sim.lift (Ok a)) k s = k a s.
Proof. reflexivity. Qed.

Lemma step_lift_raise {A B : Type} (e : exn) (k : A -> Sim.M B) (s : Sim.state) :
  Sim.bind (Sim.lift (Raise e)) k s = (Raise e, s).
Proof. reflexivity. Qed.

Lemma step_uniform {B : Type} (a b : Q) (k : Q -> Sim.M B) (s : Sim.state) :
  Sim.bind (Sim.draw (uniform a b)) k s =
  k (a + (b - a) * tape (Sim.rand s) (pos (Sim.rand s)))
    (Sim.mkState (mkRng (tape (Sim.rand s)) (S (pos (Sim.rand s)))) (Sim.trace s)).
Proof. reflexivity. Qed.

Lemma step_randint {B : Type} (a b : Z) (k : Z -> Sim.M B) (s : Sim.state) :
  Sim.bind (Sim.of_run (randint a b)) k s =
  k (a + Qfloor (tape (Sim.rand s) (pos (Sim.rand s)) * inject_Z (b - a + 1)))%Z
    (Sim.mkState (mkRng (tape (Sim.rand s)) (S (pos (Sim.rand s)))) (Sim.trace s)).
Proof.
  unfold Sim.bind, Sim.of_run, randint, Run.bind, Run.draw, Run.ret, randbelow, random.
  cbn [Run.rand Run.trace map]. now rewrite app_nil_r.
Qed.

Tactic Notation "sim_step" :=
  first [ rewrite step_emit | rewrite step_sleep | rewrite step_lift_ok
        | rewrite step_lift_raise | rewrite step_uniform | rewrite step_randint ];
  cbv beta; cbn [Sim.rand Sim.trace tape pos].

Lemma step_draw {A B : Type} (f : rng -> A * rng) (k : A -> Sim.M B) (s : Sim.state) :
  Sim.bind (Sim.draw f) k s =
  k (fst (f (Sim.rand s))) (Sim.mkState (snd (f (Sim.rand s))) (Sim.trace s)).
Proof. unfold Sim.bind, Sim.draw. now destruct (f (Sim.rand s)). Qed.

(** X17. With a random source in [0, 1), [randomize_viewport] asks for
    one window size, within ten pixels, in each dimension, of one of the six
    catalog viewports; so the width is between 1270 and 1930 and the height
    between 710 and 1090.  When [set_window_size] answers, the call returns
    after logging; when it raises, the call ends with that exception and
    nothing is logged. *)
Theorem randomize_viewport_near_catalog (resized : result unit) (s : Sim.state) :
  valid (Sim.rand s) ->
  exists (w h w0 h0 : Z) (s' : Sim.state),
    In (w0, h0) [(1920, 1080); (1440, 900); (1536, 864);
                 (1366, 768); (1280, 720); (1600, 900)]%Z /\
    (w0 - 10 <= w <= w0 + 10)%Z /\ (h0 - 10 <= h <= h0 + 10)%Z /\
    (1270 <= w <= 1930)%Z /\ (710 <= h <= 1090)%Z /\
    randomize_viewport resized s = (resized, s') /\
    Sim.trace s' =
    Sim.trace s ++
    match resized with
    | Ok _ => [SetWindowSize w h; Act (LogInfo "Viewport randomized")]
    | Raise _ => [SetWindowSize w h]
    end.
Proof.
  intros Hs. unfold randomize_viewport.
  unfold Sim.bind at 1.
  destruct (sim_choice [(1920, 1080); (1440, 900); (1536, 864);
                        (1366, 768); (1280, 720); (1600, 900)]%Z s Hs ltac:(discriminate))
    as ([w0 h0] & s1 & -> & Hin & Htr1 & Htp1).
  assert (Hs1 : valid (Sim.rand s1)) by (intros i; rewrite Htp1; apply Hs).
  unfold Sim.bind at 1.
  destruct (sim_randint (-10) 10 s1 Hs1 ltac:(lia)) as (dw & s2 & -> & Hdw & Htr2 & Htp2).
  assert (Hs2 : valid (Sim.rand s2)) by (intros i; rewrite Htp2; apply Hs1).
  unfold Sim.bind at 1.
  destruct (sim_randint (-10) 10 s2 Hs2 ltac:(lia)) as (dh & s3 & -> & Hdh & Htr3 & Htp3).
  rewrite step_emit. cbv beta.
  exists (w0 + dw)%Z, (h0 + dh)%Z, w0, h0.
  assert (Hbounds : (1270 <= w0 + dw <= 1930)%Z /\ (710 <= h0 + dh <= 1090)%Z).
  { cbn in Hin.
    repeat (destruct Hin as [Hin|Hin]; [injection Hin as <- <-; lia|]).
    contradiction. }
  destruct resized as [[]|e].
  - rewrite step_lift_ok. unfold Sim.emit. cbn [Sim.rand Sim.trace].
    eexists. split; [assumption|]. split; [lia|]. split; [lia|].
    split; [apply Hbounds|]. split; [apply Hbounds|]. split; [reflexivity|].
    cbn [Sim.trace]. rewrite Htr3, Htr2, Htr1, <- app_assoc. reflexivity.
  - rewrite step_lift_raise.
    eexists. split; [assumption|]. split; [lia|]. split; [lia|].
    split; [apply Hbounds|]. split; [apply Hbounds|]. split; [reflexivity|].
    cbn [Sim.trace]. now rewrite Htr3, Htr2, Htr1.
Qed.

Lemma randomize_viewport_near_catalog_witness :
  exists (w h : Z) (s' : Sim.state),
    randomize_viewport (Ok tt) (Sim.start (constant 0.5)) = (Ok tt, s') /\
    (1270 <= w <= 1930)%Z /\ (710 <= h <= 1090)%Z /\
    Sim.trace s' = [SetWindowSize w h; Act (LogInfo "Viewport randomized")].
Proof.
  destruct (randomize_viewport_near_catalog (Ok tt) (Sim.start (constant 0.5))
              valid_constant_half)
    as (w & h & w0 & h0 & s' & _ & _ & _ & Hw & Hh & H & Htr).
  exists w, h, s'. split; [exact H|]. split; [exact Hw|]. split; [exact Hh|exact Htr].
Defined.

(** ** Scrolling *)

Lemma scrolls_of_app (l l' : list event) :
  scrolls_of (l ++ l') = scrolls_of l ++ scrolls_of l'.
Proof.
  induction l as [|e l IH]; [reflexivity|].
  destruct e; cbn; rewrite ?IH; reflexivity.
Qed.

Lemma pauses_of_app (l l' : list event) :
  pauses_of (l ++ l') = pauses_of l ++ pauses_of l'.
Proof.
  induction l as [|e l IH]; [reflexivity|].
  destruct e as [[]| | | | | | | | | | | | | | |]; cbn; rewrite ?IH; reflexivity.
Qed.

Lemma rapid_scroll_loop_spec (scrolled : nat -> result unit) :
  (forall j, scrolled j = Ok tt) ->
  forall (fuel k : nat) (page_height current : Z) (s : Sim.state),
    valid (Sim.rand s) ->
    (page_height - current <= 300 * Z.of_nat fuel)%Z ->
    exists (new : list event) (s' : Sim.state),
      rapid_scroll_loop scrolled k fuel page_height current s = (Ok true, s') /\
      Sim.trace s' = Sim.trace s ++ new /\
      tape (Sim.rand s') = tape (Sim.rand s) /\
      Forall (fun dy => 300 <= dy <= 600)%Z (scrolls_of new) /\
      List.length (pauses_of new) = List.length (scrolls_of new) /\
      ((current < page_height)%Z ->
       (page_height <= current + Zsum (scrolls_of new) < page_height + 600)%Z) /\
      ((page_height <= current)%Z -> new = []).
Proof.
  intros Hok. induction fuel as [|fuel IH]; intros k ph cur s Hs Hfuel.
  - cbn [rapid_scroll_loop]. destruct (Z.ltb_spec cur ph); [lia|].
    exists [], s. rewrite app_nil_r. repeat split; try constructor; lia.
  - cbn [rapid_scroll_loop]. destruct (Z.ltb_spec cur ph) as [Hlt|Hge].
    + unfold Sim.bind at 1.
      destruct (sim_randint 300 600 s Hs ltac:(lia)) as (a & s1 & -> & Ha & Htr1 & Htp1).
      rewrite (Hok k). repeat sim_step.
      match goal with
      | |- context [rapid_scroll_loop scrolled (S k) fuel ph (cur + a) ?st] =>
          destruct (IH (S k) ph (cur + a)%Z st)
            as (new & s' & -> & Htr & Htp & Hr & Hp & Hs' & He)
      end.
      { intros i. cbn. rewrite Htp1. apply Hs. }
      { lia. }
      cbn [Sim.rand Sim.trace tape] in *.
      eexists (ScrollBy a :: Act (Sleep _) :: new), s'. split; [reflexivity|].
      split; [rewrite Htr, Htr1, <- !app_assoc; reflexivity|].
      split; [now rewrite Htp|].
      split; [cbn; constructor; assumption|].
      split; [cbn; now rewrite Hp|].
      split; [|lia]. intros _. cbn [scrolls_of Zsum fold_right].
      fold (Zsum (scrolls_of new)).
      destruct (Z_lt_le_dec (cur + a) ph) as [Hl|Hl].
      * specialize (Hs' Hl). lia.
      * rewrite (He Hl). cbn. lia.
    + exists [], s. rewrite app_nil_r. repeat split; try constructor; lia.
Qed.

(** Iteration [j] is reached when the page is higher than [j] steps of the
    largest size; a scroll script that raises there ends the loop. *)
Lemma rapid_scroll_loop_raises (scrolled : nat -> result unit) (e : exn) (j : nat) :
  forall (fuel k : nat) (page_height current : Z) (s : Sim.state),
    valid (Sim.rand s) ->
    (j < fuel)%nat ->
    (current + 600 * Z.of_nat j < page_height)%Z ->
    (forall i, (i < j)%nat -> scrolled (k + i)%nat = Ok tt) ->
    scrolled (k + j)%nat = Raise e ->
    exists (new : list event) (s' : Sim.state),
      rapid_scroll_loop scrolled k fuel page_height current s = (Raise e, s') /\
      Sim.trace s' = Sim.trace s ++ new /\
      List.length (scrolls_of new) = S j.
Proof.
  induction j as [|j IH]; intros fuel k ph cur s Hs Hfuel Hreach Hok He;
    (destruct fuel as [|fuel]; [lia|]); cbn [rapid_scroll_loop];
    (destruct (Z.ltb_spec cur ph) as [Hlt|Hge]; [|lia]);
    unfold Sim.bind at 1;
    destruct (sim_randint 300 600 s Hs ltac:(lia)) as (a & s1 & -> & Ha & Htr1 & Htp1).
  - rewrite Nat.add_0_r in He. rewrite He. repeat sim_step.
    eexists [_], _. split; [reflexivity|]. cbn [Sim.trace].
    split; [now rewrite Htr1|reflexivity].
  - pose proof (Hok 0%nat ltac:(lia)) as H0. rewrite Nat.add_0_r in H0.
    rewrite H0. repeat sim_step.
    match goal with
    | |- context [rapid_scroll_loop scrolled (S k) fuel ph (cur + a) ?st] =>
        destruct (IH fuel (S k) ph (cur + a)%Z st) as (new & s' & -> & Htr & Hl)
    end.
    + intros i. cbn. rewrite Htp1. apply Hs.
    + lia.
    + lia.
    + intros i Hi. replace (S k + i)%nat with (k + S i)%nat by lia. apply Hok. lia.
    + now replace (S k + j)%nat with (k + S j)%nat by lia.
    + cbn [Sim.trace] in Htr.
      eexists (ScrollBy a :: Act (Sleep _) :: new), s'. split; [reflexivity|].
      split; [rewrite Htr, Htr1, <- !app_assoc; reflexivity|].
      cbn. now rewrite Hl.
Qed.

(** X18. [_rapid_scroll] with a random source in [0, 1) and room for
    [page_height / 300] iterations.  When every scroll script answers, it
    ends: it scrolls down in steps of 300 to 600 pixels, each followed by
    one pause, until the steps add up to at least the page height,
    overshooting by less than 600; on a page of height 0 or less it does
    nothing.  A failing height query is raised to the caller before anything
    is done.  The scroll calls are not protected either: when script number
    [j] raises on a page higher than [600 * j], the call ends with that
    exception after [j + 1] scroll commands. *)
Theorem rapid_scroll_reaches_bottom (scrolled : nat -> result unit) (fuel : nat)
  (page_height : Z) (s : Sim.state) :
  valid (Sim.rand s) -> (page_height <= 300 * Z.of_nat fuel)%Z ->
  ((forall j, scrolled j = Ok tt) ->
   exists (new : list event) (s' : Sim.state),
     _rapid_scroll scrolled fuel (Ok page_height) s = (Ok true, s') /\
     Sim.trace s' = Sim.trace s ++ new /\
     Forall (fun dy => 300 <= dy <= 600)%Z (scrolls_of new) /\
     List.length (pauses_of new) = List.length (scrolls_of new) /\
     ((0 < page_height)%Z ->
      (page_height <= Zsum (scrolls_of new) < page_height + 600)%Z) /\
     ((page_height <= 0)%Z -> new = [])) /\
  (forall e, _rapid_scroll scrolled fuel (Raise e) s = (Raise e, s)) /\
  (forall e j,
     (600 * Z.of_nat j < page_height)%Z ->
     (forall i, (i < j)%nat -> scrolled i = Ok tt) ->
     scrolled j = Raise e ->
     exists (new : list event) (s' : Sim.state),
       _rapid_scroll scrolled fuel (Ok page_height) s = (Raise e, s') /\
       Sim.trace s' = Sim.trace s ++ new /\
       List.length (scrolls_of new) = S j).
Proof.
  intros Hs Hfuel. split; [|split; [reflexivity|]].
  - intros Hok. unfold _rapid_scroll, Sim.bind, Sim.lift.
    destruct (rapid_scroll_loop_spec scrolled Hok fuel 0%nat page_height 0 s Hs ltac:(lia))
      as (new & s' & H & Htr & _ & Hr & Hp & Hlt & Hge).
    exists new, s'. repeat split; try assumption; try (apply Hlt; assumption).
  - intros e j Hreach Hok He. unfold _rapid_scroll, Sim.bind, Sim.lift.
    apply (rapid_scroll_loop_raises scrolled e j fuel 0%nat page_height 0 s Hs);
      [lia|lia|exact Hok|exact He].
Qed.

Lemma rapid_scroll_reaches_bottom_witness :
  let s := Sim.start (constant 0.5) in
  exists (new : list event) (s' : Sim.state),
    _rapid_scroll (fun _ => Ok tt) 10 (Ok 2400%Z) s = (Ok true, s') /\
    Sim.trace s' = Sim.trace s ++ new /\
    Forall (fun dy => 300 <= dy <= 600)%Z (scrolls_of new) /\
    List.length (pauses_of new) = List.length (scrolls_of new) /\
    (2400 <= Zsum (scrolls_of new) < 2400 + 600)%Z.
Proof.
  cbn zeta.
  destruct (proj1 (rapid_scroll_reaches_bottom (fun _ => Ok tt) 10 2400
                     (Sim.start (constant 0.5)) valid_constant_half ltac:(lia))
                  (fun _ => eq_refl))
    as (new & s' & H & Htr & Hr & Hp & Hsum & _).
  exists new, s'. split; [exact H|]. split; [exact Htr|]. split; [exact Hr|].
  split; [exact Hp|]. apply Hsum. lia.
Defined.

(** One iteration of the loop of [_normal_scroll] up to its scroll
    command: the amount drawn and the direction chosen. *)
Lemma normal_scroll_step (i : Z) (s : Sim.state) :
  valid (Sim.rand s) ->
  forall (B : Type) (k : unit -> Sim.M B),
  exists (dy : Z) (s1 : Sim.state),
    (100 <= Z.abs dy <= 400)%Z /\ ((i <= 2)%Z -> (0 < dy)%Z) /\
    Sim.trace s1 = Sim.trace s ++ [ScrollBy dy] /\
    tape (Sim.rand s1) = tape (Sim.rand s) /\
    (amount <- Sim.of_run (randint 100 400) ;;
     direction <-
       (if (2 <? i)%Z then Sim.of_run (choice ["down"; "up"]%string)
        else Sim.ret "down"%string) ;;
     (if String.eqb direction "down"
      then Sim.emit (ScrollBy amount)
      else Sim.emit (ScrollBy (- amount))) ;;; k tt)%sim s = k tt s1.
Proof.
  intros Hs B k. unfold Sim.bind at 1.
  destruct (sim_randint 100 400 s Hs ltac:(lia)) as (a & s1 & -> & Ha & Htr1 & Htp1).
  assert (Hs1 : valid (Sim.rand s1)) by (intros j; rewrite Htp1; apply Hs).
  unfold Sim.bind at 1.
  destruct (Z.ltb_spec 2 i) as [Hlate|Hearly].
  - destruct (sim_choice ["down"; "up"]%string s1 Hs1 ltac:(discriminate))
      as (dir & s2 & -> & Hdir & Htr2 & Htp2).
    exists (if String.eqb dir "down" then a else (- a)%Z).
    exists (Sim.mkState (Sim.rand s2)
              (Sim.trace s2 ++ [ScrollBy (if String.eqb dir "down" then a else (- a)%Z)])).
    split; [destruct (String.eqb dir "down"); lia|].
    split; [lia|].
    cbn [Sim.rand Sim.trace]. split; [now rewrite Htr2, Htr1|].
    split; [now rewrite Htp2|].
    destruct (String.eqb dir "down"); now rewrite step_emit.
  - unfold Sim.ret at 1. cbn [String.eqb Ascii.eqb Bool.eqb].
    exists a, (Sim.mkState (Sim.rand s1) (Sim.trace s1 ++ [ScrollBy a])).
    split; [lia|]. split; [lia|].
    cbn [Sim.rand Sim.trace]. split; [now rewrite Htr1|].
    split; [assumption|]. now rewrite step_emit.
Qed.

Lemma normal_scroll_loop_spec (scrolled : nat -> result unit) :
  (forall j, scrolled j = Ok tt) ->
  forall (remaining : nat) (i : Z) (s : Sim.state),
    valid (Sim.rand s) -> (0 <= i)%Z ->
    exists (new : list event) (s' : Sim.state),
      normal_scroll_loop scrolled remaining i s = (Ok tt, s') /\
      Sim.trace s' = Sim.trace s ++ new /\
      tape (Sim.rand s') = tape (Sim.rand s) /\
      List.length (scrolls_of new) = remaining /\
      List.length (pauses_of new) = remaining /\
      Forall (fun dy => 100 <= Z.abs dy <= 400)%Z (scrolls_of new) /\
      Forall (fun dy => 0 < dy)%Z (firstn (Z.to_nat (3 - i)) (scrolls_of new)).
Proof.
  intros Hok. induction remaining as [|remaining IH]; intros i s Hs Hi.
  - exists [], s. cbn. rewrite app_nil_r, firstn_nil. repeat split; constructor.
  - cbn [normal_scroll_loop].
    destruct (normal_scroll_step i s Hs unit
                (fun _ => (Sim.lift (scrolled (Z.to_nat i)) ;;;
                           d <- Sim.draw (uniform 0.5 2) ;;
                           Sim.sleep d ;;;
                           normal_scroll_loop scrolled remaining (i + 1))%sim))
      as (dy & s1 & Hdy & Hdown & Htr1 & Htp1 & ->).
    rewrite (Hok (Z.to_nat i)). repeat sim_step.
    match goal with
    | |- context [normal_scroll_loop scrolled remaining (i + 1) ?st] =>
        destruct (IH (i + 1)%Z st) as (new & s' & -> & Htr & Htp & Hl & Hp & Hr & Hf)
    end.
    { intros j. cbn. rewrite Htp1. apply Hs. }
    { lia. }
    cbn [Sim.rand Sim.trace tape] in *.
    eexists (ScrollBy dy :: Act (Sleep _) :: new), s'. split; [reflexivity|].
    split; [rewrite Htr, Htr1, <- !app_assoc; reflexivity|].
    split; [now rewrite Htp|].
    split; [cbn; now rewrite Hl|].
    split; [cbn; now rewrite Hp|].
    split; [cbn; constructor; assumption|].
    destruct (Z_le_gt_dec i 2) as [Hearly|Hlate].
    + replace (Z.to_nat (3 - i)) with (S (Z.to_nat (3 - (i + 1)))) by lia.
      cbn. constructor; [now apply Hdown|assumption].
    + replace (Z.to_nat (3 - i)) with 0%nat by lia. constructor.
Qed.

Lemma normal_scroll_loop_raises (scrolled : nat -> result unit) (e : exn) (j : nat) :
  forall (remaining : nat) (i : Z) (s : Sim.state),
    valid (Sim.rand s) -> (0 <= i)%Z ->
    (j < remaining)%nat ->
    (forall m, (m < j)%nat -> scrolled (Z.to_nat i + m)%nat = Ok tt) ->
    scrolled (Z.to_nat i + j)%nat = Raise e ->
    exists (new : list event) (s' : Sim.state),
      normal_scroll_loop scrolled remaining i s = (Raise e, s') /\
      Sim.trace s' = Sim.trace s ++ new /\
      List.length (scrolls_of new) = S j.
Proof.
  induction j as [|j IH]; intros remaining i s Hs Hi Hj Hok He;
    (destruct remaining as [|remaining]; [lia|]); cbn [normal_scroll_loop];
    destruct (normal_scroll_step i s Hs unit
                (fun _ => (Sim.lift (scrolled (Z.to_nat i)) ;;;
                           d <- Sim.draw (uniform 0.5 2) ;;
                           Sim.sleep d ;;;
                           normal_scroll_loop scrolled remaining (i + 1))%sim))
      as (dy & s1 & Hdy & Hdown & Htr1 & Htp1 & ->).
  - rewrite Nat.add_0_r in He. rewrite He. repeat sim_step.
    exists [ScrollBy dy], s1. split; [reflexivity|]. split; [exact Htr1|reflexivity].
  - pose proof (Hok 0%nat ltac:(lia)) as H0. rewrite Nat.add_0_r in H0.
    rewrite H0. repeat sim_step.
    match goal with
    | |- context [normal_scroll_loop scrolled remaining (i + 1) ?st] =>
        destruct (IH remaining (i + 1)%Z st) as (new & s' & -> & Htr & Hl)
    end.
    + intros m. cbn. rewrite Htp1. apply Hs.
    + lia.
    + lia.
    + intros m Hm. replace (Z.to_nat (i + 1) + m)%nat with (Z.to_nat i + S m)%nat by lia.
      apply Hok. lia.
    + now replace (Z.to_nat (i + 1) + j)%nat with (Z.to_nat i + S j)%nat by lia.
    + cbn [Sim.trace] in Htr.
      eexists (ScrollBy dy :: Act (Sleep _) :: new), s'. split; [reflexivity|].
      split; [rewrite Htr, Htr1, <- !app_assoc; reflexivity|].
      cbn. now rewrite Hl.
Qed.

(** X19. [_normal_scroll] with a random source in [0, 1).  When every
    scroll script answers, it returns after between three and seven scroll
    commands, each of 100 to 400 pixels and each followed by one pause; the
    first three are downward, so the page has moved down by at least 300
    pixels before any upward scroll can happen.  The scroll calls are not
    protected: when one of the first three scripts raises (three are always
    run), the call ends with that exception, no further scroll being
    sent. *)
Theorem normal_scroll_bursts (scrolled : nat -> result unit) (s : Sim.state) :
  valid (Sim.rand s) ->
  ((forall j, scrolled j = Ok tt) ->
   exists (new : list event) (s' : Sim.state),
     _normal_scroll scrolled s = (Ok tt, s') /\
     Sim.trace s' = Sim.trace s ++ new /\
     (3 <= List.length (scrolls_of new) <= 7)%nat /\
     List.length (pauses_of new) = List.length (scrolls_of new) /\
     Forall (fun dy => 100 <= Z.abs dy <= 400)%Z (scrolls_of new) /\
     Forall (fun dy => 0 < dy)%Z (firstn 3 (scrolls_of new)) /\
     (300 <= Zsum (firstn 3 (scrolls_of new)))%Z) /\
  (forall e j,
     (j <= 2)%nat ->
     (forall i, (i < j)%nat -> scrolled i = Ok tt) ->
     scrolled j = Raise e ->
     exists (new : list event) (s' : Sim.state),
       _normal_scroll scrolled s = (Raise e, s') /\
       Sim.trace s' = Sim.trace s ++ new /\
       List.length (scrolls_of new) = S j).
Proof.
  intros Hs. unfold _normal_scroll.
  unfold Sim.bind.
  destruct (sim_randint 3 7 s Hs ltac:(lia)) as (n & s1 & -> & Hn & Htr1 & Htp1).
  assert (Hs1 : valid (Sim.rand s1)) by (intros k; rewrite Htp1; apply Hs).
  split.
  - intros Hok.
    destruct (normal_scroll_loop_spec scrolled Hok (Z.to_nat n) 0 s1 Hs1 ltac:(lia))
      as (new & s' & -> & Htr & _ & Hl & Hp & Hr & Hf).
    exists new, s'. split; [reflexivity|].
    split; [now rewrite Htr, Htr1|].
    split; [lia|]. split; [lia|]. split; [assumption|].
    change (Z.to_nat (3 - 0)) with 3%nat in Hf. split; [assumption|].
    destruct (scrolls_of new) as [|a [|b [|c rest]]]; cbn in Hl; try lia.
    cbn in Hf, Hr |- *.
    inversion Hr as [|? ? Ha Hr1]; inversion Hr1 as [|? ? Hb Hr2];
      inversion Hr2 as [|? ? Hc _]; subst.
    inversion Hf as [|? ? Ha' Hf1]; inversion Hf1 as [|? ? Hb' Hf2];
      inversion Hf2 as [|? ? Hc' _]; subst.
    lia.
  - intros e j Hj Hok He.
    destruct (normal_scroll_loop_raises scrolled e j (Z.to_nat n) 0 s1 Hs1 ltac:(lia))
      as (new & s' & -> & Htr & Hl); [lia|exact Hok|exact He|].
    exists new, s'. split; [reflexivity|]. split; [now rewrite Htr, Htr1|exact Hl].
Qed.

Lemma normal_scroll_bursts_witness :
  exists (new : list event) (s' : Sim.state),
    _normal_scroll (fun _ => Ok tt) (Sim.start (constant 0.5)) = (Ok tt, s') /\
    (3 <= List.length (scrolls_of new) <= 7)%nat /\
    (300 <= Zsum (firstn 3 (scrolls_of new)))%Z.
Proof.
  destruct (proj1 (normal_scroll_bursts (fun _ => Ok tt) (Sim.start (constant 0.5))
                     valid_constant_half) (fun _ => eq_refl))
    as (new & s' & H & _ & Hl & _ & _ & _ & Hsum).
  exists new, s'. split; [exact H|]. split; [exact Hl|exact Hsum].
Defined.

(** ** Waiting for a page *)

Lemma framework_checks_pass (checks : list (result bool)) (s : Sim.state) :
  fold_right
    (fun check rest =>
       Sim.bind (Sim.try_catch (Sim.bind (Sim.lift check) (fun _ => Sim.ret tt))
                               (fun _ => Sim.ret tt))
                (fun _ => rest))
    (Sim.ret tt) checks s = (Ok tt, s).
Proof.
  induction checks as [|c checks IH]; [reflexivity|].
  cbn [fold_right]. unfold Sim.bind at 1.
  unfold Sim.try_catch, Sim.bind at 1, Sim.lift, Sim.ret at 1 2.
  destruct c; exact IH.
Qed.

(** X20. When the page becomes ready, [_intelligent_wait] never raises,
    whatever the framework probes answer or raise, and pauses exactly once,
    for 2 to 4 seconds under the Researcher pattern, 0.5 to 1 under Scanner
    and 1 to 2 otherwise; when the wait for readiness fails, the exception
    reaches the caller and no pause is made. *)
Theorem intelligent_wait_pause (behavior : UserBehavior) (ready : result unit)
  (framework_checks : list (result bool)) (s : Sim.state) :
  valid (Sim.rand s) ->
  (ready = Ok tt ->
   exists (d : Q) (s' : Sim.state),
     _intelligent_wait behavior ready framework_checks s = (Ok tt, s') /\
     Sim.trace s' = Sim.trace s ++ [Act (Sleep d)] /\
     within (wait_interval (pattern behavior)) d) /\
  (forall e, ready = Raise e ->
     _intelligent_wait behavior ready framework_checks s = (Raise e, s)).
Proof.
  intros Hs. split.
  - intros ->. unfold _intelligent_wait.
    unfold Sim.bind at 1. unfold Sim.lift at 1.
    unfold Sim.bind at 1. rewrite framework_checks_pass.
    destruct (Hs (pos (Sim.rand s))) as [H0 H1].
    unfold within, wait_interval.
    destruct (pattern behavior);
      unfold Sim.bind, Sim.draw, Sim.sleep, Sim.emit, uniform, random;
      cbn [Sim.rand Sim.trace fst snd tape pos];
      eexists _, _; (split; [reflexivity|]); (split; [reflexivity|]);
      set (u := tape (Sim.rand s) (pos (Sim.rand s))) in *; split; lra.
  - intros e ->. reflexivity.
Qed.

Lemma intelligent_wait_pause_witness :
  exists (d : Q) (s' : Sim.state),
    _intelligent_wait focused_persona (Ok tt)
      [Ok true; Raise WebDriverException; Ok false] (Sim.start (constant 0.5))
    = (Ok tt, s') /\
    Sim.trace s' = [Act (Sleep d)] /\ within (1, 2) d.
Proof.
  destruct (proj1 (intelligent_wait_pause focused_persona (Ok tt)
                     [Ok true; Raise WebDriverException; Ok false]
                     (Sim.start (constant 0.5)) valid_constant_half) eq_refl)
    as (d & s' & H & Htr & Hw).
  exists d, s'. split; [exact H|]. split; [exact Htr|exact Hw].
Defined.

(** ** Interacting with one element *)

Lemma no_click_app (l l' : list event) :
  no_click l -> no_click l' -> no_click (l ++ l').
Proof.
  unfold no_click. intros H H'. now rewrite forallb_app, H, H'.
Qed.

Section Quiet.

Context {A B : Type}.

Lemma quiet_ret (a : A) : quiet (Sim.ret a).
Proof. intros s. exists []. cbn. now rewrite app_nil_r. Qed.

Lemma quiet_lift (r : result A) : quiet (Sim.lift r).
Proof. intros s. exists []. cbn. now rewrite app_nil_r. Qed.

Lemma quiet_draw (f : rng -> A * rng) :
  (forall g, tape (snd (f g)) = tape g) -> quiet (Sim.draw f).
Proof.
  intros Hf s. exists []. unfold Sim.draw. specialize (Hf (Sim.rand s)).
  destruct (f (Sim.rand s)) as [a g']. cbn in *. now rewrite app_nil_r.
Qed.

Lemma quiet_draw_result (f : rng -> result A * rng) :
  (forall g, tape (snd (f g)) = tape g) -> quiet (Sim.draw_result f).
Proof.
  intros Hf s. exists []. unfold Sim.draw_result. specialize (Hf (Sim.rand s)).
  destruct (f (Sim.rand s)) as [a g']. cbn in *. now rewrite app_nil_r.
Qed.

Lemma quiet_bind (m : Sim.M A) (k : A -> Sim.M B) :
  quiet m -> (forall a, quiet (k a)) -> quiet (Sim.bind m k).
Proof.
  intros Hm Hk s. unfold Sim.bind.
  destruct (Hm s) as (new & Htr & Htp & Hn).
  destruct (m s) as [[a|e] s1]; cbn [snd] in *.
  - destruct (Hk a s1) as (new' & Htr' & Htp' & Hn').
    exists (new ++ new'). rewrite Htr', Htr, Htp', Htp, app_assoc.
    auto using no_click_app.
  - exists new. auto.
Qed.

End Quiet.

Lemma quiet_emit (e : event) : is_click_or_entry e = false -> quiet (Sim.emit e).
Proof.
  intros He s. exists [e]. cbn. unfold no_click. cbn. now rewrite He.
Qed.

Lemma quiet_sleep (d : Q) : quiet (Sim.sleep d).
Proof. now apply quiet_emit. Qed.

Lemma quiet_randint (a b : Z) : quiet (Sim.of_run (randint a b)).
Proof. intros s. exists []. cbn. now rewrite app_nil_r. Qed.

Lemma bezier_curve_tape (start end_ : point) (cps : option (list point)) (n : Z)
  (g : rng) :
  tape (snd (bezier_curve start end_ cps n g)) = tape g.
Proof. unfold bezier_curve. destruct cps; reflexivity. Qed.

Lemma quiet_move_along (pointer : Pointer) (mouse_path : list point) :
  forall (k : nat) (current : point), quiet (move_along pointer k mouse_path current).
Proof.
  induction mouse_path as [|[x y] rest IH]; intros k current; cbn [move_along].
  - apply quiet_ret.
  - apply quiet_bind; [now apply quiet_emit|intros _].
    apply quiet_bind; [apply quiet_lift|intros _].
    apply quiet_bind; [now apply quiet_draw|intros d].
    apply quiet_bind; [apply quiet_sleep|intros _]. apply IH.
Qed.

Lemma quiet_target_point (behavior : UserBehavior) (location size : Q * Q) :
  quiet (target_point behavior location size).
Proof.
  unfold target_point. destruct (Qlt_bool 0.8 (mouse_precision behavior)).
  - apply quiet_ret.
  - apply quiet_bind; [now apply quiet_draw|intros dx].
    apply quiet_bind; [now apply quiet_draw|intros dy]. apply quiet_ret.
Qed.

(** The approach to an element sends neither a click nor a key, whatever
    the driver answers. *)
Lemma quiet_approach (behavior : UserBehavior) (pointer : Pointer)
  (element : WebElement) :
  quiet (approach behavior pointer element).
Proof.
  unfold approach.
  apply quiet_bind; [now apply quiet_emit|intros _].
  apply quiet_bind; [apply quiet_lift|intros _].
  apply quiet_bind; [now apply quiet_draw|intros d].
  apply quiet_bind; [apply quiet_sleep|intros _].
  apply quiet_bind; [apply quiet_lift|intros location].
  apply quiet_bind; [apply quiet_lift|intros size].
  apply quiet_bind; [apply quiet_target_point|intros target].
  apply quiet_bind; [apply quiet_lift|intros cx].
  apply quiet_bind; [apply quiet_lift|intros cy].
  apply quiet_bind; [apply quiet_randint|intros n].
  apply quiet_bind; [apply quiet_draw_result; intros g; apply bezier_curve_tape
                    |intros mouse_path].
  apply quiet_bind; [apply quiet_move_along|intros _].
  apply quiet_bind; [now apply quiet_draw|intros r].
  destruct (Qlt_bool r 0.3); [|apply quiet_ret].
  apply quiet_bind; [now apply quiet_draw|intros d']. apply quiet_sleep.
Qed.

(** X22. With a random source in [0, 1), an element whose click probability
    [score * curiosity_level] is zero or negative is never clicked and never
    typed into, whatever the driver answers: the interaction returns
    normally having sent at most the scroll into view and pointer moves. *)
Theorem interact_never_clicks_at_zero (behavior : UserBehavior) (pointer : Pointer)
  (browser : Browser) (element : WebElement) (score : Q) (s : Sim.state) :
  valid (Sim.rand s) -> score * curiosity_level behavior <= 0 ->
  exists (new : list event) (s' : Sim.state),
    _interact_with_element behavior pointer browser element score s = (Ok tt, s') /\
    Sim.trace s' = Sim.trace s ++ new /\
    no_click new.
Proof.
  intros Hs Hp. unfold _interact_with_element, Sim.try_catch.
  unfold Sim.bind at 1.
  destruct (quiet_approach behavior pointer element s) as (new & Htr & Htp & Hn).
  destruct (approach behavior pointer element s) as [[[]|e] s1]; cbn [snd] in *.
  - unfold click_or_hover. unfold Sim.bind at 1. unfold Sim.draw at 1. unfold random.
    destruct (Qlt_bool (tape (Sim.rand s1) (pos (Sim.rand s1)))
                       (score * curiosity_level behavior)) eqn:E.
    { apply Qlt_bool_iff in E. rewrite Htp in E.
      destruct (Hs (pos (Sim.rand s1))) as [H0 _].
      exfalso. apply (Qlt_irrefl 0).
      apply Qle_lt_trans with (tape (Sim.rand s) (pos (Sim.rand s1))); [assumption|].
      now apply Qlt_le_trans with (score * curiosity_level behavior). }
    unfold Sim.bind, Sim.lift, Sim.emit. cbn [Sim.rand Sim.trace].
    destruct (label element "element") as [lbl|e].
    + eexists (new ++ [_]), _. split; [reflexivity|].
      cbn [Sim.trace]. rewrite Htr, <- app_assoc. split; [reflexivity|].
      apply no_click_app; [assumption|reflexivity].
    + eexists (new ++ [_]), _. split; [reflexivity|].
      cbn [Sim.trace]. rewrite Htr, <- app_assoc. split; [reflexivity|].
      apply no_click_app; [assumption|reflexivity].
  - unfold Sim.emit. eexists (new ++ [_]), _. split; [reflexivity|].
    cbn [Sim.trace]. rewrite Htr, <- app_assoc. split; [reflexivity|].
    apply no_click_app; [assumption|reflexivity].
Qed.

Lemma interact_never_clicks_at_zero_witness :
  exists (new : list event) (s' : Sim.state),
    _interact_with_element incurious_persona steady_pointer steady_browser
      (mkWebElement 9 submit_button) 1.4 (Sim.start (constant 0.5)) = (Ok tt, s') /\
    Sim.trace s' = Sim.trace (Sim.start (constant 0.5)) ++ new /\
    no_click new.
Proof.
  apply (interact_never_clicks_at_zero incurious_persona steady_pointer steady_browser
           (mkWebElement 9 submit_button) 1.4 (Sim.start (constant 0.5))).
  - exact valid_constant_half.
  - unfold Qle. cbn. lia.
Defined.


Lemma last_cons {A : Type} (l : list A) :
  forall p d : A, last (p :: l) d = last l p.
Proof.
  induction l as [|q l IH]; intros p d; [reflexivity|].
  change (last (p :: q :: l) d) with (last (q :: l) d).
  now rewrite (IH q d), (IH q p).
Qed.






(** ** A batch of interactions *)

Lemma views_of_app (l l' : list event) :
  views_of (l ++ l') = views_of l ++ views_of l'.
Proof.
  induction l as [|e l IH]; [reflexivity|].
  destruct e; cbn; rewrite ?IH; reflexivity.
Qed.

Lemma views_of_acts (l : list action) : views_of (map Act l) = [].
Proof. induction l as [|a l IH]; [reflexivity|exact IH]. Qed.

Section Views.

Context {A B : Type}.

Lemma adds_ret (a : A) : adds_views (Sim.ret a) [].
Proof. intros s. cbn. now rewrite app_nil_r. Qed.

Lemma adds_lift (r : result A) : adds_views (Sim.lift r) [].
Proof. intros s. cbn. now rewrite app_nil_r. Qed.

Lemma adds_draw (f : rng -> A * rng) : adds_views (Sim.draw f) [].
Proof.
  intros s. unfold Sim.draw. destruct (f (Sim.rand s)). cbn. now rewrite app_nil_r.
Qed.

Lemma adds_draw_result (f : rng -> result A * rng) : adds_views (Sim.draw_result f) [].
Proof.
  intros s. unfold Sim.draw_result. destruct (f (Sim.rand s)). cbn.
  now rewrite app_nil_r.
Qed.

Lemma adds_of_run (m : Run.M A) : adds_views (Sim.of_run m) [].
Proof.
  intros s. unfold Sim.of_run. destruct (m _) as [r s']. cbn.
  now rewrite views_of_app, views_of_acts.
Qed.

Lemma adds_bind_nil (m : Sim.M A) (k : A -> Sim.M B) (ids : list nat) :
  adds_views m ids -> (forall a, adds_views (k a) []) -> adds_views (Sim.bind m k) ids.
Proof.
  intros Hm Hk s. unfold Sim.bind. specialize (Hm s).
  destruct (m s) as [[a|e] s1]; cbn [snd] in *; [|assumption].
  now rewrite (Hk a s1), app_nil_r.
Qed.

Lemma adds_bind_total (m : Sim.M A) (k : A -> Sim.M B) (ids ids' : list nat) :
  adds_views m ids -> total m -> (forall a, adds_views (k a) ids') ->
  adds_views (Sim.bind m k) (ids ++ ids').
Proof.
  intros Hm Ht Hk s. unfold Sim.bind. specialize (Hm s). destruct (Ht s) as [a Ha].
  destruct (m s) as [r s1]; cbn [fst snd] in *. subst r.
  now rewrite (Hk a s1), Hm, app_assoc.
Qed.

Lemma adds_try_catch (m : Sim.M A) (h : exn -> Sim.M A) (ids : list nat) :
  adds_views m ids -> (forall e, adds_views (h e) []) ->
  adds_views (Sim.try_catch m h) ids.
Proof.
  intros Hm Hh s. unfold Sim.try_catch. specialize (Hm s).
  destruct (m s) as [[a|e] s1]; cbn [snd] in *; [assumption|].
  now rewrite (Hh e s1), app_nil_r.
Qed.

Lemma total_bind (m : Sim.M A) (k : A -> Sim.M B) :
  total m -> (forall a, total (k a)) -> total (Sim.bind m k).
Proof.
  intros Hm Hk s. unfold Sim.bind. destruct (Hm s) as [a Ha].
  destruct (m s) as [r s1]; cbn [fst] in *. subst r. apply Hk.
Qed.

Lemma total_try_catch (m : Sim.M A) (h : exn -> Sim.M A) :
  (forall e, total (h e)) -> total (Sim.try_catch m h).
Proof.
  intros Hh s. unfold Sim.try_catch. destruct (m s) as [[a|e] s1]; [now exists a|].
  apply Hh.
Qed.

End Views.

Lemma adds_emit (e : event) : adds_views (Sim.emit e) (views_of [e]).
Proof. intros s. cbn [Sim.emit snd Sim.trace]. apply views_of_app. Qed.

Lemma total_emit (e : event) : total (Sim.emit e).
Proof. intros s. now exists tt. Qed.

Lemma adds_move_along (pointer : Pointer) (mouse_path : list point) :
  forall (k : nat) (current : point),
    adds_views (move_along pointer k mouse_path current) [].
Proof.
  induction mouse_path as [|[x y] rest IH]; intros k current; cbn [move_along].
  - apply adds_ret.
  - apply adds_bind_nil; [apply (adds_emit (MoveByOffset _ _))|intros _].
    apply adds_bind_nil; [apply adds_lift|intros _].
    apply adds_bind_nil; [apply adds_draw|intros d].
    apply adds_bind_nil; [apply (adds_emit (Act _))|intros _]. apply IH.
Qed.

Lemma adds_approach (behavior : UserBehavior) (pointer : Pointer)
  (element : WebElement) :
  adds_views (approach behavior pointer element) [py_id element].
Proof.
  unfold approach.
  apply adds_bind_nil; [apply (adds_emit (ScrollIntoView _))|intros _].
  apply adds_bind_nil; [apply adds_lift|intros _].
  apply adds_bind_nil; [apply adds_draw|intros d].
  apply adds_bind_nil; [apply (adds_emit (Act _))|intros _].
  apply adds_bind_nil; [apply adds_lift|intros location].
  apply adds_bind_nil; [apply adds_lift|intros size].
  apply adds_bind_nil.
  { unfold target_point. destruct (Qlt_bool 0.8 (mouse_precision behavior)).
    - apply adds_ret.
    - apply adds_bind_nil; [apply adds_draw|intros dx].
      apply adds_bind_nil; [apply adds_draw|intros dy]. apply adds_ret. }
  intros target.
  apply adds_bind_nil; [apply adds_lift|intros cx].
  apply adds_bind_nil; [apply adds_lift|intros cy].
  apply adds_bind_nil; [apply adds_of_run|intros n].
  apply adds_bind_nil; [apply adds_draw_result|intros mouse_path].
  apply adds_bind_nil; [apply adds_move_along|intros _].
  apply adds_bind_nil; [apply adds_draw|intros r].
  destruct (Qlt_bool r 0.3); [|apply adds_ret].
  apply adds_bind_nil; [apply adds_draw|intros d']. apply (adds_emit (Act _)).
Qed.

Lemma adds_click_or_hover (behavior : UserBehavior) (pointer : Pointer)
  (browser : Browser) (element : WebElement) (score : Q) :
  adds_views (click_or_hover behavior pointer browser element score) [].
Proof.
  unfold click_or_hover.
  apply adds_bind_nil; [apply adds_draw|intros r].
  destruct (Qlt_bool r (score * curiosity_level behavior)).
  - apply adds_bind_nil; [apply adds_lift|intros tag].
    apply adds_bind_nil; [|intros _; apply adds_of_run].
    destruct (String.eqb (Str.lower tag) "input").
    + apply adds_bind_nil; [apply (adds_emit (Click _))|intros _].
      apply adds_bind_nil; [apply adds_lift|intros _]. apply adds_of_run.
    + apply adds_bind_nil; [apply (adds_emit (Click _))|intros _].
      apply adds_bind_nil; [apply adds_lift|intros _].
      apply adds_bind_nil; [apply adds_lift|intros lbl]. apply (adds_emit (Act _)).
  - apply adds_bind_nil; [apply adds_lift|intros lbl]. apply (adds_emit (Act _)).
Qed.

(** One interaction scrolls its element into view, once, and never raises. *)
Lemma adds_interact (behavior : UserBehavior) (pointer : Pointer) (browser : Browser)
  (element : WebElement) (score : Q) :
  adds_views (_interact_with_element behavior pointer browser element score)
             [py_id element] /\
  total (_interact_with_element behavior pointer browser element score).
Proof.
  unfold _interact_with_element. split.
  - apply adds_try_catch; [|intros e; apply (adds_emit (LogError _))].
    apply adds_bind_nil; [apply adds_approach|intros _]. apply adds_click_or_hover.
  - apply total_try_catch. intros e. apply total_emit.
Qed.

Lemma adds_interact_all (behavior : UserBehavior)
  (pointer_of : WebElement -> Pointer) (browser_of : WebElement -> Browser)
  (selected : list (WebElement * Q)) :
  adds_views (interact_all behavior pointer_of browser_of selected)
             (map (fun es => py_id (fst es)) selected) /\
  total (interact_all behavior pointer_of browser_of selected).
Proof.
  induction selected as [|[element score] rest [IHa IHt]]; cbn [interact_all map fst].
  - split; [apply adds_ret|intros s; now exists tt].
  - destruct (adds_interact behavior (pointer_of element) (browser_of element)
                element score) as [Ha Ht].
    assert (Ht' : total (Sim.try_catch
                           (_interact_with_element behavior (pointer_of element)
                              (browser_of element) element score)
                           (fun _ => Sim.emit (LogError "Interaction failed")))).
    { apply total_try_catch. intros e. apply total_emit. }
    split.
    + apply (adds_bind_total _ _ [py_id element]); [|assumption|intros _; assumption].
      apply adds_try_catch; [assumption|intros e; apply (adds_emit (LogError _))].
    + apply total_bind; [assumption|intros _; assumption].
Qed.

(** X23. Once selection has returned, [interact_intelligently]'s block
    returns normally and scrolls into view exactly the selected elements,
    each once and in selection order, whatever fails during any single
    interaction: one element's failure never ends the batch.  An exception
    raised by the selection itself is not caught: it reaches the caller
    before any element is touched. *)
Theorem interact_body_visits_selected (behavior : UserBehavior) (find : page)
  (next_id : nat) (pointer_of : WebElement -> Pointer)
  (browser_of : WebElement -> Browser) (max_interactions : Z)
  (elements : list WebElement) (s : Sim.state) :
  fst (find_interactive_elements find next_id) = Ok elements ->
  elements <> [] ->
  let scored := fst (_score_elements behavior elements (Sim.rand s)) in
  let g1 := snd (_score_elements behavior elements (Sim.rand s)) in
  let selection := fst (_select_elements_by_behavior behavior scored max_interactions g1) in
  (forall selected, selection = Ok selected ->
     exists s' : Sim.state,
       interact_body behavior find next_id pointer_of browser_of max_interactions s
       = (Ok tt, s') /\
       views_of (Sim.trace s') =
       views_of (Sim.trace s) ++ map (fun es => py_id (fst es)) selected) /\
  (forall e, selection = Raise e ->
     exists s' : Sim.state,
       interact_body behavior find next_id pointer_of browser_of max_interactions s
       = (Raise e, s') /\
       views_of (Sim.trace s') = views_of (Sim.trace s)).
Proof.
  intros Hfind Hne. cbn zeta.
  unfold interact_body, Sim.bind, Sim.lift, Sim.emit, Sim.draw, Sim.draw_result.
  rewrite Hfind.
  destruct elements as [|e0 elements]; [now elim Hne|].
  set (els := e0 :: elements). cbn [Sim.rand Sim.trace].
  destruct (_score_elements behavior els (Sim.rand s)) as [scored g1].
  cbn [fst snd Sim.rand Sim.trace].
  destruct (_select_elements_by_behavior behavior scored max_interactions g1)
    as [selection g2]. cbn [fst snd Sim.rand Sim.trace].
  split.
  - intros selected ->.
    destruct (adds_interact_all behavior pointer_of browser_of selected) as [Ha Ht].
    match goal with
    | |- context [interact_all behavior pointer_of browser_of selected ?st] =>
        specialize (Ha st); destruct (Ht st) as [[] Hok];
        destruct (interact_all behavior pointer_of browser_of selected st) as [r s']
    end.
    cbn [fst snd Sim.trace] in *. subst r. exists s'. split; [reflexivity|].
    rewrite Ha, views_of_app. cbn [views_of]. now rewrite app_nil_r.
  - intros e ->. eexists. split; [reflexivity|].
    cbn [Sim.trace]. rewrite views_of_app. cbn [views_of]. now rewrite app_nil_r.
Qed.

Lemma interact_body_visits_selected_witness :
  exists s' : Sim.state,
    interact_body focused_persona one_button_page 0
      (fun _ => steady_pointer) (fun _ => steady_browser) 5
      (Sim.start (constant 0.5)) = (Ok tt, s') /\
    views_of (Sim.trace s') = [0%nat; 1%nat].
Proof.
  destruct (proj1 (interact_body_visits_selected focused_persona one_button_page 0
                     (fun _ => steady_pointer) (fun _ => steady_browser) 5
                     [mkWebElement 0 submit_button; mkWebElement 1 submit_button]
                     (Sim.start (constant 0.5)) eq_refl ltac:(discriminate))
              _ eq_refl) as (s' & H & Hv).
  exists s'. split; [exact H|exact Hv].
Defined.

(** ** Performance metrics *)

Lemma dict_get_set_same (d : metrics) (key : string) (value : Metric) :
  dict_get (dict_set d key value) key = Some value.
Proof.
  induction d as [|[k v] d IH]; cbn.
  - now rewrite String.eqb_refl.
  - destruct (String.eqb k key) eqn:E; cbn; rewrite E; [reflexivity|exact IH].
Qed.

Lemma dict_get_set_other (d : metrics) (key other : string) (value : Metric) :
  other <> key -> dict_get (dict_set d key value) other = dict_get d other.
Proof.
  intros Hne. induction d as [|[k v] d IH]; cbn.
  - apply String.eqb_neq in Hne. rewrite String.eqb_sym. now rewrite Hne.
  - destruct (String.eqb k key) eqn:E; cbn.
    + apply String.eqb_eq in E. subst k.
      assert (String.eqb key other = false) as ->; [|reflexivity].
      apply String.eqb_neq. congruence.
    + now rewrite IH.
Qed.

Lemma dict_set_length (d : metrics) (key : string) (value : Metric) :
  List.length (dict_set d key value) =
  match dict_get d key with
  | Some _ => List.length d
  | None => S (List.length d)
  end.
Proof.
  induction d as [|[k v] d IH]; cbn; [reflexivity|].
  destruct (String.eqb k key); cbn; [reflexivity|].
  rewrite IH. now destruct (dict_get d key).
Qed.

(** X24. [performance_monitor] with monitoring on, around a block that
    returns: the metric of the action is set to the elapsed time and the
    difference of the two heap readings, replacing an earlier metric of the
    same name (the number of entries grows only for a new name), and every
    other entry is untouched.  When the block raises, the exception passes
    through and nothing is recorded.  With monitoring off, the heap script is
    never consulted and the metrics stay as they were. *)
Theorem performance_monitor_records {A : Type} (readings : Readings)
  (action_name : string) (body : Sim.M A) (recorded : metrics) (s : Sim.state)
  (m0 : Z) :
  start_memory readings = Ok m0 ->
  (forall a s1 m1,
      body s = (Ok a, s1) -> end_memory readings = Ok m1 ->
      exists recorded' s',
        performance_monitor true readings action_name body recorded s
        = (Ok (a, recorded'), s') /\
        dict_get recorded' action_name
        = Some (mkMetric (end_time readings - start_time readings) (m1 - m0)) /\
        (forall other, other <> action_name ->
                       dict_get recorded' other = dict_get recorded other) /\
        List.length recorded' =
        match dict_get recorded action_name with
        | Some _ => List.length recorded
        | None => S (List.length recorded)
        end) /\
  (forall e s1,
      body s = (Raise e, s1) ->
      performance_monitor true readings action_name body recorded s = (Raise e, s1) /\
      performance_monitor false readings action_name body recorded s = (Raise e, s1)) /\
  (forall a s1,
      body s = (Ok a, s1) ->
      performance_monitor false readings action_name body recorded s
      = (Ok (a, recorded), s1)).
Proof.
  intros Hm0. unfold performance_monitor, Sim.bind, Sim.lift, Sim.ret, Sim.emit.
  rewrite Hm0. repeat split.
  - intros a s1 m1 Hb Hm1. rewrite Hb, Hm1.
    eexists _, _. split; [reflexivity|].
    split; [apply dict_get_set_same|].
    split; [intros other Ho; now apply dict_get_set_other|apply dict_set_length].
  - now rewrite H.
  - now rewrite H.
  - intros a s1 Hb. now rewrite Hb.
Qed.

Lemma performance_monitor_records_witness :
  exists recorded' s',
    performance_monitor true (mkReadings 10 12.5 (Ok 1000%Z) (Ok 1800%Z))
      "intelligent_interaction" (Sim.ret tt)
      [("intelligent_interaction"%string, mkMetric 9 9%Z)] (Sim.start (constant 0.5))
    = (Ok (tt, recorded'), s') /\
    dict_get recorded' "intelligent_interaction" = Some (mkMetric (12.5 - 10) (1800 - 1000)) /\
    List.length recorded' = 1%nat.
Proof.
  destruct (proj1 (performance_monitor_records
                     (mkReadings 10 12.5 (Ok 1000%Z) (Ok 1800%Z))
                     "intelligent_interaction" (Sim.ret tt)
                     [("intelligent_interaction"%string, mkMetric 9 9%Z)]
                     (Sim.start (constant 0.5)) 1000 eq_refl)
              tt (Sim.start (constant 0.5)) 1800%Z eq_refl eq_refl)
    as (recorded' & s' & H & Hget & _ & Hlen).
  exists recorded', s'. split; [exact H|]. split; [exact Hget|exact Hlen].
Defined.

(** X25. On a page where nothing interactive is found,
    [interact_intelligently] logs one warning and returns: it scores
    nothing, draws no random number and sends no command; with monitoring on
    the batch metric is recorded all the same, since the early [return]
    leaves the monitored block normally. *)
Theorem interact_intelligently_nothing_found (readings : Readings)
  (behavior : UserBehavior) (find : page) (next_id : nat)
  (pointer_of : WebElement -> Pointer) (browser_of : WebElement -> Browser)
  (max_interactions : Z) (recorded : metrics) (s : Sim.state) (m0 m1 : Z) :
  fst (find_interactive_elements find next_id) = Ok [] ->
  start_memory readings = Ok m0 -> end_memory readings = Ok m1 ->
  interact_intelligently false readings behavior find next_id pointer_of browser_of
                         max_interactions recorded s
  = (Ok (tt, recorded),
     Sim.mkState (Sim.rand s)
                 (Sim.trace s ++ [LogWarning "No interactive elements found"])) /\
  interact_intelligently true readings behavior find next_id pointer_of browser_of
                         max_interactions recorded s
  = (Ok (tt, dict_set recorded "intelligent_interaction"
                      (mkMetric (end_time readings - start_time readings) (m1 - m0))),
     Sim.mkState (Sim.rand s)
                 (Sim.trace s ++ [LogWarning "No interactive elements found";
                                  Act (LogDebug "Performance - intelligent_interaction")])).
Proof.
  intros Hfind Hm0 Hm1.
  unfold interact_intelligently, performance_monitor, interact_body,
    Sim.bind, Sim.lift, Sim.ret, Sim.emit.
  rewrite Hfind, Hm0, Hm1. cbn [Sim.rand Sim.trace]. split; [reflexivity|].
  now rewrite <- app_assoc.
Qed.

Lemma interact_intelligently_nothing_found_witness :
  interact_intelligently false (mkReadings 10 12.5 (Ok 1000%Z) (Ok 1800%Z))
    casual_persona empty_page 0 (fun _ => steady_pointer) (fun _ => steady_browser)
    5 [] (Sim.start (constant 0.5))
  = (Ok (tt, []),
     Sim.mkState (constant 0.5) [LogWarning "No interactive elements found"]).
Proof.
  apply (proj1 (interact_intelligently_nothing_found
                  (mkReadings 10 12.5 (Ok 1000%Z) (Ok 1800%Z))
                  casual_persona empty_page 0 (fun _ => steady_pointer)
                  (fun _ => steady_browser) 5 [] (Sim.start (constant 0.5))
                  1000 1800 eq_refl eq_refl eq_refl)).
Defined.

(** ** Two facts about the catalog scan and the default policy, restated *)

(** X2. For every page, [find_interactive_elements] returns, without
    raising, exactly the matches of the selector catalog, selector by
    selector in catalog order and in the order the browser reports them, that
    pass the interactivity test; the objects returned are pairwise distinct
    Python objects. *)
Theorem find_interactive_elements_all_matches (find : page) (next_id : nat) :
  fst (find_interactive_elements find next_id) =
  Ok (filter interactive (fst (collect_elements find selectors next_id))) /\
  NoDup (map py_id (filter interactive (fst (collect_elements find selectors next_id)))).
Proof.
  split; [apply find_interactive_elements_is_filter|].
  pose proof (collect_elements_ids find selectors next_id) as [Hids _].
  assert (Hnd : NoDup (map py_id (fst (collect_elements find selectors next_id)))).
  { rewrite Hids. apply seq_NoDup. }
  revert Hnd. generalize (fst (collect_elements find selectors next_id)).
  induction l as [|e l IH]; cbn; intros Hnd; [constructor|].
  inversion Hnd as [|? ? Hnotin Hnd']; subst.
  destruct (interactive e); cbn; [|now apply IH].
  constructor; [|now apply IH].
  intros Hin. apply Hnotin. apply in_map_iff in Hin.
  destruct Hin as (e' & He' & Hin). apply filter_In in Hin.
  apply in_map_iff. exists e'. tauto.
Qed.

(** X8. Under the Casual and the Researcher pattern, every list of
    non-negative scores that is longer than the budget, has a positive total
    and has fewer positive scores than the budget makes the selection raise
    [ValueError]: the weighted draw cannot find enough entries of non-zero
    probability. *)
Theorem select_default_few_positive_raises (behavior : UserBehavior)
  (scored_elements : list (WebElement * Q)) (max_count : Z) (g : rng) :
  pattern behavior = CASUAL \/ pattern behavior = RESEARCHER ->
  Forall (fun w => 0 <= w) (map snd scored_elements) ->
  (max_count < Z.of_nat (List.length scored_elements))%Z ->
  ~ sum (map snd scored_elements) == 0 ->
  (Z.of_nat (Numpy.count_nonzero (map snd scored_elements)) < max_count)%Z ->
  _select_elements_by_behavior behavior scored_elements max_count g =
  (Raise ValueError, g).
Proof. exact (select_default_raises_few_positive behavior scored_elements max_count g). Qed.

Lemma select_default_few_positive_raises_witness :
  _select_elements_by_behavior casual_persona
    [(mkWebElement 0 submit_button, 0.5); (mkWebElement 1 (footer_div 2), 0);
     (mkWebElement 2 (footer_div 3), 0)] 2 (constant 0.5)
  = (Raise ValueError, constant 0.5).
Proof.
  apply select_default_few_positive_raises.
  - now left.
  - repeat constructor; unfold Qle; cbn; lia.
  - cbn. lia.
  - intros H. apply Qeq_bool_iff in H. discriminate H.
  - cbn. lia.
Defined.

(** ** Element selection: the weighted draw *)

Lemma cumsum_last (p : list Q) (acc : Q) :
  last (Numpy.cumsum_from acc p) acc = fold_left Qplus p acc.
Proof.
  revert acc. induction p as [|w p IH]; intros acc; [reflexivity|].
  cbn [Numpy.cumsum_from fold_left]. rewrite last_cons. apply IH.
Qed.

(** The index [searchsorted] finds for a value between the start and the
    end of a normalised cumulative sum is in range and carries a positive
    weight. *)
Lemma searchsorted_right_spec (total x : Q) (p : list Q) :
  0 < total ->
  forall acc : Q,
    acc / total <= x -> x < fold_left Qplus p acc / total ->
    let j := Numpy.searchsorted_right
               (map (fun c => c / total) (Numpy.cumsum_from acc p)) x in
    (j < List.length p)%nat /\ 0 < nth j p 0.
Proof.
  intros Ht. induction p as [|w p IH]; intros acc Hlo Hhi; cbn in Hhi |- *.
  - exfalso. apply (Qlt_irrefl x). eapply Qlt_le_trans; eassumption.
  - destruct (Qlt_bool x ((acc + w) / total)) eqn:E.
    + split; [lia|]. apply Qlt_bool_iff in E.
      assert (H : acc / total < (acc + w) / total) by (eapply Qle_lt_trans; eassumption).
      unfold Qdiv in H. apply Qmult_lt_r in H; [lra|now apply Qinv_lt_0_compat].
    + assert (Hge : (acc + w) / total <= x).
      { apply Qnot_lt_le. intros H. apply Qlt_bool_iff in H. congruence. }
      destruct (IH (acc + w) Hge Hhi) as [Hj Hw]. split; [lia|exact Hw].
Qed.

Lemma nth_indexed_map (f : nat * Q -> Q) (p : list Q) :
  forall s j : nat,
    (j < List.length p)%nat ->
    nth j (map f (combine (seq s (List.length p)) p)) 0 = f ((s + j)%nat, nth j p 0).
Proof.
  induction p as [|w p IH]; intros s j Hj; cbn in Hj |- *; [lia|].
  destruct j as [|j].
  - now rewrite Nat.add_0_r.
  - rewrite IH by lia. now rewrite Nat.add_succ_r.
Qed.

Lemma zero_at_length (found : list nat) (p : list Q) :
  List.length (Numpy.zero_at found p) = List.length p.
Proof.
  unfold Numpy.zero_at.
  now rewrite length_map, length_combine, length_seq, Nat.min_id.
Qed.

Lemma zero_at_nth (found : list nat) (p : list Q) (j : nat) :
  (j < List.length p)%nat ->
  nth j (Numpy.zero_at found p) 0 =
  if existsb (Nat.eqb j) found then 0 else nth j p 0.
Proof. intros Hj. unfold Numpy.zero_at. now rewrite nth_indexed_map. Qed.

Lemma zero_at_nonneg (found : list nat) (p : list Q) :
  Forall (fun w => 0 <= w) p -> Forall (fun w => 0 <= w) (Numpy.zero_at found p).
Proof.
  intros Hp. apply Forall_forall. intros w Hw.
  apply (In_nth _ _ 0) in Hw. destruct Hw as (j & Hj & <-).
  rewrite zero_at_length in Hj. rewrite zero_at_nth by assumption.
  destruct (existsb (Nat.eqb j) found); [apply Qle_refl|].
  rewrite Forall_forall in Hp. apply Hp. now apply nth_In.
Qed.

Lemma fold_left_Qplus_pos (l : list Q) :
  Forall (fun w => 0 <= w) l ->
  forall (j : nat) (a : Q),
    (j < List.length l)%nat -> 0 < nth j l 0 -> a < fold_left Qplus l a.
Proof.
  induction l as [|w l IH]; intros Hl j a Hj Hw; cbn in Hj |- *; [lia|].
  inversion Hl; subst.
  destruct j as [|j]; cbn in Hw.
  - apply Qlt_le_trans with (a + w); [lra|now apply fold_left_Qplus_le].
  - apply Qle_lt_trans with (a + w); [lra|]. apply (IH H2 j); [lia|assumption].
Qed.

(** [draws] reads values of the tape, each in [0, 1). *)
Lemma draws_spec (m : nat) :
  forall g : rng,
    valid g ->
    List.length (fst (Numpy.draws m g)) = m /\
    Forall (fun x => 0 <= x /\ x < 1) (fst (Numpy.draws m g)) /\
    tape (snd (Numpy.draws m g)) = tape g.
Proof.
  induction m as [|m IH]; intros g Hg; cbn; [now repeat split|].
  destruct (Numpy.draws m {| tape := tape g; pos := S (pos g) |}) as [xs g''] eqn:E.
  destruct (IH {| tape := tape g; pos := S (pos g) |} Hg) as (Hl & Hx & Ht).
  rewrite E in Hl, Hx, Ht. cbn in *.
  split; [now rewrite Hl|]. split; [|exact Ht].
  constructor; [apply Hg|exact Hx].
Qed.

Lemma unique_in_order_spec (new : list nat) :
  forall seen : list nat,
    NoDup (Numpy.unique_in_order seen new) /\
    (forall i, In i (Numpy.unique_in_order seen new) -> In i new /\ ~ In i seen) /\
    (List.length (Numpy.unique_in_order seen new) <= List.length new)%nat.
Proof.
  induction new as [|i new IH]; intros seen; cbn.
  - split; [constructor|]. split; [intros i []|lia].
  - destruct (existsb (Nat.eqb i) seen) eqn:E.
    + destruct (IH seen) as (Hn & Hin & Hl).
      split; [exact Hn|]. split; [|lia].
      intros k Hk. destruct (Hin k Hk). split; [now right|assumption].
    + destruct (IH (i :: seen)) as (Hn & Hin & Hl).
      split; [|split; [|cbn; lia]].
      * constructor; [|exact Hn]. intros Hi. destruct (Hin i Hi) as [_ H].
        apply H. now left.
      * intros k [<-|Hk].
        -- split; [now left|]. intros Hi.
           assert (existsb (Nat.eqb i) seen = true); [|congruence].
           apply existsb_exists. exists i. split; [assumption|apply Nat.eqb_refl].
        -- destruct (Hin k Hk) as [H1 H2]. split; [now right|].
           intros Hs. apply H2. now right.
Qed.

Lemma unique_in_order_nonempty (x : nat) (new : list nat) :
  (1 <= List.length (Numpy.unique_in_order [] (x :: new)))%nat.
Proof. cbn. lia. Qed.

Lemma preds_In (found : list nat) (k : nat) :
  In k (flat_map (fun i => match i with O => [] | S k => [k] end) found) <->
  In (S k) found.
Proof.
  rewrite in_flat_map. split.
  - intros ([|i] & Hi & Hk); [destruct Hk|]. destruct Hk as [<-|[]]. exact Hi.
  - intros H. exists (S k). split; [exact H|now left].
Qed.

Lemma preds_length (found : list nat) :
  (List.length (flat_map (fun i => match i with O => [] | S k => [k] end) found)
   <= List.length found)%nat /\
  (In O found ->
   List.length (flat_map (fun i => match i with O => [] | S k => [k] end) found)
   < List.length found)%nat.
Proof.
  induction found as [|[|i] found [IH1 IH2]]; cbn.
  - split; [lia|intros []].
  - split; [lia|intros _; lia].
  - split; [lia|]. intros [H|H]; [discriminate|]. specialize (IH2 H). lia.
Qed.

(** More positive weights than indices found: a positive weight is left. *)
Lemma positive_weight_left (p : list Q) :
  forall found : list nat,
    (List.length found < Numpy.count_nonzero p)%nat ->
    exists j, (j < List.length p)%nat /\ 0 < nth j p 0 /\ ~ In j found.
Proof.
  unfold Numpy.count_nonzero.
  induction p as [|w p IH]; intros found Hc; cbn in Hc; [lia|].
  set (found' := flat_map (fun i => match i with O => [] | S k => [k] end) found).
  destruct (preds_length found) as [Hle Hlt]. fold found' in Hle, Hlt.
  destruct (Qlt_bool 0 w) eqn:E; cbn in Hc.
  - destruct (in_dec Nat.eq_dec O found) as [H0|H0].
    + specialize (Hlt H0).
      destruct (IH found') as (j & Hj & Hw & Hn); [lia|].
      exists (S j). cbn. split; [lia|]. split; [exact Hw|].
      intros H. apply Hn. now apply preds_In.
    + exists O. cbn. split; [lia|]. split; [now apply Qlt_bool_iff|exact H0].
  - destruct (IH found') as (j & Hj & Hw & Hn); [lia|].
    exists (S j). cbn. split; [lia|]. split; [exact Hw|].
    intros H. apply Hn. now apply preds_In.
Qed.

(** One round of the sampling loop: the indices it adds are new, distinct,
    in range and of positive weight, and there is at least one. *)
Lemma choice_round (p : list Q) (found : list nat) (x : list Q) :
  Forall (fun w => 0 <= w) p ->
  (List.length found < Numpy.count_nonzero p)%nat ->
  Forall (fun u => 0 <= u /\ u < 1) x ->
  x <> [] ->
  let p' := Numpy.zero_at found p in
  let cdf := Numpy.cumsum_from 0 p' in
  let total := last cdf 0 in
  let new := Numpy.unique_in_order []
               (map (Numpy.searchsorted_right (map (fun c => c / total) cdf)) x) in
  NoDup new /\
  (forall j, In j new -> positive_index p j /\ ~ In j found) /\
  (1 <= List.length new <= List.length x)%nat.
Proof.
  intros Hp Hc Hx Hne p' cdf total new.
  assert (Hp' : Forall (fun w => 0 <= w) p') by now apply zero_at_nonneg.
  assert (Htotal : 0 < total).
  { unfold total, cdf. rewrite cumsum_last.
    destruct (positive_weight_left p found Hc) as (j & Hj & Hw & Hn).
    apply (fold_left_Qplus_pos p' Hp' j).
    - unfold p'. now rewrite zero_at_length.
    - unfold p'. rewrite zero_at_nth by assumption.
      destruct (existsb (Nat.eqb j) found) eqn:E; [|exact Hw].
      apply existsb_exists in E. destruct E as (k & Hk & E).
      apply Nat.eqb_eq in E. subst k. contradiction. }
  destruct (unique_in_order_spec
              (map (Numpy.searchsorted_right (map (fun c => c / total) cdf)) x) [])
    as (Hn & Hin & Hl).
  fold new in Hn, Hin, Hl. rewrite length_map in Hl.
  split; [exact Hn|]. split.
  - intros j Hj. apply Hin in Hj. destruct Hj as [Hj _].
    apply in_map_iff in Hj. destruct Hj as (u & <- & Hu).
    rewrite Forall_forall in Hx. destruct (Hx u Hu) as [Hu0 Hu1].
    destruct (searchsorted_right_spec total u p' Htotal 0) as [Hj Hw].
    + unfold Qdiv. lra.
    + fold (Numpy.cumsum_from 0 p'). rewrite <- cumsum_last. fold cdf. fold total.
      assert (E : total / total == 1) by (field; lra). rewrite E. exact Hu1.
    + fold cdf in Hj, Hw.
      set (j := Numpy.searchsorted_right (map (fun c => c / total) cdf) u) in *.
      unfold p' in Hj. rewrite zero_at_length in Hj.
      unfold p' in Hw. rewrite zero_at_nth in Hw by assumption.
      destruct (existsb (Nat.eqb j) found) eqn:E.
      * exfalso. apply (Qlt_irrefl 0). exact Hw.
      * split; [split; assumption|]. intros Hf.
        assert (existsb (Nat.eqb j) found = true); [|congruence].
        apply existsb_exists. exists j. split; [assumption|apply Nat.eqb_refl].
  - split; [|exact Hl]. destruct x as [|u x]; [congruence|]. cbn. lia.
Qed.

(** The sampling loop ends with [size] distinct indices of positive weight. *)
Lemma choice_loop_spec (size : nat) (p : list Q) :
  Forall (fun w => 0 <= w) p ->
  (size <= Numpy.count_nonzero p)%nat ->
  forall (rounds : nat) (found : list nat) (g : rng),
    valid g ->
    NoDup found ->
    Forall (positive_index p) found ->
    (List.length found <= size <= List.length found + rounds)%nat ->
    let out := Numpy.choice_loop rounds size p found g in
    List.length (fst out) = size /\
    NoDup (fst out) /\
    Forall (positive_index p) (fst out) /\
    tape (snd out) = tape g.
Proof.
  intros Hp Hsize.
  induction rounds as [|rounds IH]; intros found g Hg Hn Hf Hl; cbn.
  - repeat split; [lia|assumption|assumption].
  - destruct (Nat.leb_spec size (List.length found)) as [Hle|Hlt]; cbn.
    + repeat split; [lia|assumption|assumption].
    + destruct (Numpy.draws (size - List.length found) g) as [x g'] eqn:Ed.
      destruct (draws_spec (size - List.length found) g Hg) as (Hxl & Hx & Ht).
      rewrite Ed in Hxl, Hx, Ht. cbn [fst snd] in Hxl, Hx, Ht.
      destruct (choice_round p found x Hp) as (Hnew & Hin & Hlen);
        [lia|exact Hx|destruct x; [cbn in Hxl; lia|discriminate]|].
      match goal with
      | |- context [Numpy.choice_loop rounds size p (found ++ ?n) g'] =>
          set (new := n) in *
      end.
      destruct (IH (found ++ new) g') as (H1 & H2 & H3 & H4).
      * intros i. rewrite Ht. apply Hg.
      * apply NoDup_app; [assumption|assumption|].
        intros j Hj Hj'. now apply (Hin j Hj').
      * apply Forall_app. split; [assumption|].
        apply Forall_forall. intros j Hj. now apply Hin.
      * rewrite length_app. lia.
      * repeat split; [assumption|assumption|assumption|congruence].
Qed.

Lemma sum_shares (l : list Q) (total : Q) :
  ~ total == 0 -> sum (map (fun w => w / total) l) == sum l / total.
Proof.
  intros Ht. unfold sum. induction l as [|w l IH]; cbn.
  - field. exact Ht.
  - rewrite fold_left_Qplus_acc, IH, (fold_left_Qplus_acc l (0 + w)). field. exact Ht.
Qed.

Lemma count_nonzero_le (p : list Q) : (Numpy.count_nonzero p <= List.length p)%nat.
Proof. apply filter_length_le. Qed.

(** [np.random.choice] without replacement, when the arguments pass its
    checks: [size] distinct indices, each of positive probability. *)
Lemma random_choice_spec (p : list Q) (size : Z) (g : rng) :
  valid g ->
  Forall (fun w => 0 <= w) p ->
  sum p == 1 ->
  (0 <= size <= Z.of_nat (Numpy.count_nonzero p))%Z ->
  exists (indices : list nat) (g' : rng),
    Numpy.random_choice (List.length p) size p g = (Ok indices, g') /\
    List.length indices = Z.to_nat size /\
    NoDup indices /\
    Forall (positive_index p) indices /\
    tape g' = tape g.
Proof.
  intros Hg Hp Hsum Hsize.
  pose proof (count_nonzero_le p) as Hc.
  unfold Numpy.random_choice.
  assert (E1 : ((List.length p =? 0)%nat && negb (size =? 0)%Z) = false).
  { destruct (Nat.eqb_spec (List.length p) 0) as [E|E]; [|reflexivity].
    destruct (Z.eqb_spec size 0); [reflexivity|lia]. }
  rewrite E1, Nat.eqb_refl. cbn [negb].
  assert (E2 : existsb (fun w => Qlt_bool w 0) p = false).
  { apply not_true_iff_false. intros H. apply existsb_exists in H.
    destruct H as (w & Hw & H). apply Qlt_bool_iff in H.
    rewrite Forall_forall in Hp. specialize (Hp w Hw). lra. }
  rewrite E2.
  assert (E3 : Qeq_bool (sum p) 1 = true) by now apply Qeq_bool_iff.
  rewrite E3. cbn [negb].
  destruct (Z.ltb_spec (Z.of_nat (List.length p)) size); [lia|].
  destruct (Z.ltb_spec size 0); [lia|].
  destruct (Z.ltb_spec (Z.of_nat (Numpy.count_nonzero p)) size); [lia|].
  destruct (choice_loop_spec (Z.to_nat size) p Hp ltac:(lia) (Z.to_nat size) [] g Hg)
    as (Hl & Hn & Hf & Ht); [constructor|constructor|cbn; lia|].
  destruct (Numpy.choice_loop (Z.to_nat size) (Z.to_nat size) p [] g) as [idx g'].
  exists idx, g'. cbn [fst snd] in *. repeat split; assumption.
Qed.

Lemma mapM_getitem {A : Type} (l : list A) (indices : list nat) :
  Forall (fun i => (i < List.length l)%nat) indices ->
  exists picks,
    mapM (getitem l) indices = Ok picks /\
    Forall2 (fun i pick => nth_error l i = Some pick) indices picks.
Proof.
  induction 1 as [|i indices Hi _ (picks & E & IH)]; cbn.
  - exists []. split; [reflexivity|constructor].
  - unfold getitem at 1.
    destruct (nth_error l i) as [x|] eqn:Ex; [|apply nth_error_None in Ex; lia].
    cbn. rewrite E. cbn. exists (x :: picks). split; [reflexivity|].
    constructor; assumption.
Qed.

(** X26. Under the Casual and the Researcher pattern, when no score is
    negative, the list is longer than the budget [max_count >= 0] and at
    least [max_count] scores are positive, the weighted selection never
    raises: it returns exactly [max_count] entries, taken at pairwise
    distinct positions of the input, each with a positive score (an entry
    of score 0 is never selected); the sampling loop ends within
    [max_count] rounds. *)
Theorem select_default_weighted (behavior : UserBehavior)
  (scored_elements : list (WebElement * Q)) (max_count : Z) (g : rng) :
  pattern behavior = CASUAL \/ pattern behavior = RESEARCHER ->
  valid g ->
  Forall (fun w => 0 <= w) (map snd scored_elements) ->
  (0 <= max_count < Z.of_nat (List.length scored_elements))%Z ->
  (max_count <= Z.of_nat (Numpy.count_nonzero (map snd scored_elements)))%Z ->
  exists (indices : list nat) (picks : list (WebElement * Q)) (g' : rng),
    _select_elements_by_behavior behavior scored_elements max_count g = (Ok picks, g') /\
    Z.of_nat (List.length picks) = max_count /\
    NoDup indices /\
    Forall2 (fun i pick => nth_error scored_elements i = Some pick /\ 0 < snd pick)
            indices picks /\
    tape g' = tape g.
Proof.
  intros Hpat Hg Hnn Hmax Hcount.
  set (weights := map snd scored_elements) in *.
  assert (Hbody :
    exists indices picks g',
      (if (Z.of_nat (List.length scored_elements) <=? max_count)%Z
       then (Ok scored_elements, g)
       else
         if Qeq_bool (sum weights) 0
         then random_sample scored_elements
                (Z.min max_count (Z.of_nat (List.length scored_elements))) g
         else
           match Numpy.random_choice (List.length scored_elements)
                   (Z.min max_count (Z.of_nat (List.length scored_elements)))
                   (map (fun w => w / sum weights) weights) g with
           | (Ok indices, g') => (mapM (getitem scored_elements) indices, g')
           | (Raise e, g') => (Raise e, g')
           end) = (Ok picks, g') /\
      Z.of_nat (List.length picks) = max_count /\
      NoDup indices /\
      Forall2 (fun i pick => nth_error scored_elements i = Some pick /\ 0 < snd pick)
              indices picks /\
      tape g' = tape g).
  { destruct (Z.leb_spec (Z.of_nat (List.length scored_elements)) max_count); [lia|].
    rewrite Z.min_l by lia.
    destruct (Qeq_bool (sum weights) 0) eqn:E.
    - (* no positive weight at all: [max_count] is 0 *)
      apply Qeq_bool_iff in E.
      assert (Hz : max_count = 0%Z).
      { destruct (Z.eq_dec max_count 0) as [|Hne]; [assumption|exfalso].
        destruct (positive_weight_left weights []) as (j & Hj & Hw & _); [cbn; lia|].
        pose proof (fold_left_Qplus_pos weights Hnn j 0 Hj Hw) as Hpos.
        unfold sum in E. lra. }
      subst max_count. exists [], [], g.
      assert (Hs : random_sample scored_elements 0 g = (Ok [], g)).
      { unfold random_sample.
        destruct (Z.ltb_spec (Z.of_nat (List.length scored_elements)) 0); [lia|].
        reflexivity. }
      rewrite Hs. repeat split; constructor.
    - assert (Htotal : 0 < sum weights).
      { pose proof (sum_nonneg _ Hnn) as H0.
        apply Qle_lteq in H0. destruct H0 as [H0|H0]; [assumption|].
        symmetry in H0. apply Qeq_bool_iff in H0. congruence. }
      set (p := map (fun w => w / sum weights) weights).
      assert (Hlen : List.length p = List.length scored_elements).
      { unfold p, weights. now rewrite !length_map. }
      destruct (random_choice_spec p max_count g Hg) as (idx & g' & Hrun & Hl & Hn & Hf & Ht).
      + apply Forall_forall. intros q Hq. apply in_map_iff in Hq.
        destruct Hq as (w & <- & Hw). rewrite Forall_forall in Hnn.
        specialize (Hnn w Hw). apply Qle_shift_div_l; [assumption|lra].
      + unfold p. rewrite sum_shares by lra. field. lra.
      + unfold p. rewrite count_nonzero_shares by assumption. lia.
      + rewrite Hlen in Hrun. rewrite Hrun.
        assert (Hidx : Forall (fun i => (i < List.length scored_elements)%nat) idx).
        { eapply Forall_impl; [|exact Hf]. intros i [Hi _]. now rewrite <- Hlen. }
        destruct (mapM_getitem scored_elements idx Hidx) as (picks & Hpicks & H2).
        exists idx, picks, g'. rewrite Hpicks.
        split; [reflexivity|]. split.
        { apply Forall2_length in H2. lia. }
        split; [exact Hn|]. split; [|exact Ht].
        clear Hrun Hl Hn Hidx Hpicks.
        induction H2 as [|i pick idx picks Hi H2 IH]; [constructor|].
        inversion Hf as [|? ? [Hi1 Hi2] Hf']; subst.
        constructor; [|now apply IH].
        split; [exact Hi|].
        unfold p in Hi2.
        rewrite (nth_indep _ 0 (0 / sum weights)) in Hi2 by exact Hi1.
        rewrite (map_nth (fun w => w / sum weights)) in Hi2.
        apply Qlt_bool_iff in Hi2. rewrite positive_share in Hi2 by assumption.
        apply Qlt_bool_iff in Hi2.
        unfold weights in Hi2.
        rewrite (nth_indep _ 0 (snd pick)) in Hi2
          by (rewrite length_map; now rewrite <- Hlen).
        rewrite (map_nth snd) in Hi2.
        now rewrite (nth_error_nth _ _ _ Hi) in Hi2. }
  unfold _select_elements_by_behavior.
  destruct Hpat as [-> | ->]; exact Hbody.
Qed.

Lemma select_default_weighted_witness :
  exists (indices : list nat) (picks : list (WebElement * Q)) (g' : rng),
    _select_elements_by_behavior casual_persona
      (map (fun n => (mkWebElement n (footer_div n), 0.25)) (seq 0 4))
      2 (constant 0.5) = (Ok picks, g') /\
    Z.of_nat (List.length picks) = 2%Z /\
    NoDup indices /\
    Forall2 (fun i pick =>
               nth_error (map (fun n => (mkWebElement n (footer_div n), 0.25)) (seq 0 4)) i
               = Some pick /\ 0 < snd pick)
            indices picks /\
    tape g' = tape (constant 0.5).
Proof.
  apply (select_default_weighted casual_persona
           (map (fun n => (mkWebElement n (footer_div n), 0.25)) (seq 0 4))
           2 (constant 0.5)).
  - left. reflexivity.
  - exact valid_constant_half.
  - repeat constructor; apply Qle_bool_iff; reflexivity.
  - cbn. lia.
  - cbn. lia.
Defined.

(** ** The python.org visitor ([main.py]) *)

(** Swapping two positions in range rearranges the list. *)
Lemma swap_perm {A : Type} (x : list A) (i j : nat) :
  (j <= i)%nat -> Permutation (swap x i j) x.
Proof.
  intros Hji. unfold swap.
  destruct (nth_error x i) as [a|] eqn:Ea; [|reflexivity].
  destruct (nth_error x j) as [b|] eqn:Eb; [|reflexivity].
  destruct (nth_error_split x i Ea) as (l1 & l2 & -> & Hl1).
  destruct (Nat.eq_dec j i) as [->|Hne].
  - assert (b = a) by congruence. subst b.
    rewrite <- Hl1. now rewrite !set_nth_app.
  - rewrite nth_error_app1 in Eb by lia.
    destruct (nth_error_split l1 j Eb) as (m1 & m2 & -> & Hm1).
    rewrite <- Hl1. rewrite set_nth_app.
    rewrite <- Hm1. rewrite <- !app_assoc. cbn [app]. rewrite set_nth_app.
    apply Permutation_app_head.
    apply Permutation_trans with (a :: b :: m2 ++ l2).
    { apply perm_skip. apply Permutation_sym, Permutation_middle. }
    apply Permutation_trans with (b :: a :: m2 ++ l2); [apply perm_swap|].
    apply perm_skip. apply Permutation_middle.
Qed.

(** [random.shuffle] rearranges its argument. *)
Lemma shuffle_loop_spec {A : Type} (i : nat) :
  forall (x : list A) (g : rng),
    valid g ->
    Permutation (fst (shuffle_loop i x g)) x /\
    tape (snd (shuffle_loop i x g)) = tape g.
Proof.
  induction i as [|i IH]; intros x g Hg; [split; reflexivity|].
  cbn [shuffle_loop].
  pose proof (randbelow_range (Z.of_nat (S i + 1)) g Hg ltac:(lia)) as Hj.
  destruct (randbelow (Z.of_nat (S i + 1)) g) as [j g'] eqn:E.
  assert (Ht : tape g' = tape g).
  { change g' with (snd (j, g')). rewrite <- E. apply randbelow_tape. }
  cbn [fst] in Hj.
  destruct (IH (swap x (S i) (Z.to_nat j)) g') as [Hp Ht'].
  { intros k. rewrite Ht. apply Hg. }
  split; [|congruence].
  eapply Permutation_trans; [exact Hp|]. apply swap_perm. lia.
Qed.

Lemma shuffle_spec {A : Type} (x : list A) (g : rng) :
  valid g ->
  Permutation (fst (shuffle x g)) x /\ tape (snd (shuffle x g)) = tape g.
Proof. apply shuffle_loop_spec. Qed.

Lemma sought_app (l l' : list event) : sought (l ++ l') = sought l ++ sought l'.
Proof.
  induction l as [|e l IH]; [reflexivity|].
  destruct e; cbn; rewrite ?IH; reflexivity.
Qed.


(** One visit, as the loop around it sees it: it returns, looks up its own
    link text only, and neither scrolls nor quits. *)
Lemma visit_link_by_text_frame (answers : Visit) (link_text : string) (s : Sim.state) :
  exists (new : list event) (s' : Sim.state),
    visit_link_by_text answers link_text s = (Ok tt, s') /\
    Sim.trace s' = Sim.trace s ++ new /\
    tape (Sim.rand s') = tape (Sim.rand s) /\
    sought new = [link_text] /\
    scrolls_of new = [] /\
    existsb is_quit new = false.
Proof.
  destruct s as [[tp ps] tr].
  destruct answers as [[link|e1] [[]|e2] [[]|e3] [[]|e4]]; unfold visit_link_by_text, Sim.try_catch;
    cbn [link_found move_performed link_clicked went_back];
    repeat sim_step;
    unfold Sim.sleep, Sim.emit; cbn [Sim.rand Sim.trace];
    rewrite <- ?app_assoc; cbn [app];
    (eexists; eexists; split; [reflexivity|]; split; [reflexivity|];
     repeat split).
Qed.

(** X27. Whatever the driver answers, [visit_link_by_text] returns
    normally: every exception is caught and reported by a "Could not visit"
    line.  "Visited <text>" is printed, and [driver.back()] is called,
    exactly when the link was found, the pointer move was performed and the
    click went through; a "Could not visit" line is printed exactly when
    one of the four driver calls raised, so a visit whose click succeeded
    and whose [back()] failed prints both lines. *)
Theorem visit_link_by_text_never_raises (answers : Visit) (link_text : string)
  (s : Sim.state) :
  exists (new : list event) (s' : Sim.state),
    visit_link_by_text answers link_text s = (Ok tt, s') /\
    Sim.trace s' = Sim.trace s ++ new /\
    (In (Print ("Visited " ++ link_text)) new <-> clicked answers) /\
    (In (Act Back) new <-> clicked answers) /\
    ((exists e, In (PrintError ("Could not visit " ++ link_text ++ ": ") e) new) <->
     ~ (clicked answers /\ went_back answers = Ok tt)).
Proof.
  destruct s as [[tp ps] tr]. unfold clicked.
  destruct answers as [[link|e1] [[]|e2] [[]|e3] [[]|e4]]; unfold visit_link_by_text, Sim.try_catch;
    cbn [link_found move_performed link_clicked went_back];
    repeat sim_step;
    unfold Sim.sleep, Sim.emit; cbn [Sim.rand Sim.trace];
    rewrite <- ?app_assoc; cbn [app];
    (eexists; eexists; split; [reflexivity|]; split; [reflexivity|]);
    cbn [link_found move_performed link_clicked went_back In].
  all: repeat match goal with
             | |- _ /\ _ => split
             | |- _ <-> _ => split
             | |- _ -> _ => intro
             | |- ~ _ => intro
             | H : _ /\ _ |- _ => destruct H
             | H : _ \/ _ |- _ => destruct H
             | H : exists _, _ |- _ => destruct H
             | H : False |- _ => destruct H
             end;
    try discriminate; try reflexivity;
    try solve [ exfalso;
                match goal with
                | H : ~ _ |- _ => apply H; repeat split; eexists; reflexivity
                end
              | eexists; reflexivity
              | auto 20
              | eexists; eauto 20 ].
Qed.

Lemma visit_all_spec (site : nat -> string -> Visit) (pages : list string) :
  forall (k : nat) (s : Sim.state),
    exists (new : list event) (s' : Sim.state),
      visit_all site k pages s = (Ok tt, s') /\
      Sim.trace s' = Sim.trace s ++ new /\
      tape (Sim.rand s') = tape (Sim.rand s) /\
      sought new = pages /\
      scrolls_of new = [] /\
      existsb is_quit new = false.
Proof.
  induction pages as [|page rest IH]; intros k s; cbn [visit_all].
  - exists [], s. rewrite app_nil_r. repeat split.
  - destruct (visit_link_by_text_frame (site k page) page s)
      as (new1 & s1 & E1 & Ht1 & Hp1 & Hs1 & Hsc1 & Hq1).
    destruct (IH (S k) s1) as (new2 & s2 & E2 & Ht2 & Hp2 & Hs2 & Hsc2 & Hq2).
    exists (new1 ++ new2), s2. unfold Sim.bind. rewrite E1, E2.
    split; [reflexivity|]. split; [now rewrite Ht2, Ht1, app_assoc|].
    split; [congruence|].
    rewrite sought_app, scrolls_of_app, existsb_app, Hs1, Hs2, Hsc1, Hsc2, Hq1, Hq2.
    repeat split.
Qed.

Lemma scroll_chunks_spec (scrolled : nat -> result unit) :
  (forall k, scrolled k = Ok tt) ->
  forall (remaining k : nat) (s : Sim.state),
    valid (Sim.rand s) ->
    exists (new : list event) (s' : Sim.state),
      scroll_chunks scrolled k remaining s = (Ok tt, s') /\
      Sim.trace s' = Sim.trace s ++ new /\
      tape (Sim.rand s') = tape (Sim.rand s) /\
      sought new = [] /\
      List.length (scrolls_of new) = remaining /\
      Forall (fun dy => 300 <= dy <= 800)%Z (scrolls_of new) /\
      existsb is_quit new = false.
Proof.
  intros Hok. induction remaining as [|remaining IH]; intros k s Hs; cbn [scroll_chunks].
  - exists [], s. rewrite app_nil_r. repeat split. constructor.
  - destruct (sim_randint 300 800 s Hs ltac:(lia)) as (amount & s1 & E1 & Ha & Ht1 & Hp1).
    unfold Sim.bind at 1. rewrite E1.
    unfold Sim.bind at 1. unfold Sim.emit at 1.
    unfold Sim.bind at 1. unfold Sim.lift at 1. rewrite Hok.
    unfold Sim.bind at 1. unfold Sim.draw at 1. cbn [Sim.rand Sim.trace].
    destruct (uniform 1 2 (Sim.rand s1)) as [d g2] eqn:Ed.
    assert (Hg2 : tape g2 = tape (Sim.rand s1)).
    { unfold uniform, random in Ed. now injection Ed as _ <-. }
    unfold Sim.bind at 1. unfold Sim.sleep at 1, Sim.emit at 1. cbn [Sim.rand Sim.trace].
    match goal with
    | |- context [scroll_chunks scrolled (S k) remaining ?st] =>
        destruct (IH (S k) st) as (new & s' & E & Ht & Hp & Hso & Hl & Hf & Hq)
    end.
    { cbn [Sim.rand]. intros i. rewrite Hg2, Hp1. apply Hs. }
    cbn [Sim.rand Sim.trace] in Ht, Hp.
    exists (ScrollBy amount :: Act (Sleep d) :: new), s'.
    split; [exact E|].
    split; [rewrite Ht, Ht1, <- !app_assoc; reflexivity|].
    split; [congruence|].
    cbn. rewrite Hso, Hl, Hq. repeat split. constructor; assumption.
Qed.

Lemma NoDup_firstn {A : Type} (n : nat) (l : list A) : NoDup l -> NoDup (firstn n l).
Proof.
  intros H. rewrite <- (firstn_skipn n l) in H. now apply NoDup_app_remove_r in H.
Qed.

Lemma pages_to_visit_distinct : NoDup pages_to_visit.
Proof.
  unfold pages_to_visit.
  repeat constructor; cbn; intros H;
    repeat match goal with H : _ \/ _ |- _ => destruct H end;
    try discriminate; assumption.
Qed.

(** The pages visited: a prefix of length [n] of a rearrangement of the
    five link texts. *)
Lemma visited_pages (pages : list string) (n : Z) :
  Permutation pages pages_to_visit -> (2 <= n <= 5)%Z ->
  List.length (slice_to pages n) = Z.to_nat n /\
  NoDup (slice_to pages n) /\
  incl (slice_to pages n) pages_to_visit.
Proof.
  intros Hp Hn. rewrite slice_to_nonneg by lia.
  pose proof (Permutation_length Hp) as Hl. cbn in Hl.
  split; [rewrite length_firstn; lia|]. split.
  - apply NoDup_firstn. eapply Permutation_NoDup; [|exact pages_to_visit_distinct].
    now apply Permutation_sym.
  - intros x Hx. eapply Permutation_in; [exact Hp|].
    rewrite <- (firstn_skipn (Z.to_nat n) pages). apply in_or_app. now left.
Qed.

(** X28. When Chrome starts, the home page loads, the window is maximized
    and no scroll script raises, [main.py] runs to [driver.quit()] whatever
    happens during the visits: it looks up between 2 and 5 link texts, all
    different and all among the five of [pages_to_visit]; it then scrolls
    between 2 and 4 times, each time down by 300 to 800 pixels; [quit] is
    the last command, is sent once, and its outcome is the script's. *)
Theorem main_visits_then_scrolls (startup : Startup) (site : nat -> string -> Visit)
  (scrolled : nat -> result unit) (g : rng) :
  valid g ->
  chrome_started startup = Ok tt ->
  page_loaded startup = Ok tt ->
  window_maximized startup = Ok tt ->
  (forall k, scrolled k = Ok tt) ->
  exists (body : list event) (s' : Sim.state),
    main startup site scrolled (Sim.start g) = (driver_quit startup, s') /\
    Sim.trace s' = body ++ [Act Quit] /\
    existsb is_quit body = false /\
    (2 <= List.length (sought body) <= 5)%nat /\
    NoDup (sought body) /\
    incl (sought body) pages_to_visit /\
    (2 <= List.length (scrolls_of body) <= 4)%nat /\
    Forall (fun dy => 300 <= dy <= 800)%Z (scrolls_of body).
Proof.
  intros Hg Hc Hl Hm Hs. unfold main.
  destruct (sim_choice user_agents (Sim.start g) Hg ltac:(discriminate))
    as (ua & s1 & E1 & _ & Ht1 & Hp1).
  unfold Sim.bind at 1. rewrite E1, Hc, Hl, Hm.
  repeat sim_step. rewrite step_draw. cbv beta. cbn [Sim.rand Sim.trace].
  destruct (shuffle_spec pages_to_visit
              {| tape := tape (Sim.rand s1); pos := S (pos (Sim.rand s1)) |})
    as [Hperm Hpt].
  { intros i. cbn [tape]. rewrite Hp1. apply Hg. }
  set (shuffled := shuffle pages_to_visit _) in *.
  destruct shuffled as [pages g3]. cbn [fst snd tape] in *.
  set (s3 := {| Sim.rand := g3; Sim.trace := _ |}).
  assert (Hv3 : valid (Sim.rand s3)).
  { intros i. cbn [Sim.rand s3]. rewrite Hpt, Hp1. apply Hg. }
  destruct (sim_randint 2 5 s3 Hv3 ltac:(lia)) as (n & s4 & E4 & Hn & Ht4 & Hp4).
  unfold Sim.bind at 1. rewrite E4.
  destruct (visit_all_spec site (slice_to pages n) 0%nat s4)
    as (new5 & s5 & E5 & Ht5 & Hp5 & Hso5 & Hsc5 & Hq5).
  unfold Sim.bind at 1. rewrite E5.
  assert (Hv5 : valid (Sim.rand s5)).
  { intros i. rewrite Hp5, Hp4. apply Hv3. }
  destruct (sim_randint 2 4 s5 Hv5 ltac:(lia)) as (m & s6 & E6 & Hm6 & Ht6 & Hp6).
  unfold Sim.bind at 1. rewrite E6.
  assert (Hv6 : valid (Sim.rand s6)).
  { intros i. rewrite Hp6. apply Hv5. }
  destruct (scroll_chunks_spec scrolled Hs (Z.to_nat m) 0%nat s6 Hv6)
    as (new7 & s7 & E7 & Ht7 & Hp7 & Hso7 & Hl7 & Hf7 & Hq7).
  unfold Sim.bind at 1. rewrite E7.
  rewrite step_emit. unfold Sim.lift.
  destruct (visited_pages pages n Hperm Hn) as (Hlen & Hnd & Hincl).
  exists (Sim.trace s6 ++ new7). eexists. split; [reflexivity|].
  cbn [Sim.trace]. split; [now rewrite Ht7|].
  rewrite Ht6, Ht5, Ht4. cbn [Sim.trace s3].
  rewrite Ht1. cbn [Sim.start Sim.trace app].
  cbn [existsb is_quit sought scrolls_of orb].
  rewrite !existsb_app, !sought_app, !scrolls_of_app, Hq5, Hq7, Hso5, Hso7, Hsc5.
  cbn [app orb]. rewrite !app_nil_r.
  repeat split; try assumption; lia.
Qed.

Lemma main_visits_then_scrolls_witness :
  exists (body : list event) (s' : Sim.state),
    main responsive_startup responsive_site (fun _ => Ok tt) (Sim.start (constant 0.5)) =
    (driver_quit responsive_startup, s') /\
    Sim.trace s' = body ++ [Act Quit] /\
    existsb is_quit body = false /\
    (2 <= List.length (sought body) <= 5)%nat /\
    NoDup (sought body) /\
    incl (sought body) pages_to_visit /\
    (2 <= List.length (scrolls_of body) <= 4)%nat /\
    Forall (fun dy => 300 <= dy <= 800)%Z (scrolls_of body).
Proof.
  apply (main_visits_then_scrolls responsive_startup responsive_site
           (fun _ => Ok tt) (constant 0.5)).
  - exact valid_constant_half.
  - reflexivity.
  - reflexivity.
  - reflexivity.
  - intros k. reflexivity.
Defined.

(** A scroll script that raises ends the loop with its exception. *)
Lemma scroll_chunks_raises (scrolled : nat -> result unit) (e : exn) (j : nat) :
  forall (remaining k : nat) (s : Sim.state),
    (j < remaining)%nat ->
    (forall i, (i < j)%nat -> scrolled (k + i)%nat = Ok tt) ->
    scrolled (k + j)%nat = Raise e ->
    exists (new : list event) (s' : Sim.state),
      scroll_chunks scrolled k remaining s = (Raise e, s') /\
      Sim.trace s' = Sim.trace s ++ new /\
      existsb is_quit new = false.
Proof.
  induction j as [|j IH]; intros remaining k s Hj Hok He;
    (destruct remaining as [|remaining]; [lia|]); cbn [scroll_chunks].
  - rewrite Nat.add_0_r in He. repeat sim_step. rewrite He.
    eexists. eexists. split; [reflexivity|]. cbn [Sim.trace].
    split; reflexivity.
  - pose proof (Hok 0%nat ltac:(lia)) as H0. rewrite Nat.add_0_r in H0.
    repeat sim_step. rewrite H0. repeat sim_step.
    match goal with
    | |- context [scroll_chunks scrolled (S k) remaining ?st] =>
        destruct (IH remaining (S k) st) as (new & s' & E & Ht & Hq)
    end.
    + lia.
    + intros i Hi. replace (S k + i)%nat with (k + S i)%nat by lia. apply Hok. lia.
    + now replace (S k + j)%nat with (k + S j)%nat by lia.
    + cbn [Sim.trace] in Ht. eexists. exists s'. split; [exact E|].
      split; [rewrite Ht, <- !app_assoc; reflexivity|].
      cbn. exact Hq.
Qed.

(** X29. The scroll loop of [main.py] is not protected: when the first or
    the second scroll script raises (at least two are always run), the
    script ends with that exception and [driver.quit()] is never sent, so
    the browser is left open. *)
Theorem main_scroll_failure_skips_quit (startup : Startup)
  (site : nat -> string -> Visit) (scrolled : nat -> result unit) (g : rng)
  (e : exn) (j : nat) :
  valid g ->
  chrome_started startup = Ok tt ->
  page_loaded startup = Ok tt ->
  window_maximized startup = Ok tt ->
  (j <= 1)%nat ->
  (forall i, (i < j)%nat -> scrolled i = Ok tt) ->
  scrolled j = Raise e ->
  exists s' : Sim.state,
    main startup site scrolled (Sim.start g) = (Raise e, s') /\
    existsb is_quit (Sim.trace s') = false.
Proof.
  intros Hg Hc Hl Hm Hj Hok He. unfold main.
  destruct (sim_choice user_agents (Sim.start g) Hg ltac:(discriminate))
    as (ua & s1 & E1 & _ & Ht1 & Hp1).
  unfold Sim.bind at 1. rewrite E1, Hc, Hl, Hm.
  repeat sim_step. rewrite step_draw. cbv beta. cbn [Sim.rand Sim.trace].
  destruct (shuffle_spec pages_to_visit
              {| tape := tape (Sim.rand s1); pos := S (pos (Sim.rand s1)) |})
    as [_ Hpt].
  { intros i. cbn [tape]. rewrite Hp1. apply Hg. }
  set (shuffled := shuffle pages_to_visit _) in *.
  destruct shuffled as [pages g3]. cbn [fst snd tape] in *.
  set (s3 := {| Sim.rand := g3; Sim.trace := _ |}).
  assert (Hv3 : valid (Sim.rand s3)).
  { intros i. cbn [Sim.rand s3]. rewrite Hpt, Hp1. apply Hg. }
  destruct (sim_randint 2 5 s3 Hv3 ltac:(lia)) as (n & s4 & E4 & Hn & Ht4 & Hp4).
  unfold Sim.bind at 1. rewrite E4.
  destruct (visit_all_spec site (slice_to pages n) 0%nat s4)
    as (new5 & s5 & E5 & Ht5 & Hp5 & Hso5 & Hsc5 & Hq5).
  unfold Sim.bind at 1. rewrite E5.
  assert (Hv5 : valid (Sim.rand s5)).
  { intros i. rewrite Hp5, Hp4. apply Hv3. }
  destruct (sim_randint 2 4 s5 Hv5 ltac:(lia)) as (m & s6 & E6 & Hm6 & Ht6 & Hp6).
  unfold Sim.bind at 1. rewrite E6.
  destruct (scroll_chunks_raises scrolled e j (Z.to_nat m) 0%nat s6)
    as (new7 & s7 & E7 & Ht7 & Hq7); [lia|exact Hok|exact He|].
  unfold Sim.bind at 1. rewrite E7.
  exists s7. split; [reflexivity|].
  rewrite Ht7, Ht6, Ht5, Ht4. cbn [Sim.trace s3].
  rewrite Ht1. cbn [Sim.start Sim.trace app].
  cbn [existsb is_quit orb].
  now rewrite !existsb_app, Hq5, Hq7.
Qed.

Lemma main_scroll_failure_skips_quit_witness :
  exists s' : Sim.state,
    main responsive_startup responsive_site (fun _ => Raise WebDriverException)
         (Sim.start (constant 0.5)) = (Raise WebDriverException, s') /\
    existsb is_quit (Sim.trace s') = false.
Proof.
  apply (main_scroll_failure_skips_quit responsive_startup responsive_site
           (fun _ => Raise WebDriverException) (constant 0.5) WebDriverException 0%nat).
  - exact valid_constant_half.
  - reflexivity.
  - reflexivity.
  - reflexivity.
  - lia.
  - intros i Hi. lia.
  - reflexivity.
Defined.
